(** * fullbase: dynamic schema manager and declarative function interpreter

    A shallow embedding of the Go sources

    - [model/model.go]               (catalog records, field type mapping),
    - the table service              (Info, Create, Rename, Drop, Columns),
    - [src/backend/api/database.go]  (CreateTable, DeleteTable, RunFunction,
                                      applyFilter, BindSingularInput, ...),

    together with a small model of the collaborators the code drives: Go's
    [strings] package, the SQLite schema objects the statements act on, and
    gorm's handles, transactions and condition builder. *)

From Stdlib Require Import String Ascii List Bool Arith ZArith Lia.
From stdpp Require Import base option list gmap strings.

Set Warnings "-register-all".

(** ** Go's [strings] package *)

Module GoStrings.

Definition lower_byte (c : ascii) : ascii :=
  let n := nat_of_ascii c in
  if ((65 <=? n)%nat && (n <=? 90)%nat) then ascii_of_nat (n + 32) else c.

(** [strings.ToLower]. ASCII letters are lowered byte by byte. Outside ASCII
    only two runes have an ASCII lower case in Go's tables: U+0130 (bytes
    C4 B0, lowered to "i") and U+212A (bytes E2 84 AA, lowered to "k"); they
    are mapped as Go maps them. Every other byte above 7F is kept as it is:
    Go would replace it by another rune above 7F, which changes no
    comparison of the result with an ASCII literal, the only use the
    sources make of [ToLower]. *)
Fixpoint ToLower (s : string) : string :=
  match s with
  | EmptyString => EmptyString
  | String c t =>
      match t with
      | EmptyString => String (lower_byte c) EmptyString
      | String c2 t2 =>
          if (nat_of_ascii c =? 196)%nat && (nat_of_ascii c2 =? 176)%nat
          then String "i" (ToLower t2)
          else
            match t2 with
            | EmptyString => String (lower_byte c) (ToLower t)
            | String c3 t3 =>
                if (nat_of_ascii c =? 226)%nat && (nat_of_ascii c2 =? 132)%nat
                   && (nat_of_ascii c3 =? 170)%nat
                then String "k" (ToLower t3)
                else String (lower_byte c) (ToLower t)
            end
      end
  end.

(** [strings.HasPrefix s prefix] *)
Definition HasPrefix (s prefix : string) : bool := String.prefix prefix s.

(** [strings.Join elems sep] *)
Definition Join (elems : list string) (sep : string) : string :=
  String.concat sep elems.

(** The slice expression [s[1:]] on a non-empty string. *)
Definition tail1 (s : string) : string :=
  match s with
  | EmptyString => EmptyString
  | String _ t => t
  end.

End GoStrings.

(** [utils.ArrayContains] *)
Fixpoint ArrayContains (arr : list string) (value : string) : bool :=
  match arr with
  | [] => false
  | v :: rest => if String.eqb v value then true else ArrayContains rest value
  end.

(** ** [model]: the records of model.go *)

Module Index.
Record t := mk { Name : string; Indexes : list string }.
End Index.

Module Field.
(** [Typ] is the Go field [Type]. *)
Record t := mk {
  Typ : string;
  Name : string;
  Nullable : bool;
  Reference : string;
  Unique : bool
}.
End Field.

Module CreateTable.
(** [Typ] is the Go field [Type] (json [table_type]). *)
Record t := mk {
  Name : string;
  Fields : list Field.t;
  Indexes : list Index.t;
  Typ : string
}.
End CreateTable.

(** The method [ConvertTypeToSQLiteType] of [Field] in model.go *)
Definition ConvertTypeToSQLiteType (f : Field.t) : string :=
  let t := GoStrings.ToLower (Field.Typ f) in
  if String.eqb t "text" || String.eqb t "string" then "TEXT"
  else if String.eqb t "number" || String.eqb t "real" then "REAL"
  else if String.eqb t "boolean" then "BOOLEAN"
  else if String.eqb t "datetime" || String.eqb t "timestamp" then "DATETIME"
  else if String.eqb t "file" || String.eqb t "blob" then "BLOB"
  else if String.eqb t "relation" then "RELATION"
  else "".

(** ** DDL generation: the statement text built by the table service's
    [Create] *)

Module DDL.

Definition nl : string := String (ascii_of_nat 10) EmptyString.
Definition tab : string := String (ascii_of_nat 9) EmptyString.

Definition idField : string := "id INTEGER PRIMARY KEY".

Definition authFields : list string :=
  [ "email TEXT NOT NULL"; "password TEXT NOT NULL"; "salt TEXT NOT NULL" ].

Definition timestampFields : list string :=
  [ "created_at TIMESTAMP DEFAULT CURRENT_TIMESTAMP";
    "updated_at TIMESTAMP DEFAULT CURRENT_TIMESTAMP" ].

(** The three slices the loop of [Create] appends to. *)
Record acc := mkAcc {
  fields : list string;
  foreignKeys : list string;
  uniques : list string
}.

(** One iteration of [for i := 0; i < len(params.Fields); i++]. *)
Definition loop_body (a : acc) (f : Field.t) : acc :=
  let dtype := ConvertTypeToSQLiteType f in
  if String.eqb dtype "" then a          (* continue *)
  else
    let field0 :=
      if String.eqb dtype "RELATION"
      then Field.Name f +:+ " " +:+ "TEXT"
      else Field.Name f +:+ " " +:+ dtype in
    let fks :=
      if String.eqb dtype "RELATION"
      then foreignKeys a ++
           [ "FOREIGN KEY(" +:+ Field.Name f +:+ ") REFERENCES "
             +:+ Field.Reference f +:+ "(id) ON UPDATE CASCADE" ]
      else foreignKeys a in
    let field1 :=
      if negb (Field.Nullable f) then field0 +:+ " NOT NULL" else field0 in
    let uqs :=
      if Field.Unique f
      then uniques a ++ [ "UNIQUE (" +:+ Field.Name f +:+ ")" ]
      else uniques a in
    {| fields := fields a ++ [field1]; foreignKeys := fks; uniques := uqs |}.

(** The state of the three slices when the loop is left. *)
Definition after_loop (params : CreateTable.t) : acc :=
  let fields0 := [idField] in
  let fields1 :=
    if String.eqb (CreateTable.Typ params) "users"
    then fields0 ++ authFields else fields0 in
  fold_left loop_body (CreateTable.Fields params)
    {| fields := fields1; foreignKeys := []; uniques := [] |}.

Definition isAuth (params : CreateTable.t) : bool :=
  String.eqb (CreateTable.Typ params) "users".

(** The column definitions: [fields] after the timestamps were appended. *)
Definition columns (params : CreateTable.t) : list string :=
  fields (after_loop params) ++ timestampFields.

(** [fields] as it is joined into the statement:
    [append(append(fields, uniques...), foreignKeys...)]. *)
Definition parts (params : CreateTable.t) : list string :=
  (columns params ++ uniques (after_loop params))
    ++ foreignKeys (after_loop params).

(** [fmt.Sprintf(query, params.Name, strings.Join(fields, ","))] *)
Definition query (params : CreateTable.t) : string :=
  nl +:+ tab +:+ tab +:+ "CREATE TABLE " +:+ CreateTable.Name params +:+ " ("
     +:+ nl +:+ tab +:+ tab +:+ tab +:+ GoStrings.Join (parts params) ","
     +:+ nl +:+ tab +:+ tab +:+ ")" +:+ nl +:+ tab.

(** *** The order the specification gives, written out directly *)

Definition supported (f : Field.t) : bool :=
  negb (String.eqb (ConvertTypeToSQLiteType f) "").

Definition is_relation (f : Field.t) : bool :=
  String.eqb (ConvertTypeToSQLiteType f) "RELATION".

Definition spec_column (f : Field.t) : string :=
  (Field.Name f +:+ " " +:+
     (if is_relation f then "TEXT" else ConvertTypeToSQLiteType f))
  +:+ (if Field.Nullable f then "" else " NOT NULL").

Definition spec_unique (f : Field.t) : string :=
  "UNIQUE (" +:+ Field.Name f +:+ ")".

Definition spec_foreign_key (f : Field.t) : string :=
  "FOREIGN KEY(" +:+ Field.Name f +:+ ") REFERENCES "
    +:+ Field.Reference f +:+ "(id) ON UPDATE CASCADE".

Definition spec_parts (params : CreateTable.t) : list string :=
  let fs := List.filter supported (CreateTable.Fields params) in
  [idField]
    ++ (if isAuth params then authFields else [])
    ++ map spec_column fs
    ++ timestampFields
    ++ map spec_unique (List.filter Field.Unique fs)
    ++ map spec_foreign_key (List.filter is_relation fs).

End DDL.

(** ** The [CreateTable] handler of database.go: request and statement text *)

Module fields.
(** The struct [fields] of database.go. *)
Record t := mk {
  FieldType : string;
  FieldName : string;
  Nullable : bool;
  RelatedTable : string;
  Indexed : bool;
  Unique : bool
}.

Definition convertTypeToSQLiteType (f : t) : string :=
  let ty := FieldType f in
  if String.eqb ty "text" then "TEXT"
  else if String.eqb ty "number" then "REAL"
  else if String.eqb ty "boolean" then "BOOLEAN"
  else if String.eqb ty "datetime" then "DATETIME"
  else if String.eqb ty "file" then "BLOB"
  else if String.eqb ty "relation" then "RELATION"
  else "".
End fields.

Module createTableReq.
(** [Typ] is the Go field [Type] (json [table_type]). *)
Record t := mk {
  TableName : string;
  IDType : string;
  Fields : list fields.t;
  Typ : string
}.
End createTableReq.

Module ApiDDL.

(** The [switch params.IDType]; [None] is the [default] branch, which
    answers 400 "Invalid id type". *)
Definition idField (params : createTableReq.t) : option string :=
  if String.eqb (createTableReq.IDType params) "string"
  then Some ("id " +:+ "TEXT PRIMARY KEY DEFAULT (hex(randomblob(8)))")
  else if String.eqb (createTableReq.IDType params) "manual"
  then Some ("id " +:+ "TEXT PRIMARY KEY")
  else None.

Record acc := mkAcc {
  fields_ : list string;
  foreignKeys : list string;
  uniques : list string;
  indexes : list string
}.

Definition loop_body (tableName : string) (a : acc) (f : fields.t) : acc :=
  let dtype := fields.convertTypeToSQLiteType f in
  if String.eqb dtype "" then a          (* continue *)
  else
    let field0 :=
      if String.eqb dtype "RELATION"
      then fields.FieldName f +:+ " " +:+ "TEXT"
      else fields.FieldName f +:+ " " +:+ dtype in
    let fks :=
      if String.eqb dtype "RELATION"
      then foreignKeys a ++
           [ "FOREIGN KEY(" +:+ fields.FieldName f +:+ ") REFERENCES "
             +:+ fields.RelatedTable f +:+ "(id) ON UPDATE CASCADE" ]
      else foreignKeys a in
    let field1 :=
      if negb (fields.Nullable f) then field0 +:+ " NOT NULL" else field0 in
    let idx :=
      if fields.Indexed f
      then indexes a ++
           [ "CREATE INDEX idx_" +:+ fields.FieldName f +:+ " ON "
             +:+ tableName +:+ " (" +:+ fields.FieldName f +:+ ")" ]
      else indexes a in
    let uqs :=
      if fields.Unique f
      then uniques a ++ [ "UNIQUE (" +:+ fields.FieldName f +:+ ")" ]
      else uniques a in
    {| fields_ := fields_ a ++ [field1]; foreignKeys := fks;
       uniques := uqs; indexes := idx |}.

Definition isAuth (params : createTableReq.t) : bool :=
  String.eqb (createTableReq.Typ params) "users".

Definition after_loop (id : string) (params : createTableReq.t) : acc :=
  let fields0 := [id] in
  let fields1 :=
    if String.eqb (createTableReq.Typ params) "users"
    then fields0 ++ DDL.authFields else fields0 in
  fold_left (loop_body (createTableReq.TableName params))
    (createTableReq.Fields params)
    {| fields_ := fields1; foreignKeys := []; uniques := []; indexes := [] |}.

Definition columns (id : string) (params : createTableReq.t) : list string :=
  fields_ (after_loop id params) ++ DDL.timestampFields.

Definition parts (id : string) (params : createTableReq.t) : list string :=
  (columns id params ++ uniques (after_loop id params))
    ++ foreignKeys (after_loop id params).

Definition query (id : string) (params : createTableReq.t) : string :=
  DDL.nl +:+ DDL.tab +:+ DDL.tab +:+ "CREATE TABLE "
     +:+ createTableReq.TableName params +:+ " ("
     +:+ DDL.nl +:+ DDL.tab +:+ DDL.tab +:+ DDL.tab
     +:+ GoStrings.Join (parts id params) ","
     +:+ DDL.nl +:+ DDL.tab +:+ DDL.tab +:+ ")" +:+ DDL.nl +:+ DDL.tab.

Definition supported (f : fields.t) : bool :=
  negb (String.eqb (fields.convertTypeToSQLiteType f) "").

Definition spec_column (f : fields.t) : string :=
  (fields.FieldName f +:+ " " +:+
     (if String.eqb (fields.convertTypeToSQLiteType f) "RELATION"
      then "TEXT" else fields.convertTypeToSQLiteType f))
  +:+ (if fields.Nullable f then "" else " NOT NULL").

End ApiDDL.

(** ** Go values and results *)

(** A value of type [interface{}] as [encoding/json] and the database
    driver produce it. Numbers are integers here: no property below does
    arithmetic on them. [VList] is [[]interface{}] and [VMap] is
    [map[string]interface{}], kept as the list of its entries in the order
    [range] visits them. *)
Inductive Value :=
| VNil
| VBool (b : bool)
| VNum (n : Z)
| VStr (s : string)
| VList (l : list Value)
| VMap (m : list (string * Value)).

(** A map the code builds itself ([result], [savedData], a scanned row). *)
Abbreviation Row := (gmap string Value).

(** [m[k]] on a decoded object: the zero value [nil] when the key is absent. *)
Fixpoint obj_get (m : list (string * Value)) (k : string) : Value :=
  match m with
  | [] => VNil
  | (k', v) :: rest => if String.eqb k' k then v else obj_get rest k
  end.

(** [m[k]] on a map the code built. *)
Definition map_get (m : Row) (k : string) : Value := default VNil (m !! k).

Inductive Error :=
| ErrRecordNotFound          (* gorm.ErrRecordNotFound *)
| ErrEmptySlice              (* gorm.ErrEmptySlice *)
| ErrMissingWhereClause      (* gorm.ErrMissingWhereClause *)
| ErrJSON                    (* an error of encoding/json *)
| ErrSQL (msg : string).     (* an error of the storage engine *)

(** What a Go call does: return a value, return an error, or panic. *)
Inductive Result (A : Type) :=
| Ok (a : A)
| Err (e : Error)
| Panic.
Arguments Ok {A} a.
Arguments Err {A} e.
Arguments Panic {A}.

(** ** The catalog record [model.Tables] *)

(** The TEXT column [indexes]. Two kinds of text reach it: the empty string
    [Migrate] leaves in the rows of the system tables, and the output of
    [json.Marshal] on a list of indexes, kept here in decoded form. *)
Inductive IndexesText :=
| EmptyText
| JSONText (l : list Index.t).

Definition json_Marshal (l : list Index.t) : IndexesText := JSONText l.

Definition json_Unmarshal (s : IndexesText) : Result (list Index.t) :=
  match s with
  | EmptyText => Err ErrJSON       (* unexpected end of JSON input *)
  | JSONText l => Ok l
  end.

Module Tables.
Record t := mk {
  Name : string;
  Auth : bool;
  System : bool;
  Indexes : IndexesText;
  SystemIndex : list Index.t;
  ViewRule : string;
  ReadRule : string;
  InsertRule : string;
  UpdateRule : string;
  DeleteRule : string
}.

Definition zero : t := mk "" false false EmptyText [] "" "" "" "" "".

Definition setSystemIndex (x : t) (l : list Index.t) : t :=
  mk (Name x) (Auth x) (System x) (Indexes x) l
     (ViewRule x) (ReadRule x) (InsertRule x) (UpdateRule x) (DeleteRule x).

(** The gorm tag [default:ADMIN_ONLY]: an empty rule is stored as
    ADMIN_ONLY when the record is created. [SystemIndex] has the tag [-]
    and is not stored. *)
Definition rule_default (r : string) : string :=
  if String.eqb r "" then "ADMIN_ONLY" else r.

Definition stored (x : t) : t :=
  mk (Name x) (Auth x) (System x) (Indexes x) []
     (rule_default (ViewRule x)) (rule_default (ReadRule x))
     (rule_default (InsertRule x)) (rule_default (UpdateRule x))
     (rule_default (DeleteRule x)).
End Tables.

(** ** The storage engine: the schema objects and rows of an SQLite file

    Column names are matched without regard to ASCII letter case, as the
    engine matches them, and a stored row holds the values it was given
    under the lower-cased names of their columns. The names of tables,
    indexes and triggers are compared byte by byte: the engine would also
    match those without regard to case, and the properties that depend on
    the difference are stated for names that have no variant in another
    case. Column types are not enforced (SQLite's flexible typing), foreign
    keys are recorded and not enforced (SQLite's default), and the time a
    trigger writes into [updated_at] is not modelled. *)

Module SQLite.

Module Column.
Record t := mk {
  cid : nat;
  name : string;
  type : string;
  notnull : bool;
  dflt_value : option string;
  pk : bool
}.
End Column.

Record Table := mkTable {
  t_columns : list Column.t;
  t_uniques : list string;
  t_foreign_keys : list (string * string);     (* column, referenced table *)
  t_rows : list Row
}.

Record Database := mkDB {
  tables : gmap string Table;
  indexes : gmap string string;                (* index name, its table *)
  triggers : gmap string string;               (* trigger name, its table *)
  catalog : gmap string Tables.t               (* the rows of [model.Tables] *)
}.

Definition empty : Database := mkDB ∅ ∅ ∅ ∅.

(** SQL [lower()], and the letter case the engine ignores in a name: ASCII
    only. *)
Fixpoint lower (s : string) : string :=
  match s with
  | EmptyString => EmptyString
  | String a r => String (GoStrings.lower_byte a) (lower r)
  end.

Definition same_name (a b : string) : bool := String.eqb (lower a) (lower b).

(** [k] is the only one of [keys] that names its column: no other key
    differs from it in letter case only. *)
Definition sole_name (keys : list string) (k : string) : bool :=
  forallb (fun k' => negb (same_name k' k) || String.eqb k' k) keys.

(** *** Reading statement text *)

Fixpoint before_char (c : ascii) (s : string) : string :=
  match s with
  | EmptyString => EmptyString
  | String a r => if Ascii.eqb a c then EmptyString else String a (before_char c r)
  end.

Fixpoint after_char (c : ascii) (s : string) : string :=
  match s with
  | EmptyString => EmptyString
  | String a r => if Ascii.eqb a c then r else after_char c r
  end.

Definition before_last (c : ascii) (s : string) : string :=
  String.rev (after_char c (String.rev s)).

Definition between_parens (s : string) : string :=
  before_char ")" (after_char "(" s).

Fixpoint split_on (c : ascii) (s : string) : list string :=
  match s with
  | EmptyString => [EmptyString]
  | String a r =>
      if Ascii.eqb a c then EmptyString :: split_on c r
      else match split_on c r with
           | h :: t => String a h :: t
           | [] => [String a EmptyString]
           end
  end.

Fixpoint has_seq (a b : string) (ws : list string) : bool :=
  match ws with
  | x :: r =>
      match r with
      | y :: _ => (String.eqb x a && String.eqb y b) || has_seq a b r
      | [] => false
      end
  | [] => false
  end.

Fixpoint word_after (a : string) (ws : list string) : option string :=
  match ws with
  | x :: r => if String.eqb x a then head r else word_after a r
  | [] => None
  end.

Definition is_ident_char (c : ascii) : bool :=
  let n := nat_of_ascii c in
  ((48 <=? n)%nat && (n <=? 57)%nat) || ((65 <=? n)%nat && (n <=? 90)%nat)
  || ((97 <=? n)%nat && (n <=? 122)%nat) || (n =? 95)%nat.

Fixpoint all_ident_chars (s : string) : bool :=
  match s with
  | EmptyString => true
  | String a r => is_ident_char a && all_ident_chars r
  end.

Definition is_ident (s : string) : bool :=
  negb (String.eqb s "") && all_ident_chars s.

(** *** Table definitions *)

Definition column_names (t : Table) : list string :=
  map Column.name (t_columns t).

Definition has_column (t : Table) (c : string) : bool :=
  existsb (same_name c) (column_names t).

(** One comma-separated part of a CREATE TABLE body. *)
Definition add_def (acc : option Table) (def : string) : option Table :=
  match acc with
  | None => None
  | Some t =>
      match String.words def with
      | [] => None
      | w :: ws =>
          if String.eqb w "UNIQUE" then
            Some (mkTable (t_columns t) (t_uniques t ++ [between_parens def])
                    (t_foreign_keys t) (t_rows t))
          else if String.eqb w "FOREIGN" then
            Some (mkTable (t_columns t) (t_uniques t)
                    (t_foreign_keys t ++
                       [(between_parens def,
                         before_char "(" (default "" (word_after "REFERENCES" ws)))])
                    (t_rows t))
          else
            Some (mkTable
                    (t_columns t ++
                       [Column.mk (length (t_columns t)) w (default "" (head ws))
                          (has_seq "NOT" "NULL" ws) (word_after "DEFAULT" ws)
                          (has_seq "PRIMARY" "KEY" ws)])
                    (t_uniques t) (t_foreign_keys t) (t_rows t))
      end
  end.

Fixpoint no_dup (l : list string) : bool :=
  match l with
  | [] => true
  | x :: r => negb (existsb (String.eqb x) r) && no_dup r
  end.

Definition parse_table (body : string) : option Table :=
  match fold_left add_def (split_on "," body) (Some (mkTable [] [] [] [])) with
  | None => None
  | Some t =>
      if no_dup (map lower (column_names t))
         && forallb (has_column t) (t_uniques t)
         && forallb (has_column t) (map fst (t_foreign_keys t))
      then Some t else None
  end.

(** *** Statements given as text ([Exec]) *)

Definition create_table (name body : string) (d : Database) : Result Database :=
  match tables d !! name with
  | Some _ => Err (ErrSQL ("table " +:+ name +:+ " already exists"))
  | None =>
      match parse_table body with
      | None => Err (ErrSQL "syntax error")
      | Some t => Ok (mkDB (<[name := t]> (tables d)) (indexes d) (triggers d) (catalog d))
      end
  end.

Definition create_index (idx tbl : string) (cols : list string) (d : Database)
  : Result Database :=
  match indexes d !! idx with
  | Some _ => Err (ErrSQL ("index " +:+ idx +:+ " already exists"))
  | None =>
      match tables d !! tbl with
      | None => Err (ErrSQL ("no such table: " +:+ tbl))
      | Some t =>
          if forallb (has_column t) cols
          then Ok (mkDB (tables d) (<[idx := tbl]> (indexes d)) (triggers d) (catalog d))
          else Err (ErrSQL "no such column")
      end
  end.

Definition create_trigger (name tbl : string) (d : Database) : Result Database :=
  match triggers d !! name with
  | Some _ => Err (ErrSQL ("trigger " +:+ name +:+ " already exists"))
  | None =>
      match tables d !! tbl with
      | None => Err (ErrSQL ("no such table: " +:+ tbl))
      | Some _ => Ok (mkDB (tables d) (indexes d) (<[name := tbl]> (triggers d)) (catalog d))
      end
  end.

(** DROP TABLE also drops the indexes and triggers of the table. *)
Definition drop_table (name : string) (d : Database) : Result Database :=
  match tables d !! name with
  | None => Err (ErrSQL ("no such table: " +:+ name))
  | Some _ =>
      Ok (mkDB (delete name (tables d))
            (filter (fun kv => snd kv <> name) (indexes d))
            (filter (fun kv => snd kv <> name) (triggers d))
            (catalog d))
  end.

Definition drop_index_if_exists (idx : string) (d : Database) : Result Database :=
  Ok (mkDB (tables d) (delete idx (indexes d)) (triggers d) (catalog d)).

Definition retarget (old new : string) (owner : string) : string :=
  if String.eqb owner old then new else owner.

(** ALTER TABLE ... RENAME TO: the table, its indexes and its triggers go
    by the new name. The foreign keys that name the table are kept as they
    were written. *)
Definition rename_table (old new : string) (d : Database) : Result Database :=
  match tables d !! old with
  | None => Err (ErrSQL ("no such table: " +:+ old))
  | Some t =>
      match tables d !! new, indexes d !! new with
      | None, None =>
          Ok (mkDB (<[new := t]> (delete old (tables d)))
                (retarget old new <$> indexes d)
                (retarget old new <$> triggers d)
                (catalog d))
      | _, _ => Err (ErrSQL ("there is already another table or index with this name: " +:+ new))
      end
  end.

(** [Exec sql]: the statement forms the sources send as text. *)
Definition exec (sql : string) (d : Database) : Result Database :=
  match String.words (before_char "(" sql) with
  | [c; k; name] =>
      if String.eqb c "CREATE" && String.eqb k "TABLE"
      then create_table name (before_last ")" (after_char "(" sql)) d
      else if String.eqb c "DROP" && String.eqb k "TABLE"
      then drop_table name d
      else Err (ErrSQL "syntax error")
  | [c; k; idx; o; tbl] =>
      if String.eqb c "CREATE" && String.eqb k "INDEX" && String.eqb o "ON"
      then create_index idx tbl (split_on "," (between_parens sql)) d
      else if String.eqb c "DROP" && String.eqb k "INDEX"
              && String.eqb idx "IF" && String.eqb o "EXISTS"
      then drop_index_if_exists tbl d
      else Err (ErrSQL "syntax error")
  | [a; t; old; r; o; new] =>
      if String.eqb a "ALTER" && String.eqb t "TABLE"
         && String.eqb r "RENAME" && String.eqb o "TO"
      then rename_table old new d
      else Err (ErrSQL "syntax error")
  | c :: k :: name :: a :: u :: o :: tbl :: _ =>
      if String.eqb c "CREATE" && String.eqb k "TRIGGER" && String.eqb a "AFTER"
         && String.eqb u "UPDATE" && String.eqb o "ON"
      then create_trigger name tbl d
      else Err (ErrSQL "syntax error")
  | _ => Err (ErrSQL "syntax error")
  end.

(** [SELECT count( * ) FROM sqlite_master WHERE type = 'trigger' AND name = ?] *)
Definition count_trigger (name : string) (d : Database) : Z :=
  match triggers d !! name with Some _ => 1%Z | None => 0%Z end.

(** *** The catalog table *)

Definition catalog_create (x : Tables.t) (d : Database) : Result Database :=
  match catalog d !! Tables.Name x with
  | Some _ => Err (ErrSQL "UNIQUE constraint failed: name")
  | None =>
      Ok (mkDB (tables d) (indexes d) (triggers d)
            (<[Tables.Name x := x]> (catalog d)))
  end.

(** [DELETE ... WHERE name = ?]; no matching row is not an error. *)
Definition catalog_delete (name : string) (d : Database) : Result Database :=
  Ok (mkDB (tables d) (indexes d) (triggers d) (delete name (catalog d))).


(** [UPDATE ... SET name = ? WHERE name = ?] *)
Definition catalog_rename (old new : string) (d : Database) : Result Database :=
  match catalog d !! old with
  | None => Ok d
  | Some x =>
      if String.eqb old new then Ok d
      else match catalog d !! new with
           | Some _ => Err (ErrSQL "UNIQUE constraint failed: name")
           | None =>
               let x' := Tables.mk new (Tables.Auth x) (Tables.System x)
                           (Tables.Indexes x) (Tables.SystemIndex x)
                           (Tables.ViewRule x) (Tables.ReadRule x)
                           (Tables.InsertRule x) (Tables.UpdateRule x)
                           (Tables.DeleteRule x) in
               Ok (mkDB (tables d) (indexes d) (triggers d)
                     (<[new := x']> (delete old (catalog d))))
           end
  end.

(** *** Conditions: the text of one WHERE condition and its argument *)

Inductive cmp := CEq | CNe | CLt | CLe | CGt | CGe.

Definition parse_op (s : string) : option cmp :=
  if String.eqb s "=" then Some CEq
  else if String.eqb s "!=" || String.eqb s "<>" then Some CNe
  else if String.eqb s "<" then Some CLt
  else if String.eqb s "<=" then Some CLe
  else if String.eqb s ">" then Some CGt
  else if String.eqb s ">=" then Some CGe
  else None.

(** The conditions understood: [column op ?], and a bare column name,
    which gorm turns into an equality. Any other text is rejected, as the
    SQL parser rejects an operator followed by [= ?]. *)
Definition parse_cond (text : string) : option (string * cmp) :=
  match String.words text with
  | [c] => if is_ident c then Some (c, CEq) else None
  | [c; o; q] =>
      if is_ident c && String.eqb q "?"
      then match parse_op o with Some op => Some (c, op) | None => None end
      else None
  | _ => None
  end.

Definition sql_compare (a b : Value) : option comparison :=
  match a, b with
  | VNum x, VNum y => Some (x ?= y)%Z
  | VStr x, VStr y => Some (String.compare x y)
  | VBool x, VBool y => Some (Nat.compare (Nat.b2n x) (Nat.b2n y))
  | _, _ => None                                (* NULL, or not comparable *)
  end.

Definition holds (op : cmp) (a b : Value) : bool :=
  match sql_compare a b with
  | None => false
  | Some c =>
      match op, c with
      | CEq, Eq => true
      | CNe, Lt | CNe, Gt => true
      | CLt, Lt => true
      | CLe, Lt | CLe, Eq => true
      | CGt, Gt => true
      | CGe, Gt | CGe, Eq => true
      | _, _ => false
      end
  end.

Definition check_cond (t : Table) (c : string * Value) : bool :=
  match parse_cond (fst c) with
  | Some (col, _) => has_column t col
  | None => false
  end.

(** The value a stored row has in a column. *)
Definition column_value (r : Row) (col : string) : Value := map_get r (lower col).

Definition cond_true (c : string * Value) (r : Row) : bool :=
  match parse_cond (fst c) with
  | Some (col, op) => holds op (column_value r col) (snd c)
  | None => false
  end.

Definition matches (conds : list (string * Value)) (r : Row) : bool :=
  forallb (fun c => cond_true c r) conds.

(** *** Rows *)

Definition is_nil (v : Value) : bool :=
  match v with VNil => true | _ => false end.

Definition keys_ok (t : Table) (r : Row) : bool :=
  forallb (has_column t) (map fst (map_to_list r)).

Definition notnull_ok (t : Table) (r : Row) : bool :=
  forallb (fun c => negb (Column.notnull c)
                    || bool_decide (is_Some (Column.dflt_value c))
                    || negb (is_nil (column_value r (Column.name c))))
          (t_columns t).

Fixpoint distinct_on (col : string) (rows : list Row) : bool :=
  match rows with
  | [] => true
  | r :: rest =>
      negb (existsb (fun r' => holds CEq (column_value r col) (column_value r' col))
              rest)
      && distinct_on col rest
  end.

Definition unique_columns (t : Table) : list string :=
  map Column.name (List.filter Column.pk (t_columns t)) ++ t_uniques t.

Definition set_rows (t : Table) (rows : list Row) : Table :=
  mkTable (t_columns t) (t_uniques t) (t_foreign_keys t) rows.

Definition put_table (name : string) (t : Table) (d : Database) : Database :=
  mkDB (<[name := t]> (tables d)) (indexes d) (triggers d) (catalog d).

Definition constraints_ok (t : Table) (rows : list Row) : bool :=
  forallb (notnull_ok t) rows
  && forallb (fun c => distinct_on c rows) (unique_columns t).

(** Go's [sort.Strings]: the byte-wise order. *)
Fixpoint insert_sorted (k : string) (l : list string) : list string :=
  match l with
  | [] => [k]
  | x :: rest => if String.leb k x then k :: l else x :: insert_sorted k rest
  end.

Definition sort_strings (l : list string) : list string :=
  fold_right insert_sorted [] l.

(** The column list gorm writes for the records of one [Create]: the keys
    of all of them, sorted. *)
Definition insert_columns (rows : list Row) : list string :=
  sort_strings (map fst (map_to_list (union_list rows))).

(** What the engine stores for one record of an INSERT with this column
    list: where several listed names are the same column, the value of the
    first; a record that lacks a listed key has NULL there. *)
Definition stored (columns : list string) (r : Row) : Row :=
  omap id (list_to_map (map (fun k => (lower k, r !! k)) columns)).

(** The assignments of an UPDATE: gorm writes them sorted by key, and
    where several assign to the same column the engine keeps the
    rightmost. *)
Definition assigned (vals : Row) : Row :=
  list_to_map
    (map (fun k => (lower k, map_get vals k))
       (rev (sort_strings (map fst (map_to_list vals))))).

(** [db.Table(name).Create(rows)] *)
Definition insert_rows (name : string) (rows : list Row) (d : Database)
  : Result Database :=
  match rows with
  | [] => Err ErrEmptySlice
  | _ :: _ =>
      match tables d !! name with
      | None => Err (ErrSQL ("no such table: " +:+ name))
      | Some t =>
          let rows' := map (stored (insert_columns rows)) rows in
          if negb (forallb (keys_ok t) rows) then Err (ErrSQL "no such column")
          else if constraints_ok t (t_rows t ++ rows')
          then Ok (put_table name (set_rows t (t_rows t ++ rows')) d)
          else Err (ErrSQL "constraint failed")
      end
  end.

(** [db.Table(name).Where(...).Updates(vals)]. The trigger the sources
    install on their tables then rewrites [updated_at] of the updated rows
    with the time of the statement; time is not modelled, and [updated_at]
    is left as the statement wrote it. *)
Definition update_rows (name : string) (conds : list (string * Value))
    (vals : Row) (d : Database) : Result Database :=
  match conds with
  | [] => Err ErrMissingWhereClause
  | _ :: _ =>
      match tables d !! name with
      | None => Err (ErrSQL ("no such table: " +:+ name))
      | Some t =>
          if negb (forallb (check_cond t) conds) then Err (ErrSQL "syntax error")
          else if negb (keys_ok t vals) then Err (ErrSQL "no such column")
          else
            let rows' := map (fun r => if matches conds r then assigned vals ∪ r else r)
                             (t_rows t) in
            if constraints_ok t rows'
            then Ok (put_table name (set_rows t rows') d)
            else Err (ErrSQL "constraint failed")
      end
  end.

(** [db.Table(name).Where(...).Delete(nil)] *)
Definition delete_rows (name : string) (conds : list (string * Value))
    (d : Database) : Result Database :=
  match conds with
  | [] => Err ErrMissingWhereClause
  | _ :: _ =>
      match tables d !! name with
      | None => Err (ErrSQL ("no such table: " +:+ name))
      | Some t =>
          if negb (forallb (check_cond t) conds) then Err (ErrSQL "syntax error")
          else Ok (put_table name
                     (set_rows t (List.filter (fun r => negb (matches conds r)) (t_rows t)))
                     d)
      end
  end.

(** The name under which the engine returns a selected column: the one
    the table declares. *)
Definition declared (t : Table) (c : string) : string :=
  default c (head (List.filter (same_name c) (column_names t))).

Definition project (t : Table) (cols : list string) (r : Row) : Row :=
  list_to_map (map (fun c => (declared t c, column_value r c)) cols).

(** A stored row as [SELECT *] returns it: under the declared names. *)
Definition project_all (t : Table) (r : Row) : Row :=
  list_to_map
    (omap (fun c => (fun v => (c, v)) <$> r !! lower c) (column_names t)).

(** [db.Table(name).Select(cols).Find(&result)]; no columns selects all. *)
Definition select_rows (name : string) (cols : list string) (d : Database)
  : Result (list Row) :=
  match tables d !! name with
  | None => Err (ErrSQL ("no such table: " +:+ name))
  | Some t =>
      if negb (forallb (has_column t) cols) then Err (ErrSQL "no such column")
      else Ok (match cols with
               | [] => map (project_all t) (t_rows t)
               | _ :: _ => map (project t cols) (t_rows t)
               end)
  end.

(** The rows of a table, none for a table that does not exist. *)
Definition rows_of (name : string) (d : Database) : list Row :=
  match tables d !! name with
  | Some t => t_rows t
  | None => []
  end.

(** *** Introspection: [pragma_table_info] left-joined with
    [pragma_foreign_key_list] on the column name *)

Definition b2z (b : bool) : Z := if b then 1%Z else 0%Z.

Definition info_row (c : Column.t) (reference : Value) : Row :=
  list_to_map
    [ ("cid", VNum (Z.of_nat (Column.cid c)));
      ("name", VStr (Column.name c));
      ("type", VStr (Column.type c));
      ("pk", VNum (b2z (Column.pk c)));
      ("notnull", VNum (b2z (Column.notnull c)));
      ("dflt_value", match Column.dflt_value c with
                     | Some s => VStr s | None => VNil end);
      ("reference", reference) ].

Definition table_info (name : string) (d : Database) : list Row :=
  match tables d !! name with
  | None => []                       (* the pragma of an unknown table is empty *)
  | Some t =>
      flat_map
        (fun c =>
           match List.filter (fun fk => String.eqb (fst fk) (Column.name c))
                   (t_foreign_keys t) with
           | [] => [info_row c VNil]
           | fks => map (fun fk => info_row c (VStr (snd fk))) fks
           end)
        (t_columns t)
  end.

End SQLite.

(** ** gorm: handles, statements and transactions over the engine *)

(** What the go-cache instance of the table service holds. Entries expire
    after a time the container configures; time is not modelled, and the
    properties below speak of an entry for as long as it is cached. *)
Inductive CacheVal :=
| CTables (t : Tables.t)
| CColumns (rows : list Row).

Module gorm.

(** The process state: the committed database file, the uncommitted view
    of the open transaction (if it has written), the cache of the table
    service, and the number of identifiers drawn so far. *)
Record World := mkWorld {
  committed : SQLite.Database;
  pending : option SQLite.Database;
  cache : gmap string CacheVal;
  draws : nat
}.

(** A [*gorm.DB]: the pool handle the services hold ([d.db], [s.db]), or
    the handle [Transaction] passes to its callback. *)
Inductive DB := Pool | InTx.

Definition M (A : Type) : Type := World -> Result A * World.

Definition ret {A} (a : A) : M A := fun w => (Ok a, w).

Definition bind {A B} (m : M A) (k : A -> M B) : M B :=
  fun w =>
    match m w with
    | (Ok a, w') => k a w'
    | (Err e, w') => (Err e, w')
    | (Panic, w') => (Panic, w')
    end.

Definition fail {A} (e : Error) : M A := fun w => (Err e, w).
Definition panic {A} : M A := fun w => (Panic, w).

Definition lift {A} (r : Result A) : M A := fun w => (r, w).

(** What a statement on the handle sees. *)
Definition view (h : DB) (w : World) : SQLite.Database :=
  match h with
  | Pool => committed w
  | InTx => default (committed w) (pending w)
  end.

(** A writing statement. On the pool handle it runs on a connection of its
    own and commits by itself (and finds the file locked when an open
    transaction has written); on the transaction handle it changes the
    uncommitted view only. *)
Definition write (h : DB) (f : SQLite.Database -> Result SQLite.Database) : M unit :=
  fun w =>
    match h with
    | Pool =>
        match pending w with
        | Some _ => (Err (ErrSQL "database is locked"), w)
        | None =>
            match f (committed w) with
            | Ok d => (Ok tt, mkWorld d None (cache w) (draws w))
            | Err e => (Err e, w)
            | Panic => (Panic, w)
            end
        end
    | InTx =>
        match f (view InTx w) with
        | Ok d => (Ok tt, mkWorld (committed w) (Some d) (cache w) (draws w))
        | Err e => (Err e, w)
        | Panic => (Panic, w)
        end
    end.

Definition read {A} (h : DB) (f : SQLite.Database -> Result A) : M A :=
  fun w => (f (view h w), w).

Definition commit (w : World) : World :=
  mkWorld (view InTx w) None (cache w) (draws w).

Definition rollback (w : World) : World :=
  mkWorld (committed w) None (cache w) (draws w).

(** [db.Transaction(fc)]: begin, run the callback on the transaction
    handle, commit when it returns nil, roll back when it returns an error
    or panics (the panic goes on to the caller). The callback returns an
    error only; [A] stands for the variables of the caller it assigns. *)
Definition Transaction {A} (fc : DB -> M A) : M A :=
  fun w =>
    match fc InTx w with
    | (Ok a, w') => (Ok a, commit w')
    | (Err e, w') => (Err e, rollback w')
    | (Panic, w') => (Panic, rollback w')
    end.

Definition Exec (h : DB) (sql : string) : M unit := write h (SQLite.exec sql).

(** [Create(&model.Tables{...})] with the three-field record of the
    earlier model, which has no defaults. *)
Definition Create_Tables_v0 (h : DB) (x : Tables.t) : M unit :=
  write h (SQLite.catalog_create x).

(** [Create(&model.Tables{...})] with the record of model.go: gorm fills
    in the tagged defaults. *)
Definition Create_Tables (h : DB) (x : Tables.t) : M unit :=
  write h (SQLite.catalog_create (Tables.stored x)).

Definition cache_Get (key : string) : M (option CacheVal) :=
  fun w => (Ok (cache w !! key), w).

Definition cache_Set (key : string) (v : CacheVal) : M unit :=
  fun w => (Ok tt, mkWorld (committed w) (pending w) (<[key := v]> (cache w)) (draws w)).

(** A computation that leaves the cache alone, and one that leaves the
    committed database alone. *)
Definition keeps_cache {A} (m : M A) : Prop :=
  forall w, cache (snd (m w)) = cache w.

Definition keeps_committed {A} (m : M A) : Prop :=
  forall w, committed (snd (m w)) = committed w.

End gorm.

Declare Scope go_scope.
Notation "'let*' x := m 'in' k" := (gorm.bind m (fun x => k))
  (at level 10, x name, m at level 100, k at level 200, only parsing) : go_scope.

(** ** The table service *)

Module TableService.
Import gorm.
Local Open Scope go_scope.

Definition TABLE_INFO_COLUMNS : string := "columns".
Definition TABLE_INFO_NAME : string := "name".
Definition TABLE_INFO_AUTH : string := "auth".
Definition TABLE_INFO_SYSTEM : string := "system".
Definition TABLE_INFO_INDEXES : string := "indexes".
Definition TABLE_INFO_VIEW_RULE : string := "view_rule".
Definition TABLE_INFO_READ_RULE : string := "read_rule".
Definition TABLE_INFO_INSERT_RULE : string := "insert_rule".
Definition TABLE_INFO_UPDATE_RULE : string := "update_rule".
Definition TABLE_INFO_DELETE_RULE : string := "delete_rule".

Definition default_info : list string :=
  [ TABLE_INFO_NAME; TABLE_INFO_AUTH; TABLE_INFO_INDEXES; TABLE_INFO_SYSTEM;
    TABLE_INFO_VIEW_RULE; TABLE_INFO_READ_RULE; TABLE_INFO_INSERT_RULE;
    TABLE_INFO_UPDATE_RULE; TABLE_INFO_DELETE_RULE ].

(** The columns of the catalog table. *)
Definition catalog_columns : list string := default_info.

(** [Select(infoNeeded)]: the fields not selected keep their zero value. *)
Definition selected (infoNeeded : list string) (x : Tables.t) : Tables.t :=
  let pick {A} (c : string) (v zero : A) : A :=
    if ArrayContains infoNeeded c then v else zero in
  Tables.mk
    (pick TABLE_INFO_NAME (Tables.Name x) "")
    (pick TABLE_INFO_AUTH (Tables.Auth x) false)
    (pick TABLE_INFO_SYSTEM (Tables.System x) false)
    (pick TABLE_INFO_INDEXES (Tables.Indexes x) EmptyText)
    []
    (pick TABLE_INFO_VIEW_RULE (Tables.ViewRule x) "")
    (pick TABLE_INFO_READ_RULE (Tables.ReadRule x) "")
    (pick TABLE_INFO_INSERT_RULE (Tables.InsertRule x) "")
    (pick TABLE_INFO_UPDATE_RULE (Tables.UpdateRule x) "")
    (pick TABLE_INFO_DELETE_RULE (Tables.DeleteRule x) "").

(** [Model(&model.Tables{}).Select(infoNeeded).Where("name = ?", tableName).First(&table)] *)
Definition First (infoNeeded : list string) (tableName : string)
    (d : SQLite.Database) : Result Tables.t :=
  if negb (forallb (ArrayContains catalog_columns) infoNeeded)
  then Err (ErrSQL "no such column")
  else match SQLite.catalog d !! tableName with
       | None => Err ErrRecordNotFound
       | Some x => Ok (selected infoNeeded x)
       end.

Definition info_cache_key (tableName : string) (infoNeeded : list string) : string :=
  "table_" +:+ GoStrings.Join infoNeeded ";" +:+ tableName.

Definition Info (tableName : string) (infoNeeded : list string) : M Tables.t :=
  let infoNeeded :=
    match infoNeeded with [] => default_info | _ :: _ => infoNeeded end in
  let cacheKey := info_cache_key tableName infoNeeded in
  let* storedCache := cache_Get cacheKey in
  match storedCache with
  | Some (CTables t) => ret t
  | Some (CColumns _) => panic        (* storedCache.(model.Tables) *)
  | None =>
      let* table := read Pool (First infoNeeded tableName) in
      let* table := (if ArrayContains infoNeeded TABLE_INFO_INDEXES
                 then let* index := lift (json_Unmarshal (Tables.Indexes table)) in
                      ret (Tables.setSystemIndex table index)
                 else ret table) in
      let* _ := cache_Set cacheKey (CTables table) in
      ret table
  end.

Definition create_index_sql (tableName : string) (index : Index.t) : string :=
  "CREATE INDEX " +:+ Index.Name index +:+ " ON " +:+ tableName +:+ " ("
    +:+ GoStrings.Join (Index.Indexes index) "," +:+ ")".

Definition trigger_name (tableName : string) : string :=
  "updated_timestamp_" +:+ tableName.

(** A line break followed by the three tabs the statement is indented by. *)
Definition nl3 : string := DDL.nl +:+ DDL.tab +:+ DDL.tab +:+ DDL.tab.

Definition create_trigger_sql (tableName : string) : string :=
  nl3 +:+ "CREATE TRIGGER updated_timestamp_" +:+ tableName
    +:+ nl3 +:+ "AFTER UPDATE ON " +:+ tableName
    +:+ nl3 +:+ "FOR EACH ROW"
    +:+ nl3 +:+ "BEGIN"
    +:+ nl3 +:+ DDL.tab +:+ "UPDATE " +:+ tableName
    +:+ " SET updated_at = CURRENT_TIMESTAMP WHERE id = OLD.id;"
    +:+ nl3 +:+ "END" +:+ nl3.

(** [for _, index := range params.Indexes] *)
Fixpoint add_indexes (tx : DB) (tableName : string) (l : list Index.t) : M unit :=
  match l with
  | [] => ret tt
  | index :: rest =>
      let* _ := Exec tx (create_index_sql tableName index) in
      add_indexes tx tableName rest
  end.

Definition Create (tx : DB) (params : CreateTable.t) : M unit :=
  let isAuth := DDL.isAuth params in
  let query := DDL.query params in
  let* _ := Exec tx query in
  let* _ := add_indexes tx (CreateTable.Name params) (CreateTable.Indexes params) in
  let* triggerHolder := read tx (fun d =>
    Ok (SQLite.count_trigger (trigger_name (CreateTable.Name params)) d)) in
  let* _ := (if (triggerHolder =? 0)%Z
             then Exec tx (create_trigger_sql (CreateTable.Name params))
             else ret tt) in
  let indexJson := json_Marshal (CreateTable.Indexes params) in
  Create_Tables tx
    (Tables.mk (CreateTable.Name params) isAuth false indexJson [] "" "" "" "" "").

Definition Rename (tx : DB) (tableName newTableName : string) : M unit :=
  let* _ := write tx (SQLite.catalog_rename tableName newTableName) in
  Exec tx ("ALTER TABLE " +:+ tableName +:+ " RENAME TO " +:+ newTableName).

Definition Drop (tx : DB) (tableName : string) : M unit :=
  let* _ := write tx (SQLite.catalog_delete tableName) in
  Exec tx ("DROP TABLE " +:+ tableName).

Definition is_str (v : Value) (s : string) : bool :=
  match v with VStr t => String.eqb t s | _ => false end.

(** [if col["reference"] != nil { result[i]["type"] = "RELATION" }] *)
Definition remap (col : Row) : Row :=
  if negb (SQLite.is_nil (map_get col "reference"))
  then <["type" := VStr "RELATION"]> col else col.

Definition columns_cache_key (tableName : string) : string :=
  "columns_" +:+ tableName.

Definition Columns (tableName : string) (fetchAuthColumn : bool) : M (list Row) :=
  let cacheKey := columns_cache_key tableName in
  let* storedCache := cache_Get cacheKey in
  match storedCache with
  | Some (CColumns rows) => ret rows
  | Some (CTables _) => panic
  | None =>
      let* result := read Pool (fun d => Ok (SQLite.table_info tableName d)) in
      let result := map remap result in
      let* table := Info tableName [] in
      if Tables.Auth table then
        if fetchAuthColumn then
          ret (List.filter
                 (fun row => negb (is_str (map_get row "name") "salt")) result)
        else
          ret (List.filter
                 (fun row => negb (is_str (map_get row "name") "password")
                             && negb (is_str (map_get row "name") "salt")) result)
      else
        let* _ := cache_Set cacheKey (CColumns result) in
        ret result
  end.

(** The names of the indexes of a table in [sqlite_master]. *)
Definition Indexes (tableName : string) : M (list string) :=
  read Pool (fun d =>
    Ok (map fst (List.filter (fun kv => String.eqb (snd kv) tableName)
                   (map_to_list (SQLite.indexes d))))).

Fixpoint DropIndexes (tx : DB) (indexes : list string) : M unit :=
  match indexes with
  | [] => ret tt
  | index :: rest =>
      let* _ := Exec tx ("DROP INDEX IF EXISTS " +:+ index) in
      DropIndexes tx rest
  end.

End TableService.

(** ** The handlers [CreateTable] and [DeleteTable] of database.go *)

Module DatabaseAPI.
Import gorm.
Local Open Scope go_scope.

(** What the handler answers: [c.JSON(status, body)], or the
    [echo.NewHTTPError] of the id type check. *)
Inductive Response :=
| JSON_OK                                     (* 200, nil *)
| JSON_Error (status : nat) (e : Error)       (* {"error": err.Error()} *)
| HTTPError (status : nat) (msg : string)
| Panicked.

Definition respond (r : Result unit * World) : Response * World :=
  match r with
  | (Ok _, w) => (JSON_OK, w)
  | (Err e, w) => (JSON_Error 500 e, w)
  | (Panic, w) => (Panicked, w)
  end.

(** [for _, index := range indexes { err = d.db.Exec(index).Error ... }] *)
Fixpoint exec_all (h : DB) (stmts : list string) : M unit :=
  match stmts with
  | [] => ret tt
  | sql :: rest => let* _ := Exec h sql in exec_all h rest
  end.

(** The callback given to [d.db.Transaction]. Its parameter [tx] is not
    used: every statement goes through [d.db], the pool handle. *)
Definition create_callback (id : string) (params : createTableReq.t)
    (tx : DB) : M unit :=
  let tableName := createTableReq.TableName params in
  let* _ := Exec Pool (ApiDDL.query id params) in
  let* _ := exec_all Pool (ApiDDL.indexes (ApiDDL.after_loop id params)) in
  let* triggerHolder := read Pool (fun d =>
    Ok (SQLite.count_trigger (TableService.trigger_name tableName) d)) in
  let* _ := (if (triggerHolder =? 0)%Z
             then Exec Pool (TableService.create_trigger_sql tableName)
             else ret tt) in
  Create_Tables_v0 Pool
    (Tables.mk tableName (ApiDDL.isAuth params) false EmptyText [] "" "" "" "" "").

Definition CreateTable (params : createTableReq.t) (w : World) : Response * World :=
  match ApiDDL.idField params with
  | None => (HTTPError 400 "Invalid id type", w)
  | Some id => respond (Transaction (create_callback id params) w)
  end.



End DatabaseAPI.

(** ** The function interpreter of database.go *)

Module Filter.
(** Modelled from the spec: the struct [Filter], whose declaration is not
    among the sources; a delete step carries explicit triples of column,
    operator and literal value, all strings here ([f.Value == ""] is the
    absent literal). *)
Record t := mk { Column : string; Operator : string; Value : string }.
End Filter.

Module Function.
Record t := mk {
  Name : string;
  Action : string;
  Table : string;
  Multiple : bool;
  Values : list (string * Value);
  Filter : list Filter.t;
  Columns : list string
}.
End Function.

Module Caller.
Record t := mk { Data : list (string * Value) }.
End Caller.

(** Type assertions [v.(T)] without the comma-ok form: they panic when the
    dynamic type is another one (or [v] is nil). *)
Definition as_string (v : Value) : Result string :=
  match v with VStr s => Ok s | _ => Panic end.

Definition as_map (v : Value) : Result (list (string * Value)) :=
  match v with VMap m => Ok m | _ => Panic end.

Definition as_slice (v : Value) : Result (list Value) :=
  match v with VList l => Ok l | _ => Panic end.

(** [v.([]map[string]interface{})]. The caller's data is decoded JSON, in
    which a list is always a [[]interface{}]: no value has the asserted
    type. *)
Definition as_slice_of_maps (v : Value) : Result (list (list (string * Value))) :=
  match v with
  | VNil | VBool _ | VNum _ | VStr _ | VList _ | VMap _ => Panic
  end.

(** What [BindSingularInput] assigns to [result[k]] for the template string
    [s]: the three branches of its loop body. *)
Definition bound_value (input : list (string * Value)) (savedData : Row)
    (userID : string) (k s : string) : Value :=
  if GoStrings.HasPrefix s "$" then
    let key := GoStrings.tail1 s in
    if String.eqb s "$user.id" then VStr userID
    else map_get savedData key
  else obj_get input k.

(** One iteration of [for k, v := range template] in [BindSingularInput]. *)
Definition bind_entry (input : list (string * Value)) (savedData : Row)
    (userID : string) (acc : Result Row) (kv : string * Value) : Result Row :=
  match acc with
  | Ok result =>
      match snd kv with
      | VStr s => Ok (<[fst kv := bound_value input savedData userID (fst kv) s]> result)
      | _ => Panic                                (* v.(string) *)
      end
  | Err e => Err e
  | Panic => Panic
  end.

Definition BindSingularInput (template input : list (string * Value))
    (savedData : Row) (userID : string) : Result Row :=
  fold_left (bind_entry input savedData userID) template (Ok ∅).

(** One iteration of [for _, input := range inputs] in [BindMultipleInput]. *)
Definition bind_input (template : list (string * Value)) (savedData : Row)
    (userID : string) (acc : Result (list Row)) (input : Value) : Result (list Row) :=
  match acc with
  | Ok result =>
      match as_map input with
      | Ok m =>
          match BindSingularInput template m savedData userID with
          | Ok r => Ok (result ++ [r])
          | Err e => Err e
          | Panic => Panic
          end
      | Err e => Err e
      | Panic => Panic
      end
  | Err e => Err e
  | Panic => Panic
  end.

Definition BindMultipleInput (template : list (string * Value))
    (inputs : list Value) (savedData : Row) (userID : string) : Result (list Row) :=
  fold_left (bind_input template savedData userID) inputs (Ok []).

Section Interpreter.
Import gorm.
Local Open Scope go_scope.

(** [utils.GenerateRandomString(n)], the identifier generator of the
    repository's [utils] package: the string it returns on its [k]-th call
    in this process (its error result is discarded by every caller). *)
Variable GenerateRandomString : nat -> nat -> string.

Definition new_id : M Value :=
  fun w =>
    (Ok (VStr (GenerateRandomString 16 (draws w))),
     mkWorld (committed w) (pending w) (cache w) (S (draws w))).

(** [for i := range bindedInput { bindedInput[i]["id"], _ = ... }] *)
Fixpoint assign_ids (rows : list Row) : M (list Row) :=
  match rows with
  | [] => ret []
  | r :: rest =>
      let* id := new_id in
      let* rest' := assign_ids rest in
      ret (<["id" := id]> r :: rest')
  end.

(** The body of the loop over the inputs of a multiple update. *)
Fixpoint update_each (db : DB) (f : Function.t)
    (inputs : list (list (string * Value))) (savedData : Row) (userID : string)
  : M unit :=
  match inputs with
  | [] => ret tt
  | input :: rest =>
      let filter := [("id = ?", obj_get input "id")] in
      let* bindedInput :=
        lift (BindSingularInput (Function.Values f) input savedData userID) in
      let* _ := write db (SQLite.update_rows (Function.Table f) filter bindedInput) in
      update_each db f rest savedData userID
  end.

(** The map [filter] a delete step builds from its triples. *)
Definition delete_filter (data : list (string * Value)) (fl : list Filter.t) : Row :=
  fold_left
    (fun filter f =>
       if String.eqb (Filter.Value f) ""
       then <[Filter.Column f +:+ Filter.Operator f := obj_get data (Filter.Column f)]> filter
       else <[Filter.Column f +:+ Filter.Operator f := VStr (Filter.Value f)]> filter)
    fl ∅.

Definition row_value (r : Row) : Value := VMap (map_to_list r).

(** One iteration of [for _, f := range functions]: the [switch f.Action].
    [db] is the handle the transaction callback receives. *)
Definition step (db : DB) (caller : Caller.t) (userID : string)
    (f : Function.t) (savedData : Row) : M Row :=
  let named := obj_get (Caller.Data caller) (Function.Name f) in
  if String.eqb (Function.Action f) "insert" then
    if Function.Multiple f then
      let* inputs := lift (as_slice named) in
      let* bindedInput :=
        lift (BindMultipleInput (Function.Values f) inputs savedData userID) in
      let* bindedInput := assign_ids bindedInput in
      let* _ := write db (SQLite.insert_rows (Function.Table f) bindedInput) in
      ret savedData
    else
      let* input := lift (as_map named) in
      let* bindedInput :=
        lift (BindSingularInput (Function.Values f) input savedData userID) in
      let* id := new_id in
      let bindedInput := <["id" := id]> bindedInput in
      let* _ := write db (SQLite.insert_rows (Function.Table f) [bindedInput]) in
      ret (<[Function.Name f := map_get bindedInput "id"]> savedData)
  else if String.eqb (Function.Action f) "update" then
    if Function.Multiple f then
      let* inputs := lift (as_slice_of_maps named) in
      let* _ := update_each db f inputs savedData userID in
      ret savedData
    else
      let* data := lift (as_map named) in
      let filter := [("id = ?", obj_get data "id")] in
      let* input := lift (as_map named) in
      let* bindedInput :=
        lift (BindSingularInput (Function.Values f) input savedData userID) in
      let* _ := write db (SQLite.update_rows (Function.Table f) filter bindedInput) in
      ret savedData
  else if String.eqb (Function.Action f) "delete" then
    let* data := lift (as_map named) in
    let filter := delete_filter data (Function.Filter f) in
    let* _ := write db (SQLite.delete_rows (Function.Table f) (map_to_list filter)) in
    ret savedData
  else if String.eqb (Function.Action f) "fetch" then
    let* result := read db (SQLite.select_rows (Function.Table f) (Function.Columns f)) in
    ret (<[Function.Name f := VList (map row_value result)]> savedData)
  else ret savedData.

(** [for _, f := range functions { ... }; return nil] *)
Fixpoint steps (db : DB) (caller : Caller.t) (userID : string)
    (functions : list Function.t) (savedData : Row) : M Row :=
  match functions with
  | [] => ret savedData
  | f :: rest =>
      let* savedData' := step db caller userID f savedData in
      steps db caller userID rest savedData'
  end.

(** What the handler answers. *)
Inductive Response :=
| StatusOK (savedData : Row)                  (* c.JSON(200, savedData) *)
| StatusInternalServerError (e : Error).      (* c.JSON(500, {"error": ...}) *)

(** [RunFunction], from the point where the stored steps and the caller's
    body are decoded. [userID] is the empty string for an anonymous
    caller. A result [Panic] is a panic leaving the handler. *)
Definition RunFunction (functions : list Function.t) (caller : Caller.t)
    (userID : string) (w : World) : Result Response * World :=
  match Transaction (fun db => steps db caller userID functions ∅) w with
  | (Ok savedData, w') => (Ok (StatusOK savedData), w')
  | (Err e, w') => (Ok (StatusInternalServerError e), w')
  | (Panic, w') => (Panic, w')
  end.

End Interpreter.

(** ** The filter compiler [applyFilter] and gorm's condition builder *)

Module clause.

(** The expressions gorm keeps in the WHERE clause of a statement. *)
Inductive Expression :=
| Expr (sql : string) (var : Value)
| OrConditions (exprs : list Expression)
| AndConditions (exprs : list Expression).

(** [clause.And] *)
Definition And (exprs : list Expression) : option Expression :=
  match exprs with
  | [] => None
  | [e] => match e with
           | OrConditions _ => Some (AndConditions exprs)
           | _ => Some e
           end
  | _ :: _ :: _ => Some (AndConditions exprs)
  end.

(** [clause.Or] *)
Definition Or (exprs : list Expression) : option Expression :=
  match exprs with
  | [] => None
  | _ :: _ => Some (OrConditions exprs)
  end.

Definition single_or (e : Expression) : bool :=
  match e with
  | OrConditions [_] => true
  | _ => false
  end.

(** The value of an expression on a row, following the text gorm builds
    ([buildExprs]: the parts are joined by the joiner of the enclosing
    group, except that a one-element [OrConditions] is joined by OR;
    groups of several parts are parenthesised) and SQL's precedence of AND
    over OR. [None] is a text the SQL parser rejects. In [seq], [done] is
    the value of the disjuncts already closed and [cur] the value of the
    conjunction being read. *)
Fixpoint eval (row : Row) (e : Expression) {struct e} : option bool :=
  let seq :=
    fix seq (is_or : bool) (es : list Expression) (done cur : bool)
      {struct es} : option bool :=
      match es with
      | [] => Some (done || cur)
      | e' :: rest =>
          match eval row e' with
          | None => None
          | Some b =>
              if is_or || single_or e'
              then seq is_or rest (done || cur) b
              else seq is_or rest done (cur && b)
          end
      end in
  match e with
  | Expr sql var =>
      match SQLite.parse_cond sql with
      | Some (col, op) => Some (SQLite.holds op (SQLite.column_value row col) var)
      | None => None
      end
  | OrConditions es =>
      match es with
      | [] => Some true
      | e0 :: rest =>
          match eval row e0 with
          | None => None
          | Some b => seq true rest false b
          end
      end
  | AndConditions es =>
      match es with
      | [] => Some true
      | e0 :: rest =>
          match eval row e0 with
          | None => None
          | Some b => seq false rest false b
          end
      end
  end.

(** The first position holding something else than an [OrConditions] of
    at most one element. *)
Fixpoint first_plain (es : list Expression) (idx : nat) : option nat :=
  match es with
  | [] => None
  | e :: rest =>
      match e with
      | OrConditions [] | OrConditions [_] => first_plain rest (S idx)
      | _ => Some idx
      end
  end.

(** The rewriting [Where.Build] does before it writes the text: a lone
    [AndConditions] is opened, and the first plain expression is swapped
    to the front. *)
Definition arrange (exprs : list Expression) : list Expression :=
  let exprs :=
    match exprs with
    | [AndConditions inner] => inner
    | _ => exprs
    end in
  match first_plain exprs 0 with
  | Some (S i) =>
      match exprs, exprs !! (S i) with
      | e0 :: _, Some ei => <[0 := ei]> (<[S i := e0]> exprs)
      | _, _ => exprs
      end
  | _ => exprs
  end.

End clause.

Module Query.
Import clause.

(** A [*gorm.DB] made by [Table(...)]: a chain instance. [Where] and [Or]
    add to its one statement and return the receiver itself, so all the
    variables [query] and [tx] of [applyFilter] name this one object, of
    which only the WHERE expressions matter here. *)
Definition t := list Expression.

(** [query.Where(sql, value)] with a placeholder in [sql] *)
Definition Where_ (query : t) (sql : string) (value : Value) : t :=
  query ++ [Expr sql value].

(** [query.Or(sql, value)]: [clause.Or(clause.And(conds...))] *)
Definition Or_ (query : t) (sql : string) (value : Value) : t :=
  query ++ [OrConditions [Expr sql value]].

(** [query.Where(tx)] with a [*gorm.DB] argument: the expressions of the
    WHERE clause of [tx] are added as one group. The library is not among
    the sources and what it does when [tx] is the receiver itself differs
    between its releases; the properties below are stated for the keys
    that do not reach this call. *)
Definition Where_DB (query tx : t) : t :=
  match tx with
  | [] => query
  | _ :: _ =>
      let exprs :=
        match tx with
        | [OrConditions inner] => [AndConditions inner]
        | _ => tx
        end in
      match And exprs with
      | Some c => query ++ [c]
      | None => query
      end
  end.

(** The rows a statement with this WHERE clause acts on: all of them when
    there is no condition. *)
Definition selects (query : t) (row : Row) : option bool :=
  match arrange query with
  | [] => Some true
  | e0 :: rest => eval row (AndConditions (e0 :: rest))
  end.

End Query.

(** [Where] and [Or] of database.go *)
Definition Where (query : Query.t) (key : string) (value : Value) : Query.t :=
  Query.Where_ query (key +:+ " = ?") value.

Definition Or (query : Query.t) (key : string) (value : Value) : Query.t :=
  Query.Or_ query (key +:+ " = ?") value.

(** [applyFilter], on the value the caller asserted to be a map. The loop
    over the entries returns from inside the [or] and the default case, so
    the entries after the first such key are never looked at. *)
Fixpoint applyFilterV (filter : Value) (query : Query.t) {struct filter}
  : Result Query.t :=
  match filter with
  | VMap m =>
      (fix range (m : list (string * Value)) (query : Query.t) {struct m}
         : Result Query.t :=
         match m with
         | [] => Ok query
         | (key, value) :: rest =>
             if String.eqb (GoStrings.ToLower key) "and" then
               match value with
               | VList conditions =>
                   match
                     (fix each (cs : list Value) (query : Query.t) {struct cs}
                        : Result Query.t :=
                        match cs with
                        | [] => Ok query
                        | condition :: cs' =>
                            match applyFilterV condition query with
                            | Ok query' => each cs' query'
                            | Err e => Err e
                            | Panic => Panic
                            end
                        end) conditions query
                   with
                   | Ok query' => range rest query'
                   | Err e => Err e
                   | Panic => Panic
                   end
               | _ => Panic                       (* value.([]interface{}) *)
               end
             else if String.eqb (GoStrings.ToLower key) "or" then
               match value with
               | VList ors =>
                   match ors with
                   | [] => Panic                  (* ors[0]: index out of range *)
                   | first :: others =>
                       match applyFilterV first query with
                       | Ok tx =>
                           match
                             (fix each (cs : list Value) (tx : Query.t) {struct cs}
                                : Result Query.t :=
                                match cs with
                                | [] => Ok tx
                                | condition :: cs' =>
                                    match as_map condition with
                                    | Ok kvs =>
                                        each cs'
                                          (fold_left (fun q kv => Or q (fst kv) (snd kv))
                                             kvs tx)
                                    | Err e => Err e
                                    | Panic => Panic
                                    end
                                end) others tx
                           with
                           | Ok tx' => Ok (Query.Where_DB tx' tx')
                           | Err e => Err e
                           | Panic => Panic
                           end
                       | Err e => Err e
                       | Panic => Panic
                       end
                   end
               | _ => Panic                       (* value.([]interface{}) *)
               end
             else Ok (Where query key value)
         end) m query
  | _ => Panic                                    (* condition.(map[string]interface{}) *)
  end.

Definition applyFilter (query : Query.t) (filter : list (string * Value))
  : Result Query.t :=
  applyFilterV (VMap filter) query.

(** The inner loop [seq] of [clause.eval], by itself. *)
Section EvalSeq.
Variable row : Row.

Fixpoint eval_seq (is_or : bool) (es : list clause.Expression)
    (done cur : bool) {struct es} : option bool :=
  match es with
  | [] => Some (done || cur)
  | e' :: rest =>
      match clause.eval row e' with
      | None => None
      | Some b =>
          if is_or || clause.single_or e'
          then eval_seq is_or rest (done || cur) b
          else eval_seq is_or rest done (cur && b)
      end
  end.

End EvalSeq.

(** Flat condition trees: a list of one-entry maps, each a column and the
    value it is compared with. A plain key is a column name that is not one
    of the two logical operators. *)
Definition flat (kvs : list (string * Value)) : list Value :=
  map (fun kv => VMap [kv]) kvs.

Definition plain_key (k : string) : bool :=
  SQLite.is_ident k
  && negb (String.eqb (GoStrings.ToLower k) "and")
  && negb (String.eqb (GoStrings.ToLower k) "or").

Definition equality (kv : string * Value) : clause.Expression :=
  clause.Expr (fst kv +:+ " = ?") (snd kv).

Definition equal_in (row : Row) (kv : string * Value) : bool :=
  SQLite.holds SQLite.CEq (SQLite.column_value row (fst kv)) (snd kv).

(** The inner loop of the [and] case of [applyFilter], by itself. *)
Fixpoint compile_all (conditions : list Value) (query : Query.t) : Result Query.t :=
  match conditions with
  | [] => Ok query
  | condition :: rest =>
      match applyFilterV condition query with
      | Ok query' => compile_all rest query'
      | Err e => Err e
      | Panic => Panic
      end
  end.

(** ** Fixtures: the requests and states the examples below run on *)

Module Fixtures.
Import gorm.

(** A freshly migrated process: no user table, an empty cache. *)
Definition w0 : World := mkWorld SQLite.empty None ∅ 0.

(** A generator for the examples: the [k]-th identifier is [n] copies of
    the [k]-th lower-case letter. *)
Definition letters (n k : nat) : string :=
  String.concat "" (replicate n (String (ascii_of_nat (97 + k)) EmptyString)).

(** An auth table with one extra field, for the service and for the
    handler. *)
Definition members : CreateTable.t :=
  CreateTable.mk "members" [Field.mk "text" "nickname" false "" false] [] "users".

Definition members_req : createTableReq.t :=
  createTableReq.mk "members" "string"
    [fields.mk "text" "nickname" false "" false false] "users".

(** Two plain tables that both index a field called [title]. *)
Definition title : fields.t := fields.mk "text" "title" false "" true false.
Definition posts : createTableReq.t := createTableReq.mk "posts" "string" [title] "".
Definition pages : createTableReq.t := createTableReq.mk "pages" "string" [title] "".

Definition w_posts : World := snd (DatabaseAPI.CreateTable posts w0).

(** A plain table [members], described once, dropped, and created again as
    an auth table. *)
Definition members_plain : CreateTable.t := CreateTable.mk "members" [] [] "".

Definition w_plain : World :=
  snd (Transaction (fun tx => TableService.Create tx members_plain) w0).
Definition w_described : World := snd (TableService.Info "members" [] w_plain).
Definition w_dropped : World :=
  snd (Transaction (fun tx => TableService.Drop tx "members") w_described).
Definition w_recreated : World :=
  snd (Transaction (fun tx => TableService.Create tx members) w_dropped).

(** Two tables for a pipeline: [A], and [B] with a reference [fk] to [A]
    and a unique [tag]. *)
Definition table_A : createTableReq.t :=
  createTableReq.mk "A" "manual" [fields.mk "text" "title" false "" false false] "".
Definition table_B : createTableReq.t :=
  createTableReq.mk "B" "manual"
    [ fields.mk "relation" "fk" true "A" false false;
      fields.mk "text" "tag" true "" false true ] "".

Definition w_AB : World :=
  snd (DatabaseAPI.CreateTable table_B (snd (DatabaseAPI.CreateTable table_A w0))).

Definition step_A : Function.t :=
  Function.mk "A" "insert" "A" false [("title", VStr "title")] [] [].
Definition step_B : Function.t :=
  Function.mk "B" "insert" "B" false [("fk", VStr "$A"); ("tag", VStr "tag")] [] [].
Definition payload : Caller.t :=
  Caller.mk [ ("A", VMap [("title", VStr "hello")]);
              ("B", VMap [("tag", VStr "x")]) ].

(** The state after the pipeline ran once. *)
Definition w_once : World := snd (RunFunction letters [step_A; step_B] payload "u1" w_AB).

(** A step whose template refers to an output no step produced. *)
Definition step_orphan : Function.t :=
  Function.mk "B" "insert" "B" false [("fk", VStr "$missing")] [] [].

(** A step whose template and input both carry an [id]. *)
Definition step_with_id : Function.t :=
  Function.mk "A" "insert" "A" false [("id", VStr "id"); ("title", VStr "title")] [] [].
Definition payload_with_id : Caller.t :=
  Caller.mk [("A", VMap [("id", VStr "chosen-by-caller"); ("title", VStr "hello")])].

(** A multiple update with a well-formed list of records. *)
Definition step_update_many : Function.t :=
  Function.mk "A" "update" "A" true [("title", VStr "title")] [] [].
Definition payload_update_many : Caller.t :=
  Caller.mk [("A", VList [VMap [("id", VStr "aaaaaaaaaaaaaaaa"); ("title", VStr "bye")]])].

(** A step whose template holds a number. *)
Definition step_number : Function.t :=
  Function.mk "A" "insert" "A" false [("title", VNum 7)] [] [].

(** The condition trees of the specification, and their variant with a
    plain column name. *)
Definition tree_and_gt : list (string * Value) :=
  [("and", VList [VMap [("status", VStr "open")]; VMap [("priority>", VNum 1)]])].
Definition tree_and : list (string * Value) :=
  [("and", VList [VMap [("status", VStr "open")]; VMap [("priority", VNum 1)]])].
Definition row_open_5 : Row :=
  list_to_map [("status", VStr "open"); ("priority", VNum 5)].
(** The names in a column list. *)
Definition names (rows : list Row) : list Value :=
  map (fun r => map_get r "name") rows.

End Fixtures.

(** ** More of the sources: the handler's statement lists, the column list
    of [FetchRows], the form loops of [InsertData] and [UpdateData] *)

(** The spellings [ConvertTypeToSQLiteType] recognises, in lower case. *)
Definition supported_type_names : list string :=
  [ "text"; "string"; "number"; "real"; "boolean"; "datetime"; "timestamp";
    "file"; "blob"; "relation" ].

(** The field of model.go with the type, name and flags of a field of the
    handler of database.go. *)
Definition to_Field (f : fields.t) : Field.t :=
  Field.mk (fields.FieldType f) (fields.FieldName f) (fields.Nullable f)
    (fields.RelatedTable f) (fields.Unique f).

Module ApiSpec.

(** The parts of the handler's statements, written out one by one. *)
Definition is_relation (f : fields.t) : bool :=
  String.eqb (fields.convertTypeToSQLiteType f) "RELATION".

Definition unique_clause (f : fields.t) : string :=
  "UNIQUE (" +:+ fields.FieldName f +:+ ")".

Definition foreign_key_clause (f : fields.t) : string :=
  "FOREIGN KEY(" +:+ fields.FieldName f +:+ ") REFERENCES "
    +:+ fields.RelatedTable f +:+ "(id) ON UPDATE CASCADE".

Definition index_statement (tableName : string) (f : fields.t) : string :=
  "CREATE INDEX idx_" +:+ fields.FieldName f +:+ " ON "
    +:+ tableName +:+ " (" +:+ fields.FieldName f +:+ ")".

End ApiSpec.

Module Column.
(** The struct [Column] of the model package: a row of [PRAGMA table_info].
    [Typ] is the Go field [Type]. *)
Record t := mk {
  CID : Z;
  Default : string;
  Name : string;
  NotNull : Z;
  PK : Z;
  Typ : string;
  Reference : string
}.
End Column.

(** One iteration of [for _, column := range allColumn] in [FetchRows]. *)
Definition columns_step (columns : string) (column : Column.t) : string :=
  if negb (String.eqb (Column.Name column) "password")
     && negb (String.eqb (Column.Name column) "salt")
  then
    if negb (String.eqb columns "")
    then columns +:+ ", " +:+ Column.Name column
    else Column.Name column
  else columns.

(** The select list of [FetchRows]: [*], or for an auth table the columns of
    [PRAGMA table_info] without the two secret ones. *)
Definition FetchRows_columns (isAuth : bool) (allColumn : list Column.t) : string :=
  if isAuth then fold_left columns_step allColumn "" else "*".

Definition secret_column (name : string) : bool :=
  String.eqb name "password" || String.eqb name "salt".

(** What the loop over [form.Value] leaves: the map it filled, or the
    answer 400 it returned from inside the loop. *)
Inductive FormResult :=
| Filtered (data : Row)
| BadRequest (error : string).

(** One iteration of [for k, v := range form.Value] in [InsertData].
    [user_id] is [c.Get("user_id")], nil for an anonymous caller. The value
    assigned for [$user.id] is overwritten by the assignment that follows
    the [if]. *)
Definition InsertData_step (user_id : Value) (acc : FormResult)
    (kv : string * list string) : FormResult :=
  match acc with
  | BadRequest e => BadRequest e
  | Filtered filteredData =>
      match snd kv with
      | [] => acc                                   (* len(v) == 0 *)
      | v0 :: _ =>
          if String.eqb (fst kv) "id" || String.eqb (fst kv) "created_at"
             || String.eqb (fst kv) "updated_at"
          then acc
          else if String.eqb v0 "" then acc
          else if String.eqb v0 "$user.id" then
            if SQLite.is_nil user_id then BadRequest "User not authorized"
            else Filtered (<[fst kv := VStr v0]> (<[fst kv := user_id]> filteredData))
          else Filtered (<[fst kv := VStr v0]> filteredData)
      end
  end.

Definition InsertData_values (form : list (string * list string)) (user_id : Value)
  : FormResult :=
  fold_left (InsertData_step user_id) form (Filtered ∅).

(** One iteration of the same loop in [UpdateData]. *)
Definition UpdateData_step (updatedData : Row) (kv : string * list string) : Row :=
  match snd kv with
  | [] => updatedData
  | v0 :: _ =>
      if String.eqb (fst kv) "created_at" || String.eqb (fst kv) "updated_at"
      then updatedData
      else if String.eqb v0 "" then updatedData
      else <[fst kv := VStr v0]> updatedData
  end.

Definition UpdateData_values (form : list (string * list string)) : Row :=
  fold_left UpdateData_step form ∅.

(** The keys [InsertData] never takes from the form. *)
Definition reserved_key (k : string) : bool :=
  String.eqb k "id" || String.eqb k "created_at" || String.eqb k "updated_at".

Definition timestamp_key (k : string) : bool :=
  String.eqb k "created_at" || String.eqb k "updated_at".

(** The rows [Migrate] creates for the system tables, as gorm stores
    them: [Indexes] keeps its zero value, the empty string. *)
Definition Migrate_databases : list Tables.t :=
  map Tables.stored
    [ Tables.mk "_admin" true true EmptyText [] "" "" "" "" "";
      Tables.mk "_queryHistory" false true EmptyText [] "" "" "" "" "";
      Tables.mk "_function" false true EmptyText [] "" "" "" "" "" ].

(** A process whose catalog holds the rows of the system tables only. *)
Definition w_system : gorm.World :=
  gorm.mkWorld
    (SQLite.mkDB ∅ ∅ ∅
       (list_to_map (map (fun x => (Tables.Name x, x)) Migrate_databases)))
    None ∅ 0.


(** Steps that read, update and delete in the table [A] of the pipeline
    fixture, and the payloads they run on. *)
Definition fetch_A : Function.t :=
  Function.mk "list" "fetch" "A" false [] [] ["id"; "title"].
Definition delete_A : Function.t :=
  Function.mk "A" "delete" "A" false [] [Filter.mk "id" "" ""] [].
Definition payload_delete_A : Caller.t :=
  Caller.mk [("A", VMap [("id", VStr "aaaaaaaaaaaaaaaa")])].

(** A computation that returns, with a value or an error, in every
    state. *)
Definition never_panics {A} (m : gorm.M A) : Prop :=
  forall w, fst (m w) <> Panic.

(** The names a map of the engine holds. *)
Definition names_of {A} (m : gmap string A) : list string :=
  map fst (map_to_list m).

(** The tables of the model package and the names the engine reserves:
    the engine model keeps the tables of the users only. *)
Definition system_name (name : string) : bool :=
  existsb (String.eqb (SQLite.lower name))
    ["_admin"; "_table"; "_queryhistory"; "_function"]
  || String.prefix "sqlite_" (SQLite.lower name).

(* ================================================================== *)
(** * Properties *)
(* ================================================================== *)

Example ToLower_mixed : GoStrings.ToLower "DateTime" = "datetime".
Proof. reflexivity. Qed.

(** The letter U+0130 (bytes C4 B0) is lowered to "i", so a type spelled
    with it is still recognised: "F", U+0130, "LE" is "file". *)
Example ToLower_dotted_I :
  ConvertTypeToSQLiteType
    (Field.mk (String "F" (String (ascii_of_nat 196) (String (ascii_of_nat 176) "LE")))
       "doc" true "" false)
  = "BLOB".
Proof. reflexivity. Qed.

Example ConvertType_unknown :
  ConvertTypeToSQLiteType (Field.mk "json" "doc" true "" false) = "".
Proof. reflexivity. Qed.

(** ** The DDL generator *)

Section DDLFacts.
Import DDL.

Lemma append_empty_r (s : string) : s +:+ "" = s.
  Proof.
    induction s as [|c s IH]; [reflexivity|].
    change (String c (s +:+ "") = String c s). now rewrite IH.
  Qed.

  (** The loop appends to each of the three slices and never reorders. *)
Lemma loop_fields (fs : list Field.t) (a : acc) :
    fields (fold_left loop_body fs a)
    = fields a ++ map spec_column (List.filter supported fs).
  Proof.
    revert a. induction fs as [|f fs IH]; intros a; simpl.
    - now rewrite app_nil_r.
    - rewrite IH. unfold loop_body, supported, spec_column, is_relation.
      destruct (String.eqb (ConvertTypeToSQLiteType f) "") eqn:E; simpl; [reflexivity|].
      rewrite <- app_assoc. simpl. f_equal. f_equal.
      destruct (String.eqb (ConvertTypeToSQLiteType f) "RELATION"),
        (Field.Nullable f); cbn [negb]; rewrite ?append_empty_r; reflexivity.
  Qed.

Lemma loop_uniques (fs : list Field.t) (a : acc) :
    uniques (fold_left loop_body fs a)
    = uniques a ++ map spec_unique (List.filter Field.Unique (List.filter supported fs)).
  Proof.
    revert a. induction fs as [|f fs IH]; intros a; simpl.
    - now rewrite app_nil_r.
    - rewrite IH. unfold loop_body, supported.
      destruct (String.eqb (ConvertTypeToSQLiteType f) "") eqn:E; simpl; [reflexivity|].
      destruct (Field.Unique f); simpl; [|reflexivity].
      now rewrite <- app_assoc.
  Qed.

Lemma loop_foreignKeys (fs : list Field.t) (a : acc) :
    foreignKeys (fold_left loop_body fs a)
    = foreignKeys a
      ++ map spec_foreign_key (List.filter is_relation (List.filter supported fs)).
  Proof.
    revert a. induction fs as [|f fs IH]; intros a; simpl.
    - now rewrite app_nil_r.
    - rewrite IH. unfold loop_body, supported, is_relation.
      destruct (String.eqb (ConvertTypeToSQLiteType f) "") eqn:E; simpl; [reflexivity|].
      destruct (String.eqb (ConvertTypeToSQLiteType f) "RELATION"); simpl; [|reflexivity].
      now rewrite <- app_assoc.
  Qed.

Lemma columns_shape (params : CreateTable.t) :
    columns params
    = [idField] ++ (if isAuth params then authFields else [])
        ++ map spec_column (List.filter supported (CreateTable.Fields params))
        ++ timestampFields.
  Proof.
    unfold columns, after_loop. rewrite loop_fields. unfold isAuth. simpl.
    destruct (String.eqb (CreateTable.Typ params) "users"); simpl; reflexivity.
  Qed.

End DDLFacts.

(** C9. The parts of the generated CREATE TABLE statement come in a fixed
    order: the synthetic id column, the reserved auth columns when the table
    is an auth table, one column per field of a supported type in input
    order, the two timestamp columns, all UNIQUE constraints, all FOREIGN KEY
    clauses; fields of an unrecognized type contribute nothing. The statement
    text is the comma-joined list of these parts. *)
Theorem C9_create_parts_order (params : CreateTable.t) :
  DDL.parts params = DDL.spec_parts params
  /\ DDL.query params
     = DDL.nl +:+ DDL.tab +:+ DDL.tab +:+ "CREATE TABLE "
         +:+ CreateTable.Name params +:+ " ("
         +:+ DDL.nl +:+ DDL.tab +:+ DDL.tab +:+ DDL.tab
         +:+ GoStrings.Join (DDL.spec_parts params) ","
         +:+ DDL.nl +:+ DDL.tab +:+ DDL.tab +:+ ")" +:+ DDL.nl +:+ DDL.tab.
Proof.
  assert (H : DDL.parts params = DDL.spec_parts params).
  { unfold DDL.parts, DDL.spec_parts. rewrite columns_shape.
    unfold DDL.after_loop. rewrite loop_uniques, loop_foreignKeys. simpl.
    rewrite <- !app_assoc. reflexivity. }
  split; [exact H|]. unfold DDL.query. now rewrite H.
Qed.

(** ** The engine and the handles *)

Section EngineFacts.
Import gorm.

  (** Statements sent as text act on the schema only, never on the catalog
      rows. *)
Lemma exec_catalog (sql : string) (d d' : SQLite.Database) :
    SQLite.exec sql d = Ok d' -> SQLite.catalog d' = SQLite.catalog d.
  Proof.
    unfold SQLite.exec, SQLite.create_table, SQLite.drop_table,
      SQLite.create_index, SQLite.drop_index_if_exists, SQLite.rename_table,
      SQLite.create_trigger.
    intros H. repeat case_match; simplify_eq; reflexivity.
  Qed.

Lemma keeps_cache_ret {A} (a : A) : keeps_cache (ret a).
  Proof. intros w; reflexivity. Qed.

Lemma keeps_cache_lift {A} (r : Result A) : keeps_cache (lift r).
  Proof. intros w; reflexivity. Qed.

Lemma keeps_cache_bind {A B} (m : M A) (k : A -> M B) :
    keeps_cache m -> (forall a, keeps_cache (k a)) -> keeps_cache (bind m k).
  Proof.
    intros Hm Hk w. unfold bind. specialize (Hm w).
    destruct (m w) as [[a|e|] w1]; simpl in *; [|assumption..].
    now rewrite Hk.
  Qed.

Lemma keeps_cache_write (h : DB) f : keeps_cache (write h f).
  Proof.
    intros w. unfold write.
    destruct h; [destruct (pending w)|]; simpl; try reflexivity;
      match goal with |- context [f ?d] => destruct (f d) end; reflexivity.
  Qed.

Lemma keeps_cache_read {A} (h : DB) (f : SQLite.Database -> Result A) :
    keeps_cache (read h f).
  Proof. intros w; reflexivity. Qed.

Lemma keeps_committed_ret {A} (a : A) : keeps_committed (ret a).
  Proof. intros w; reflexivity. Qed.


Lemma keeps_committed_bind {A B} (m : M A) (k : A -> M B) :
    keeps_committed m -> (forall a, keeps_committed (k a)) ->
    keeps_committed (bind m k).
  Proof.
    intros Hm Hk w. unfold bind. specialize (Hm w).
    destruct (m w) as [[a|e|] w1]; simpl in *; [|assumption..].
    now rewrite Hk.
  Qed.

  (** Writing through the transaction handle changes the uncommitted view
      only. *)
Lemma keeps_committed_write_tx f : keeps_committed (write InTx f).
  Proof.
    intros w. unfold write.
    destruct (f (view InTx w)); reflexivity.
  Qed.

Lemma keeps_committed_read {A} (h : DB) (f : SQLite.Database -> Result A) :
    keeps_committed (read h f).
  Proof. intros w; reflexivity. Qed.

  (** [Transaction] is all or nothing for a callback that keeps to its
      handle: unless it returns nil the committed database is the one
      before the call. *)
Lemma Transaction_all_or_nothing {A} (fc : DB -> M A) (w : World) :
    keeps_committed (fc InTx) ->
    match fst (Transaction fc w) with
    | Ok _ => True
    | _ => committed (snd (Transaction fc w)) = committed w
    end.
  Proof.
    intros H. unfold Transaction. specialize (H w).
    destruct (fc InTx w) as [[a|e|] w1]; simpl in *; auto.
  Qed.

End EngineFacts.

Section ApiDDLFacts.
Import ApiDDL.

Lemma api_loop_fields (name : string) (fs : list fields.t) (a : acc) :
  fields_ (fold_left (loop_body name) fs a)
  = fields_ a ++ map spec_column (List.filter supported fs).
Proof.
  revert a. induction fs as [|f fs IH]; intros a; simpl.
  - now rewrite app_nil_r.
  - rewrite IH. unfold loop_body, supported, spec_column.
    destruct (String.eqb (fields.convertTypeToSQLiteType f) "") eqn:E; simpl; [reflexivity|].
    rewrite <- app_assoc. simpl. f_equal. f_equal.
    destruct (String.eqb (fields.convertTypeToSQLiteType f) "RELATION"),
      (fields.Nullable f); cbn [negb]; rewrite ?append_empty_r; reflexivity.
Qed.

Lemma api_columns_shape (id : string) (params : createTableReq.t) :
  columns id params
  = [id] ++ (if isAuth params then DDL.authFields else [])
      ++ map spec_column (List.filter supported (createTableReq.Fields params))
      ++ DDL.timestampFields.
Proof.
  unfold columns, after_loop. rewrite api_loop_fields. unfold isAuth. simpl.
  destruct (String.eqb (createTableReq.Typ params) "users"); simpl; reflexivity.
Qed.

End ApiDDLFacts.

(** C8, as stated, fails: an auth table created with one text field has a
    seventh column, in the table service and in the handler alike. *)
Lemma C8_counterexample :
  DDL.isAuth Fixtures.members = true
  /\ DDL.columns Fixtures.members
     = [ "id INTEGER PRIMARY KEY"; "email TEXT NOT NULL"; "password TEXT NOT NULL";
         "salt TEXT NOT NULL"; "nickname TEXT NOT NULL";
         "created_at TIMESTAMP DEFAULT CURRENT_TIMESTAMP";
         "updated_at TIMESTAMP DEFAULT CURRENT_TIMESTAMP" ]
  /\ DDL.columns Fixtures.members
     <> [DDL.idField] ++ DDL.authFields ++ DDL.timestampFields
  /\ SQLite.column_names
       <$> SQLite.tables
             (gorm.committed
                (snd (gorm.Transaction
                        (fun tx => TableService.Create tx Fixtures.members)
                        Fixtures.w0))) !! "members"
     = Some ["id"; "email"; "password"; "salt"; "nickname"; "created_at"; "updated_at"]
  /\ ApiDDL.isAuth Fixtures.members_req = true
  /\ ApiDDL.columns "id TEXT PRIMARY KEY DEFAULT (hex(randomblob(8)))" Fixtures.members_req
     <> ["id TEXT PRIMARY KEY DEFAULT (hex(randomblob(8)))"]
          ++ DDL.authFields ++ DDL.timestampFields
  /\ SQLite.column_names
       <$> SQLite.tables
             (gorm.committed
                (snd (DatabaseAPI.CreateTable Fixtures.members_req Fixtures.w0)))
             !! "members"
     = Some ["id"; "email"; "password"; "salt"; "nickname"; "created_at"; "updated_at"].
Proof.
  split; [reflexivity|].
  split; [vm_compute; reflexivity|].
  split; [vm_compute; discriminate|].
  split; [vm_compute; reflexivity|].
  split; [reflexivity|].
  split; [vm_compute; discriminate|].
  vm_compute; reflexivity.
Qed.

(** C8, amended. The column definitions of a table created as a users table
    are, in this order: the id column, email, password and salt, one column
    for each supplied field of a supported type, created_at and updated_at;
    they are six only when no field of a supported type is supplied. This
    holds in the table service and in the handler of database.go, whose id
    column is one of two text primary keys. *)
Theorem C8_auth_table_columns
    (params : CreateTable.t) (req : createTableReq.t) (id : string) :
  CreateTable.Typ params = "users" ->
  createTableReq.Typ req = "users" ->
  ApiDDL.idField req = Some id ->
  DDL.columns params
  = ["id INTEGER PRIMARY KEY"] ++ DDL.authFields
      ++ map DDL.spec_column (List.filter DDL.supported (CreateTable.Fields params))
      ++ DDL.timestampFields
  /\ ApiDDL.columns id req
     = [id] ++ DDL.authFields
         ++ map ApiDDL.spec_column
              (List.filter ApiDDL.supported (createTableReq.Fields req))
         ++ DDL.timestampFields
  /\ (id = "id TEXT PRIMARY KEY DEFAULT (hex(randomblob(8)))"
      \/ id = "id TEXT PRIMARY KEY")
  /\ length (DDL.columns params)
     = 6 + length (List.filter DDL.supported (CreateTable.Fields params))
  /\ length (ApiDDL.columns id req)
     = 6 + length (List.filter ApiDDL.supported (createTableReq.Fields req)).
Proof.
  intros Hp Hr Hid.
  assert (H1 : DDL.columns params
               = ["id INTEGER PRIMARY KEY"] ++ DDL.authFields
                   ++ map DDL.spec_column
                        (List.filter DDL.supported (CreateTable.Fields params))
                   ++ DDL.timestampFields).
  { rewrite columns_shape. unfold DDL.isAuth. rewrite Hp. reflexivity. }
  assert (H2 : ApiDDL.columns id req
               = [id] ++ DDL.authFields
                   ++ map ApiDDL.spec_column
                        (List.filter ApiDDL.supported (createTableReq.Fields req))
                   ++ DDL.timestampFields).
  { rewrite api_columns_shape. unfold ApiDDL.isAuth. rewrite Hr. reflexivity. }
  split; [exact H1|]. split; [exact H2|]. split; [|split].
  2: { rewrite H1. simpl. rewrite length_app, length_map. simpl. lia. }
  2: { rewrite H2. simpl. rewrite length_app, length_map. simpl. lia. }
  - unfold ApiDDL.idField in Hid.
    destruct (String.eqb (createTableReq.IDType req) "string");
      [left; now inversion Hid|].
    destruct (String.eqb (createTableReq.IDType req) "manual");
      [right; now inversion Hid | discriminate].
Qed.

Lemma C8_auth_table_columns_witness :
  CreateTable.Typ Fixtures.members = "users"
  /\ createTableReq.Typ Fixtures.members_req = "users"
  /\ ApiDDL.idField Fixtures.members_req
     = Some "id TEXT PRIMARY KEY DEFAULT (hex(randomblob(8)))"
  /\ DDL.columns Fixtures.members
     = ["id INTEGER PRIMARY KEY"] ++ DDL.authFields
         ++ map DDL.spec_column
              (List.filter DDL.supported (CreateTable.Fields Fixtures.members))
         ++ DDL.timestampFields.
Proof.
  split; [reflexivity|]. split; [reflexivity|]. split; [reflexivity|].
  apply (C8_auth_table_columns Fixtures.members Fixtures.members_req
           "id TEXT PRIMARY KEY DEFAULT (hex(randomblob(8)))");
    reflexivity.
Defined.

(** ** Atomicity of the schema operations *)

Section Atomicity.
Import gorm.

(** C1. The handlers of database.go run every statement on the pool handle
    inside the transaction callback. Creating [pages] after [posts] fails at
    the index statement ([idx_title] exists already), the handler answers
    500, and the table [pages] stays in the schema with no catalog row. *)
Theorem C1_create_table_leaves_partial_effect :
  fst (DatabaseAPI.CreateTable Fixtures.posts Fixtures.w0) = DatabaseAPI.JSON_OK
  /\ fst (DatabaseAPI.CreateTable Fixtures.pages Fixtures.w_posts)
     = DatabaseAPI.JSON_Error 500 (ErrSQL "index idx_title already exists")
  /\ SQLite.tables
       (committed (snd (DatabaseAPI.CreateTable Fixtures.pages Fixtures.w_posts)))
       !! "pages" <> None
  /\ SQLite.catalog
       (committed (snd (DatabaseAPI.CreateTable Fixtures.pages Fixtures.w_posts)))
       !! "pages" = None
  /\ SQLite.tables (committed Fixtures.w_posts) !! "pages" = None.
Proof.
  repeat split; try (vm_compute; reflexivity). vm_compute. discriminate.
Qed.

Lemma add_indexes_keeps_committed (name : string) (l : list Index.t) :
  keeps_committed (TableService.add_indexes InTx name l).
Proof.
  induction l as [|i l IH]; simpl.
  - apply keeps_committed_ret.
  - apply keeps_committed_bind; [apply keeps_committed_write_tx | intros _; exact IH].
Qed.

(** The table service is handed the transaction handle and keeps to it. *)
Lemma Create_keeps_committed (params : CreateTable.t) :
  keeps_committed (TableService.Create InTx params).
Proof.
  unfold TableService.Create, Exec, Create_Tables.
  apply keeps_committed_bind; [apply keeps_committed_write_tx | intros _].
  apply keeps_committed_bind; [apply add_indexes_keeps_committed | intros _].
  apply keeps_committed_bind; [apply keeps_committed_read | intros n].
  apply keeps_committed_bind; [|intros _; apply keeps_committed_write_tx].
  destruct (n =? 0)%Z; [apply keeps_committed_write_tx | apply keeps_committed_ret].
Qed.

Lemma Drop_keeps_committed (name : string) :
  keeps_committed (TableService.Drop InTx name).
Proof.
  unfold TableService.Drop, Exec.
  apply keeps_committed_bind; [apply keeps_committed_write_tx | intros _].
  apply keeps_committed_write_tx.
Qed.

(** The sibling path: [Create] and [Drop] of the table service, run in a
    transaction, leave the committed database untouched unless they
    succeed. *)
Lemma service_Create_all_or_nothing (params : CreateTable.t) (w : World) :
  match fst (Transaction (fun tx => TableService.Create tx params) w) with
  | Ok _ => True
  | _ => committed (snd (Transaction (fun tx => TableService.Create tx params) w))
         = committed w
  end.
Proof. apply Transaction_all_or_nothing, Create_keeps_committed. Qed.

Lemma service_Drop_all_or_nothing (name : string) (w : World) :
  match fst (Transaction (fun tx => TableService.Drop tx name) w) with
  | Ok _ => True
  | _ => committed (snd (Transaction (fun tx => TableService.Drop tx name) w))
         = committed w
  end.
Proof. apply Transaction_all_or_nothing, Drop_keeps_committed. Qed.

End Atomicity.

(** ** The descriptor and column caches of the table service *)

Section CacheFacts.
Import gorm TableService.

Lemma add_indexes_keeps_cache (h : DB) (name : string) (l : list Index.t) :
  keeps_cache (add_indexes h name l).
Proof.
  induction l as [|i l IH]; simpl.
  - apply keeps_cache_ret.
  - apply keeps_cache_bind; [apply keeps_cache_write | intros _; exact IH].
Qed.

Lemma Create_keeps_cache (h : DB) (params : CreateTable.t) :
  keeps_cache (Create h params).
Proof.
  unfold Create, Exec, Create_Tables.
  apply keeps_cache_bind; [apply keeps_cache_write | intros _].
  apply keeps_cache_bind; [apply add_indexes_keeps_cache | intros _].
  apply keeps_cache_bind; [apply keeps_cache_read | intros n].
  apply keeps_cache_bind; [|intros _; apply keeps_cache_write].
  destruct (n =? 0)%Z; [apply keeps_cache_write | apply keeps_cache_ret].
Qed.

Lemma Rename_keeps_cache (h : DB) (a b : string) : keeps_cache (Rename h a b).
Proof.
  unfold Rename, Exec.
  apply keeps_cache_bind; [apply keeps_cache_write | intros _; apply keeps_cache_write].
Qed.

Lemma Drop_keeps_cache (h : DB) (name : string) : keeps_cache (Drop h name).
Proof.
  unfold Drop, Exec.
  apply keeps_cache_bind; [apply keeps_cache_write | intros _; apply keeps_cache_write].
Qed.

Lemma DropIndexes_keeps_cache (h : DB) (l : list string) :
  keeps_cache (DropIndexes h l).
Proof.
  induction l as [|i l IH]; simpl.
  - apply keeps_cache_ret.
  - apply keeps_cache_bind; [apply keeps_cache_write | intros _; exact IH].
Qed.

(** What a successful [Drop] in a transaction leaves: the same cache, and a
    catalog without the row of the table. *)
Lemma Drop_committed (name : string) (w w1 : World) :
  Transaction (fun tx => Drop tx name) w = (Ok tt, w1) ->
  cache w1 = cache w
  /\ pending w1 = None
  /\ SQLite.catalog (committed w1) !! name = None.
Proof.
  unfold Transaction, Drop, Exec, bind, write. simpl.
  destruct (SQLite.exec _ _) as [d2| |] eqn:E; simpl; intros H; try discriminate.
  inversion H; subst; clear H. simpl. repeat split.
  apply exec_catalog in E. rewrite E. simpl. apply lookup_delete_eq.
Qed.

(** [Info] on a cache hit and on a miss for a table the catalog does not
    have. *)
Lemma Info_hit (name : string) (infoNeeded : list string) (w : World) (t : Tables.t) :
  cache w !! info_cache_key name
               (match infoNeeded with [] => default_info | _ :: _ => infoNeeded end)
    = Some (CTables t) ->
  Info name infoNeeded w = (Ok t, w).
Proof. intros H. unfold Info, bind, cache_Get. rewrite H. reflexivity. Qed.

Lemma Info_miss_absent (name : string) (infoNeeded : list string) (w : World) :
  cache w !! info_cache_key name
               (match infoNeeded with [] => default_info | _ :: _ => infoNeeded end)
    = None ->
  SQLite.catalog (committed w) !! name = None ->
  exists e, Info name infoNeeded w = (Err e, w).
Proof.
  intros H Hc. unfold Info, bind, cache_Get, read, First. rewrite H. simpl.
  rewrite Hc. destruct (negb _); eauto.
Qed.

End CacheFacts.

(** C2, as stated, fails: the plain table [members] is created and described
    (which caches its descriptor), then dropped; the drop succeeds, the
    catalog and the schema no longer have the table, and [Info] still
    answers with the descriptor instead of an error. *)
Lemma C2_counterexample :
  fst (gorm.Transaction (fun tx => TableService.Drop tx "members")
         Fixtures.w_described) = Ok tt
  /\ SQLite.catalog (gorm.committed Fixtures.w_dropped) !! "members" = None
  /\ SQLite.tables (gorm.committed Fixtures.w_dropped) !! "members" = None
  /\ fst (TableService.Info "members" [] Fixtures.w_dropped)
     = Ok (Tables.mk "members" false false (JSONText []) []
             "ADMIN_ONLY" "ADMIN_ONLY" "ADMIN_ONLY" "ADMIN_ONLY" "ADMIN_ONLY").
Proof. repeat split; vm_compute; reflexivity. Qed.

(** C2, amended. No operation of the table service removes a cache entry:
    [Create], [Rename], [Drop] and [DropIndexes] leave the cache as it was.
    After a [Drop] that succeeded, [Info] answers with the descriptor cached
    under the key of the requested fields and name when there is one, and
    fails only when there is none. *)
Theorem C2_drop_then_info
    (name : string) (infoNeeded : list string) (w w1 : gorm.World) :
  gorm.Transaction (fun tx => TableService.Drop tx name) w = (Ok tt, w1) ->
  gorm.cache w1 = gorm.cache w
  /\ match gorm.cache w !! TableService.info_cache_key name
             (match infoNeeded with
              | [] => TableService.default_info
              | _ :: _ => infoNeeded
              end) with
     | Some (CTables t) => TableService.Info name infoNeeded w1 = (Ok t, w1)
     | Some (CColumns _) => TableService.Info name infoNeeded w1 = (Panic, w1)
     | None => exists e, TableService.Info name infoNeeded w1 = (Err e, w1)
     end
  /\ (forall h params, gorm.keeps_cache (TableService.Create h params))
  /\ (forall h a b, gorm.keeps_cache (TableService.Rename h a b))
  /\ (forall h n, gorm.keeps_cache (TableService.Drop h n))
  /\ (forall h l, gorm.keeps_cache (TableService.DropIndexes h l)).
Proof.
  intros H. apply Drop_committed in H as (Hc & _ & Hcat).
  split; [exact Hc|]. split.
  - rewrite <- Hc.
    destruct (gorm.cache w1 !! _) as [[t|rows]|] eqn:E.
    + now apply Info_hit.
    + unfold TableService.Info, gorm.bind, gorm.cache_Get. rewrite E. reflexivity.
    + now apply Info_miss_absent.
  - repeat split; intros.
    + apply Create_keeps_cache.
    + apply Rename_keeps_cache.
    + apply Drop_keeps_cache.
    + apply DropIndexes_keeps_cache.
Qed.

Lemma C2_drop_then_info_witness :
  gorm.Transaction (fun tx => TableService.Drop tx "members") Fixtures.w_described
  = (Ok tt, Fixtures.w_dropped)
  /\ gorm.cache Fixtures.w_dropped = gorm.cache Fixtures.w_described.
Proof.
  assert (H : gorm.Transaction (fun tx => TableService.Drop tx "members")
                Fixtures.w_described = (Ok tt, Fixtures.w_dropped))
    by (vm_compute; reflexivity).
  split; [exact H|].
  exact (proj1 (C2_drop_then_info "members" [] _ _ H)).
Defined.

(** C3. The stale descriptor defeats the redaction: once the plain table
    [members] was described, dropped and created again as an auth table,
    [Columns] finds the cached descriptor of the plain table, filters
    nothing, and lists [password] and [salt] whatever the caller asked
    for. *)
Theorem C3_columns_after_recreate_lists_password_and_salt :
  SQLite.catalog (gorm.committed Fixtures.w_recreated) !! "members"
  = Some (Tables.mk "members" true false (JSONText []) []
            "ADMIN_ONLY" "ADMIN_ONLY" "ADMIN_ONLY" "ADMIN_ONLY" "ADMIN_ONLY")
  /\ (forall fetchAuthColumn : bool,
        match fst (TableService.Columns "members" fetchAuthColumn Fixtures.w_recreated) with
        | Ok rows =>
            Fixtures.names rows
            = [ VStr "id"; VStr "email"; VStr "password"; VStr "salt";
                VStr "nickname"; VStr "created_at"; VStr "updated_at" ]
        | _ => False
        end).
Proof.
  split; [vm_compute; reflexivity|].
  intros [|]; vm_compute; reflexivity.
Qed.

Section Redaction.
Import gorm TableService.

(** With no entry of the table in the cache, the redaction works: [salt] is
    never listed for an auth table, and [password] only on request. *)
Lemma Columns_redacts_on_cold_cache
    (name : string) (fetchAuthColumn : bool) (w w' : World)
    (x : Tables.t) (rows : list Row) :
  cache w !! columns_cache_key name = None ->
  cache w !! info_cache_key name default_info = None ->
  SQLite.catalog (committed w) !! name = Some x ->
  Tables.Auth x = true ->
  Columns name fetchAuthColumn w = (Ok rows, w') ->
  Forall (fun r => is_str (map_get r "name") "salt" = false
                   /\ (fetchAuthColumn = false ->
                       is_str (map_get r "name") "password" = false)) rows.
Proof.
  intros Hc Hi Hx Ha.
  unfold Columns, bind, cache_Get. rewrite Hc. simpl.
  unfold Info, bind, cache_Get. simpl. rewrite Hi. simpl.
  unfold First. simpl. rewrite Hx. simpl.
  destruct (json_Unmarshal (Tables.Indexes x)) as [idx| |]; simpl; try discriminate.
  rewrite Ha.
  destruct fetchAuthColumn; intros H; inversion H; subst; clear H;
    apply List.Forall_forall; intros r Hr; apply List.filter_In in Hr as [_ Hr].
  - split; [|discriminate]. now destruct (is_str (map_get r "name") "salt").
  - destruct (is_str (map_get r "name") "password"),
      (is_str (map_get r "name") "salt"); simpl in Hr; try discriminate; auto.
Qed.

End Redaction.

(** ** The function interpreter *)

Section InterpreterFacts.
Import gorm.
Variable GenerateRandomString : nat -> nat -> string.


Lemma bind_ok {A B} (m : M A) (k : A -> M B) (w w' : World) (b : B) :
  bind m k w = (Ok b, w') ->
  exists a w1, m w = (Ok a, w1) /\ k a w1 = (Ok b, w').
Proof.
  unfold bind. destruct (m w) as [[a|e|] w1]; intros H; try discriminate. eauto.
Qed.

Lemma lift_ok {A} (r : Result A) (w w' : World) (a : A) :
  lift r w = (Ok a, w') -> r = Ok a /\ w' = w.
Proof. unfold lift. intros H; inversion H; auto. Qed.

Lemma write_ok (h : DB) f (w w' : World) (u : unit) :
  write h f w = (Ok u, w') ->
  f (view h w) = Ok (view h w')
  /\ draws w' = draws w /\ cache w' = cache w
  /\ (h = InTx -> committed w' = committed w).
Proof.
  unfold write. destruct h.
  - destruct (pending w) eqn:P; [discriminate|].
    simpl. destruct (f (committed w)) eqn:E; intros H; inversion H; subst.
    simpl. repeat split; auto. discriminate.
  - destruct (f (view InTx w)) eqn:E; intros H; inversion H; subst.
    simpl. repeat split; auto.
Qed.








(** *** Binding *)

Lemma bind_fold_err input savedData userID template e :
  fold_left (bind_entry input savedData userID) template (Err e) = Err e.
Proof. induction template as [|kv t IH]; simpl; auto. Qed.

Lemma bind_fold_panic input savedData userID template :
  fold_left (bind_entry input savedData userID) template Panic = Panic.
Proof. induction template as [|kv t IH]; simpl; auto. Qed.

(** The value a key ends up with, when every entry of the key carries the
    same template string. *)
Lemma bind_fold_lookup input savedData userID
    (template : list (string * Value)) (acc result : Row) (k s : string) :
  fold_left (bind_entry input savedData userID) template (Ok acc) = Ok result ->
  (forall v, (k, v) ∈ template -> v = VStr s) ->
  (k, VStr s) ∈ template
    \/ acc !! k = Some (bound_value input savedData userID k s) ->
  result !! k = Some (bound_value input savedData userID k s).
Proof.
  revert acc. induction template as [|[k' v] t IH]; intros acc Hf Hu Hin; simpl in Hf.
  - destruct Hin as [Hin|Hin]; [inversion Hin | congruence].
  - destruct v as [| | |s'| |]; simpl in Hf;
      try (rewrite bind_fold_panic in Hf; discriminate).
    apply IH in Hf; [exact Hf | intros v Hv; apply Hu; now right |].
    destruct Hin as [Hin|Hin].
    + apply elem_of_cons in Hin as [Hin|Hin]; [|now left].
      inversion Hin; subst. right. apply lookup_insert_eq.
    + right. destruct (decide (k' = k)) as [->|Hne].
      * assert (VStr s' = VStr s) as Hs by (apply Hu; now left).
        inversion Hs; subst. apply lookup_insert_eq.
      * now rewrite lookup_insert_ne.
Qed.

(** Binding returns whenever all template values are strings. *)
Lemma bind_fold_total input savedData userID
    (template : list (string * Value)) (acc : Row) :
  Forall (fun kv => exists s, snd kv = VStr s) template ->
  exists result,
    fold_left (bind_entry input savedData userID) template (Ok acc) = Ok result.
Proof.
  intros H. revert acc. induction H as [|[k v] t [s Hs] _ IH]; intros acc; simpl.
  - eauto.
  - simpl in Hs. subst v. apply IH.
Qed.

Lemma bound_value_reference input savedData userID (k name : string) :
  name <> "user.id" ->
  bound_value input savedData userID k (String "$" name) = map_get savedData name.
Proof.
  intros Hn. unfold bound_value, GoStrings.HasPrefix, GoStrings.tail1.
  assert (Hp : String.prefix "$" (String "$" name) = true).
  { simpl. destruct (ascii_dec "$" "$"); [destruct name; reflexivity | congruence]. }
  assert (He : String.eqb (String "$" name) "$user.id" = false).
  { apply String.eqb_neq. intros C. inversion C. congruence. }
  now rewrite Hp, He.
Qed.


(** *** Inserting *)


(** *** The column list of an insert and what is stored under it *)










Lemma bind_input_fold_stuck template savedData userID (inputs : list Value)
    (r : Result (list Row)) :
  (forall rows, r <> Ok rows) ->
  fold_left (bind_input template savedData userID) inputs r = r.
Proof.
  intros H. induction inputs as [|i inputs IH]; [reflexivity|]. simpl.
  destruct r as [rows|e|]; [now contradiction (H rows) | exact IH | exact IH].
Qed.








Lemma keys_unique (l : list (string * Value)) (k : string) (a b : Value) :
  NoDup (map fst l) -> (k, a) ∈ l -> (k, b) ∈ l -> a = b.
Proof.
  induction l as [|[k' v] l IH]; intros Hnd Ha Hb; [inversion Ha|].
  inversion Hnd as [|? ? Hnotin Hnd']; subst.
  apply elem_of_cons in Ha as [Ha|Ha]; apply elem_of_cons in Hb as [Hb|Hb].
  - congruence.
  - inversion Ha; subst. exfalso. apply Hnotin.
    apply (list_elem_of_fmap_2 fst) in Hb. exact Hb.
  - inversion Hb; subst. exfalso. apply Hnotin.
    apply (list_elem_of_fmap_2 fst) in Ha. exact Ha.
  - now apply IH.
Qed.

End InterpreterFacts.



(** The success branch of C4 is taken on the fixture: the handler answers
    200 and the two rows are the ones the theorem describes. *)
Example C4_success_run :
  (exists s, fst (RunFunction Fixtures.letters [Fixtures.step_A; Fixtures.step_B]
                    Fixtures.payload "u1" Fixtures.w_AB) = Ok (StatusOK s))
  /\ map map_to_list (SQLite.rows_of "A" (gorm.committed Fixtures.w_once))
     = [[("id", VStr "aaaaaaaaaaaaaaaa"); ("title", VStr "hello")]]
  /\ map map_to_list (SQLite.rows_of "B" (gorm.committed Fixtures.w_once))
     = [[("id", VStr "bbbbbbbbbbbbbbbb"); ("fk", VStr "aaaaaaaaaaaaaaaa");
         ("tag", VStr "x")]].
Proof.
  split; [eexists; vm_compute; reflexivity|].
  split; vm_compute; reflexivity.
Qed.

(** The failure branch of C4 is taken: running the pipeline a second time
    with the same payload violates the unique [tag] of [B]; the handler
    answers 500 and the row the first step inserted in this run is gone. *)
Example C4_second_insert_fails :
  fst (RunFunction Fixtures.letters [Fixtures.step_A; Fixtures.step_B]
         Fixtures.payload "u1" Fixtures.w_once)
  = Ok (StatusInternalServerError (ErrSQL "constraint failed"))
  /\ gorm.committed
       (snd (RunFunction Fixtures.letters [Fixtures.step_A; Fixtures.step_B]
               Fixtures.payload "u1" Fixtures.w_once))
     = gorm.committed Fixtures.w_once
  /\ length (SQLite.rows_of "A" (gorm.committed Fixtures.w_once)) = 1.
Proof.
  split; [vm_compute; reflexivity|].
  split; vm_compute; reflexivity.
Qed.

(** C6, as stated, fails: a template that refers to an output no step has
    produced is bound without any error, the column getting nil; the
    invocation answers 200 and stores the row with a null [fk]. *)
Lemma C6_counterexample :
  BindSingularInput [("fk", VStr "$missing")] [] ∅ "u1" = Ok {[ "fk" := VNil ]}
  /\ (exists s,
        fst (RunFunction Fixtures.letters [Fixtures.step_orphan]
               (Caller.mk [("B", VMap [])]) "u1" Fixtures.w_AB) = Ok (StatusOK s))
  /\ map map_to_list
       (SQLite.rows_of "B"
          (gorm.committed
             (snd (RunFunction Fixtures.letters [Fixtures.step_orphan]
                     (Caller.mk [("B", VMap [])]) "u1" Fixtures.w_AB))))
     = [[("id", VStr "aaaaaaaaaaaaaaaa"); ("fk", VNil)]].
Proof.
  split; [vm_compute; reflexivity|].
  split; [eexists; vm_compute; reflexivity|].
  vm_compute; reflexivity.
Qed.

(** C6, amended. Binding has no error result. For a template whose values
    are all strings, a reference [$name] other than [$user.id] to an output
    that is absent from the execution environment binds its column to nil,
    and [BindSingularInput] returns normally. *)
Theorem C6_unresolved_reference_binds_nil
    (template input : list (string * Value)) (savedData : Row)
    (userID k name : string) :
  Forall (fun kv => exists s, snd kv = VStr s) template ->
  NoDup (map fst template) ->
  (k, VStr (String "$" name)) ∈ template ->
  name <> "user.id" ->
  savedData !! name = None ->
  exists result,
    BindSingularInput template input savedData userID = Ok result
    /\ result !! k = Some VNil.
Proof.
  intros Hstr Hnd Hin Hname Habsent.
  destruct (bind_fold_total input savedData userID template ∅ Hstr) as [result Hr].
  exists result. split; [exact Hr|].
  apply (bind_fold_lookup input savedData userID _ ∅ result k (String "$" name)) in Hr.
  - rewrite Hr, bound_value_reference by assumption.
    unfold map_get. now rewrite Habsent.
  - intros v Hv. eapply keys_unique; eauto.
  - now left.
Qed.

Lemma C6_unresolved_reference_binds_nil_witness :
  NoDup (map fst (Function.Values Fixtures.step_orphan))
  /\ ("fk", VStr (String "$" "missing")) ∈ Function.Values Fixtures.step_orphan
  /\ (∅ : Row) !! "missing" = None
  /\ exists result,
       BindSingularInput (Function.Values Fixtures.step_orphan) [] ∅ "u1" = Ok result
       /\ result !! "fk" = Some VNil.
Proof.
  split; [apply (bool_decide_unpack _); vm_compute; exact I|].
  split; [apply list_elem_of_here|].
  split; [reflexivity|].
  apply (C6_unresolved_reference_binds_nil
           (Function.Values Fixtures.step_orphan) [] ∅ "u1" "fk" "missing").
  - repeat constructor. simpl. eauto.
  - apply (bool_decide_unpack _). vm_compute. exact I.
  - apply list_elem_of_here.
  - discriminate.
  - reflexivity.
Defined.

(** C7. The handler panics on caller data it does not expect, whatever the
    state and the generator: a step whose named input is missing, a step
    whose named input has the wrong shape, a template value that is not a
    string, and also a multiple update given a well-formed list of
    records, whose type assertion no decoded body satisfies. *)
Theorem C7_malformed_payload_panics
    (GenerateRandomString : nat -> nat -> string) (w : gorm.World) :
  fst (RunFunction GenerateRandomString [Fixtures.step_A] (Caller.mk []) "u1" w)
  = Panic
  /\ fst (RunFunction GenerateRandomString [Fixtures.step_A]
            (Caller.mk [("A", VList [])]) "u1" w) = Panic
  /\ fst (RunFunction GenerateRandomString [Fixtures.step_number]
            Fixtures.payload "u1" w) = Panic
  /\ fst (RunFunction GenerateRandomString [Fixtures.step_update_many]
            Fixtures.payload_update_many "u1" w) = Panic.
Proof.
  split; [vm_compute; reflexivity|].
  split; [vm_compute; reflexivity|].
  split; vm_compute; reflexivity.
Qed.




(** The caller's [id] is not what is stored. *)
Example C10_caller_id_is_overwritten :
  map map_to_list
    (SQLite.rows_of "A"
       (gorm.committed
          (snd (RunFunction Fixtures.letters [Fixtures.step_with_id]
                  Fixtures.payload_with_id "u1" Fixtures.w_AB))))
  = [[("id", VStr "aaaaaaaaaaaaaaaa"); ("title", VStr "hello")]].
Proof. vm_compute; reflexivity. Qed.

(** ** The filter compiler *)

(** C5, as stated, fails. The key [priority>] is compiled to the text
    [priority> = ?]: no operator is read from the key, SQL rejects the
    text, and the row with status open and priority 5 is not selected. *)
Lemma C5_counterexample :
  applyFilter [] Fixtures.tree_and_gt
  = Ok [clause.Expr "status = ?" (VStr "open"); clause.Expr "priority> = ?" (VNum 1)]
  /\ SQLite.holds SQLite.CEq (map_get Fixtures.row_open_5 "status") (VStr "open") = true
  /\ SQLite.holds SQLite.CGt (map_get Fixtures.row_open_5 "priority") (VNum 1) = true
  /\ Query.selects
       [clause.Expr "status = ?" (VStr "open"); clause.Expr "priority> = ?" (VNum 1)]
       Fixtures.row_open_5 = None.
Proof.
  split; [vm_compute; reflexivity|].
  split; [vm_compute; reflexivity|].
  split; vm_compute; reflexivity.
Qed.

Section FilterFacts.

Lemma parse_status : SQLite.parse_cond "status = ?" = Some ("status", SQLite.CEq).
Proof. vm_compute; reflexivity. Qed.
Lemma parse_priority : SQLite.parse_cond "priority = ?" = Some ("priority", SQLite.CEq).
Proof. vm_compute; reflexivity. Qed.

Lemma selects_tree_and (row : Row) :
  Query.selects
    [clause.Expr "status = ?" (VStr "open"); clause.Expr "priority = ?" (VNum 1)] row
  = Some (SQLite.holds SQLite.CEq (map_get row "status") (VStr "open")
          && SQLite.holds SQLite.CEq (map_get row "priority") (VNum 1)).
Proof.
  unfold Query.selects.
  change (clause.arrange [clause.Expr "status = ?" (VStr "open");
                          clause.Expr "priority = ?" (VNum 1)])
    with [clause.Expr "status = ?" (VStr "open");
          clause.Expr "priority = ?" (VNum 1)].
  cbn [clause.eval clause.single_or orb]. rewrite parse_status, parse_priority.
  cbn [orb]. reflexivity.
Qed.

(** The loop of the [and] case is [compile_all]. *)
Lemma applyFilter_and (query : Query.t) (key : string) (conditions : list Value)
    (rest : list (string * Value)) :
  String.eqb (GoStrings.ToLower key) "and" = true ->
  applyFilter query ((key, VList conditions) :: rest)
  = match compile_all conditions query with
    | Ok query' => applyFilter query' rest
    | Err e => Err e
    | Panic => Panic
    end.
Proof.
  intros H. unfold applyFilter. simpl. rewrite H.
  revert query. induction conditions as [|c cs IH]; intros query; simpl.
  - reflexivity.
  - destruct (applyFilterV c query); auto.
Qed.

Lemma applyFilter_plain (query : Query.t) (key : string) (value : Value)
    (rest : list (string * Value)) :
  String.eqb (GoStrings.ToLower key) "and" = false ->
  String.eqb (GoStrings.ToLower key) "or" = false ->
  applyFilter query ((key, value) :: rest)
  = Ok (query ++ [clause.Expr (key +:+ " = ?") value]).
Proof.
  intros H1 H2. unfold applyFilter. simpl. rewrite H1, H2. reflexivity.
Qed.

(** *** Flat trees of equalities, for every column and value *)

Lemma rev_app_rev_app (a b c : string) :
  String.rev_app (String.rev_app a b) c = String.rev_app b (a +:+ c).
Proof.
  revert b c. induction a as [|x a IH]; intros b c; simpl; [reflexivity|].
  rewrite IH. reflexivity.
Qed.

Lemma ident_char_not_space (c : ascii) :
  SQLite.is_ident_char c = true -> Ascii.is_space c = false.
Proof.
  destruct c as [[] [] [] [] [] [] [] []]; vm_compute; intros H;
    first [reflexivity | discriminate].
Qed.

(** Reading a word made of identifier characters. *)
Lemma words_go_ident (k acc rest : string) :
  SQLite.all_ident_chars k = true ->
  String.words_go (Some acc) (k +:+ rest)
  = String.words_go (Some (String.rev_app k acc)) rest.
Proof.
  revert acc. induction k as [|c k IH]; intros acc H; [reflexivity|].
  simpl in H. apply andb_prop in H as [Hc Hk].
  change (String c k +:+ rest) with (String c (k +:+ rest)).
  cbn [String.words_go]. rewrite (ident_char_not_space c Hc).
  cbn [from_option]. now rewrite IH.
Qed.

Lemma words_of_equality (k : string) :
  SQLite.is_ident k = true ->
  String.words (k +:+ " = ?") = [k; "="; "?"].
Proof.
  unfold SQLite.is_ident. intros H. apply andb_prop in H as [Hne Hk].
  destruct k as [|c k]; [discriminate|].
  simpl in Hk. apply andb_prop in Hk as [Hc Hk].
  unfold String.words.
  change (String c k +:+ " = ?") with (String c (k +:+ " = ?")).
  cbn [String.words_go]. rewrite (ident_char_not_space c Hc).
  cbn [from_option]. rewrite words_go_ident by assumption.
  cbn. unfold String.rev. rewrite rev_app_rev_app.
  cbn. now rewrite append_empty_r.
Qed.

Lemma parse_equality (k : string) :
  SQLite.is_ident k = true ->
  SQLite.parse_cond (k +:+ " = ?") = Some (k, SQLite.CEq).
Proof.
  intros H. unfold SQLite.parse_cond. rewrite words_of_equality by assumption.
  rewrite H. reflexivity.
Qed.

Lemma plain_key_spec (k : string) :
  plain_key k = true ->
  SQLite.is_ident k = true
  /\ String.eqb (GoStrings.ToLower k) "and" = false
  /\ String.eqb (GoStrings.ToLower k) "or" = false.
Proof.
  unfold plain_key. intros H.
  apply andb_prop in H as [H H3]. apply andb_prop in H as [H1 H2].
  repeat split; auto; now apply negb_true_iff.
Qed.

Lemma eval_equality (row : Row) (kv : string * Value) :
  plain_key (fst kv) = true ->
  clause.eval row (equality kv) = Some (equal_in row kv).
Proof.
  intros H. apply plain_key_spec in H as (H & _ & _).
  unfold equality. cbn [clause.eval]. now rewrite parse_equality.
Qed.

Lemma eval_AndConditions (row : Row) (e0 : clause.Expression)
    (rest : list clause.Expression) :
  clause.eval row (clause.AndConditions (e0 :: rest))
  = match clause.eval row e0 with
    | None => None
    | Some b => eval_seq row false rest false b
    end.
Proof. reflexivity. Qed.

(** A run of AND-joined equalities. *)
Lemma eval_seq_equalities (row : Row) (kvs : list (string * Value)) (done cur : bool) :
  forallb plain_key (map fst kvs) = true ->
  eval_seq row false (map equality kvs) done cur
  = Some (done || (cur && forallb (equal_in row) kvs)).
Proof.
  revert done cur. induction kvs as [|kv kvs IH]; intros done cur H.
  - cbn [map eval_seq forallb]. now rewrite andb_true_r.
  - simpl in H. apply andb_prop in H as [Hk H].
    cbn [map eval_seq forallb]. rewrite (eval_equality row kv Hk).
    change (clause.single_or (equality kv)) with false. cbn [orb].
    rewrite IH by assumption. now rewrite andb_assoc.
Qed.

(** Compiling a flat list in the [and] case appends one equality each. *)
Lemma compile_all_flat (kvs : list (string * Value)) (query : Query.t) :
  forallb plain_key (map fst kvs) = true ->
  compile_all (flat kvs) query = Ok (query ++ map equality kvs).
Proof.
  revert query. induction kvs as [|[k v] kvs IH]; intros query H; simpl.
  - now rewrite app_nil_r.
  - simpl in H. apply andb_prop in H as [Hk H].
    apply plain_key_spec in Hk as (_ & Ha & Ho). simpl in Ha, Ho.
    rewrite Ha, Ho. rewrite IH by assumption.
    unfold Where, Query.Where_. rewrite <- app_assoc. reflexivity.
Qed.

(** The flat [and]: a conjunction of equalities. *)
Lemma flat_and_selects (key : string) (kvs : list (string * Value)) :
  String.eqb (GoStrings.ToLower key) "and" = true ->
  forallb plain_key (map fst kvs) = true ->
  applyFilter [] [(key, VList (flat kvs))] = Ok (map equality kvs)
  /\ forall row : Row,
       Query.selects (map equality kvs) row = Some (forallb (equal_in row) kvs).
Proof.
  intros Hkey H. split.
  - rewrite applyFilter_and by assumption.
    rewrite compile_all_flat by assumption. reflexivity.
  - intros row. unfold Query.selects.
    destruct kvs as [|kv kvs]; [reflexivity|].
    assert (Ha : clause.arrange (map equality (kv :: kvs)) = map equality (kv :: kvs)).
    { destruct kvs; reflexivity. }
    rewrite Ha. cbn [map]. rewrite eval_AndConditions.
    simpl in H. apply andb_prop in H as [Hk H].
    rewrite (eval_equality row kv Hk).
    rewrite eval_seq_equalities by assumption. reflexivity.
Qed.

End FilterFacts.

(** C5, amended. [applyFilter] walks the entries of the map. For an [and]
    key (in any letter case) it compiles the maps of the list one after the
    other onto the statement and goes on with the next entry. For a key [K]
    that is neither [and] nor [or] it adds the equality [K = ?] with the
    value, reading no operator from the key, and returns. For a list of
    one-entry maps over plain column names, the [and] tree selects exactly
    the rows on which every equality holds. In particular
    [{"and":[{"status":"open"},{"priority":1}]}] selects exactly the rows
    with status = open AND priority = 1. *)
Theorem C5_filter_compiler :
  (forall query key value rest,
      String.eqb (GoStrings.ToLower key) "and" = false ->
      String.eqb (GoStrings.ToLower key) "or" = false ->
      applyFilter query ((key, value) :: rest)
      = Ok (query ++ [clause.Expr (key +:+ " = ?") value]))
  /\ (forall query key conditions rest,
        String.eqb (GoStrings.ToLower key) "and" = true ->
        applyFilter query ((key, VList conditions) :: rest)
        = match compile_all conditions query with
          | Ok query' => applyFilter query' rest
          | Err e => Err e
          | Panic => Panic
          end)
  /\ (forall key kvs,
        String.eqb (GoStrings.ToLower key) "and" = true ->
        forallb plain_key (map fst kvs) = true ->
        exists q,
          applyFilter [] [(key, VList (flat kvs))] = Ok q
          /\ forall row : Row,
               Query.selects q row = Some (forallb (equal_in row) kvs))
  /\ (exists q, applyFilter [] Fixtures.tree_and = Ok q
        /\ forall row : Row,
             Query.selects q row
             = Some (SQLite.holds SQLite.CEq (map_get row "status") (VStr "open")
                     && SQLite.holds SQLite.CEq (map_get row "priority") (VNum 1))).
Proof.
  split; [exact applyFilter_plain|].
  split; [exact applyFilter_and|].
  split.
  { intros key kvs Hk H. exists (map equality kvs).
    now apply flat_and_selects. }
  eexists. split; [vm_compute; reflexivity|]. exact selects_tree_and.
Qed.

Lemma C5_filter_compiler_witness :
  String.eqb (GoStrings.ToLower "Status") "and" = false
  /\ String.eqb (GoStrings.ToLower "AND") "and" = true
  /\ forallb plain_key (map fst [("status", VStr "open"); ("priority", VNum 1)]) = true
  /\ applyFilter [] [("Status", VStr "open"); ("ignored", VNum 0)]
     = Ok [clause.Expr "Status = ?" (VStr "open")]
  /\ exists q,
       applyFilter []
         [("AND", VList (flat [("status", VStr "open"); ("priority", VNum 1)]))] = Ok q
       /\ forall row : Row,
            Query.selects q row
            = Some (forallb (equal_in row) [("status", VStr "open"); ("priority", VNum 1)]).
Proof.
  split; [reflexivity|]. split; [reflexivity|]. split; [reflexivity|]. split.
  - apply (proj1 C5_filter_compiler [] "Status" (VStr "open") [("ignored", VNum 0)]);
      reflexivity.
  - apply (proj1 (proj2 (proj2 C5_filter_compiler)) "AND"
             [("status", VStr "open"); ("priority", VNum 1)]); reflexivity.
Defined.


(* ================================================================== *)
(** * Further properties of the sources *)
(* ================================================================== *)

(** ** Helpers and type mappings *)

(** X1. [ArrayContains] answers true exactly when the value is an element
    of the slice. *)
Theorem X1_ArrayContains_iff (arr : list string) (value : string) :
  ArrayContains arr value = true <-> In value arr.
Proof.
  induction arr as [|v rest IH]; simpl.
  - split; [discriminate | tauto].
  - destruct (String.eqb_spec v value) as [->|Hne].
    + split; auto.
    + rewrite IH. split; [auto | intros [H|H]; [congruence | exact H]].
Qed.

(** X2. [ConvertTypeToSQLiteType] returns one of six SQL type names or the
    empty string, and the empty string exactly when the type, lowered, is
    none of the ten spellings it knows. *)
Theorem X2_ConvertType_range (f : Field.t) :
  In (ConvertTypeToSQLiteType f)
     ["TEXT"; "REAL"; "BOOLEAN"; "DATETIME"; "BLOB"; "RELATION"; ""]
  /\ (ConvertTypeToSQLiteType f = ""
      <-> ~ In (GoStrings.ToLower (Field.Typ f)) supported_type_names).
Proof.
  unfold ConvertTypeToSQLiteType, supported_type_names.
  generalize (GoStrings.ToLower (Field.Typ f)). intros t.
  repeat match goal with
         | |- context [String.eqb t ?s] =>
             destruct (String.eqb_spec t s); cbn [orb]
         end;
    (split; [simpl; tauto|]);
    (split; [try discriminate; intros _; simpl; intuition congruence
            | intros H; try reflexivity; exfalso; apply H; subst; simpl; tauto]).
Qed.

(** X3. The two type mappings agree wherever the older one, of the handler,
    knows the type: the mapping of model.go gives the same SQL type. *)
Theorem X3_type_mappings_agree (f : fields.t) :
  fields.convertTypeToSQLiteType f <> "" ->
  ConvertTypeToSQLiteType (to_Field f) = fields.convertTypeToSQLiteType f.
Proof.
  unfold fields.convertTypeToSQLiteType, ConvertTypeToSQLiteType, to_Field.
  cbn [Field.Typ]. generalize (fields.FieldType f). intros ty.
  repeat match goal with
         | |- context [String.eqb ty ?s] =>
             destruct (String.eqb_spec ty s); [subst; intros _; reflexivity|]
         end.
  intros H. now contradiction H.
Qed.

Lemma X3_type_mappings_agree_witness :
  fields.convertTypeToSQLiteType Fixtures.title <> ""
  /\ ConvertTypeToSQLiteType (to_Field Fixtures.title) = "TEXT".
Proof.
  assert (H : fields.convertTypeToSQLiteType Fixtures.title <> "")
    by (vm_compute; discriminate).
  split; [exact H|]. exact (X3_type_mappings_agree Fixtures.title H).
Defined.

(** ** The statements of the [CreateTable] handler *)

Section ApiPartsFacts.
Import ApiDDL.

Lemma api_loop_uniques (name : string) (fs : list fields.t) (a : acc) :
  uniques (fold_left (loop_body name) fs a)
  = uniques a
    ++ map ApiSpec.unique_clause (List.filter fields.Unique (List.filter supported fs)).
Proof.
  revert a. induction fs as [|f fs IH]; intros a; simpl.
  - now rewrite app_nil_r.
  - rewrite IH. unfold loop_body, supported.
    destruct (String.eqb (fields.convertTypeToSQLiteType f) "") eqn:E; simpl; [reflexivity|].
    destruct (fields.Unique f); simpl; [|reflexivity].
    now rewrite <- app_assoc.
Qed.

Lemma api_loop_foreignKeys (name : string) (fs : list fields.t) (a : acc) :
  foreignKeys (fold_left (loop_body name) fs a)
  = foreignKeys a
    ++ map ApiSpec.foreign_key_clause
         (List.filter ApiSpec.is_relation (List.filter supported fs)).
Proof.
  revert a. induction fs as [|f fs IH]; intros a; simpl.
  - now rewrite app_nil_r.
  - rewrite IH. unfold loop_body, supported, ApiSpec.is_relation.
    destruct (String.eqb (fields.convertTypeToSQLiteType f) "") eqn:E; simpl; [reflexivity|].
    destruct (String.eqb (fields.convertTypeToSQLiteType f) "RELATION"); simpl; [|reflexivity].
    now rewrite <- app_assoc.
Qed.

Lemma api_loop_indexes (name : string) (fs : list fields.t) (a : acc) :
  indexes (fold_left (loop_body name) fs a)
  = indexes a
    ++ map (ApiSpec.index_statement name)
         (List.filter fields.Indexed (List.filter supported fs)).
Proof.
  revert a. induction fs as [|f fs IH]; intros a; simpl.
  - now rewrite app_nil_r.
  - rewrite IH. unfold loop_body, supported.
    destruct (String.eqb (fields.convertTypeToSQLiteType f) "") eqn:E; simpl; [reflexivity|].
    destruct (fields.Indexed f); simpl; [|reflexivity].
    now rewrite <- app_assoc.
Qed.

End ApiPartsFacts.

(** X4. The handler of database.go lists the parts of its CREATE TABLE in
    the order id column, auth columns of a users table, one column per
    field of a type it knows, the two timestamps, the UNIQUE constraints,
    the FOREIGN KEY clauses; and it issues one CREATE INDEX, named [idx_]
    followed by the field name only, for each indexed field of a known
    type, in input order. *)
Theorem X4_handler_statements (id : string) (params : createTableReq.t) :
  let known := List.filter ApiDDL.supported (createTableReq.Fields params) in
  ApiDDL.parts id params
  = [id]
      ++ (if ApiDDL.isAuth params then DDL.authFields else [])
      ++ map ApiDDL.spec_column known
      ++ DDL.timestampFields
      ++ map ApiSpec.unique_clause (List.filter fields.Unique known)
      ++ map ApiSpec.foreign_key_clause (List.filter ApiSpec.is_relation known)
  /\ ApiDDL.indexes (ApiDDL.after_loop id params)
     = map (ApiSpec.index_statement (createTableReq.TableName params))
         (List.filter fields.Indexed known).
Proof.
  intros known. split.
  - unfold ApiDDL.parts. rewrite api_columns_shape.
    unfold ApiDDL.after_loop. rewrite api_loop_uniques, api_loop_foreignKeys.
    simpl. rewrite <- !app_assoc. reflexivity.
  - unfold ApiDDL.after_loop. rewrite api_loop_indexes. reflexivity.
Qed.

(** ** Statements over identifier names *)

Section StatementFacts.

Lemma ident_char_not_paren (c : ascii) :
  SQLite.is_ident_char c = true -> Ascii.eqb c "(" = false.
Proof.
  destruct c as [[] [] [] [] [] [] [] []]; vm_compute; intros H;
    first [reflexivity | discriminate].
Qed.

Lemma before_paren_ident (x y : string) :
  SQLite.all_ident_chars x = true ->
  SQLite.before_char "(" (x +:+ y) = x +:+ SQLite.before_char "(" y.
Proof.
  induction x as [|c x IH]; intros H; [reflexivity|].
  simpl in H. apply andb_prop in H as [Hc Hx].
  change (String c x +:+ y) with (String c (x +:+ y)).
  cbn [SQLite.before_char]. rewrite (ident_char_not_paren c Hc), IH by assumption.
  reflexivity.
Qed.

Lemma is_ident_chars (x : string) :
  SQLite.is_ident x = true -> SQLite.all_ident_chars x = true.
Proof. unfold SQLite.is_ident. intros H. now apply andb_prop in H as [_ H]. Qed.

Lemma rev_rev (x : string) : String.rev (String.rev x) = x.
Proof.
  unfold String.rev. rewrite rev_app_rev_app. cbn. apply append_empty_r.
Qed.

(** Reading an identifier at the start of a word. *)
Lemma words_go_None_ident (x rest : string) :
  SQLite.is_ident x = true ->
  String.words_go None (x +:+ rest) = String.words_go (Some (String.rev x)) rest.
Proof.
  unfold SQLite.is_ident. intros H. apply andb_prop in H as [Hne H].
  destruct x as [|c x]; [discriminate Hne|].
  simpl in H. apply andb_prop in H as [Hc Hx].
  change (String c x +:+ rest) with (String c (x +:+ rest)).
  cbn [String.words_go]. rewrite (ident_char_not_space c Hc).
  cbn [from_option]. rewrite words_go_ident by assumption. reflexivity.
Qed.

Lemma words_go_end (x : string) :
  String.words_go (Some (String.rev x)) "" = [x].
Proof. cbn. now rewrite rev_rev. Qed.

(** A statement made of identifiers separated by single spaces is read
    back as its words, and holds no parenthesis. *)
Lemma words_sentence (ws : list string) :
  forallb SQLite.is_ident ws = true ->
  String.words (String.concat " " ws) = ws.
Proof.
  unfold String.words. induction ws as [|w ws IH]; intros H; [reflexivity|].
  simpl in H. apply andb_prop in H as [Hw H].
  destruct ws as [|w' ws].
  - cbn [String.concat]. rewrite <- (append_empty_r w) at 1.
    rewrite words_go_None_ident by assumption. apply words_go_end.
  - change (String.concat " " (w :: w' :: ws))
      with (w +:+ String " " (String.concat " " (w' :: ws))).
    rewrite words_go_None_ident by assumption.
    cbn [String.words_go Ascii.is_space option_list fmap option_fmap option_map].
    rewrite rev_rev, IH by assumption. reflexivity.
Qed.

Lemma before_paren_sentence (ws : list string) :
  forallb SQLite.is_ident ws = true ->
  SQLite.before_char "(" (String.concat " " ws) = String.concat " " ws.
Proof.
  induction ws as [|w ws IH]; intros H; [reflexivity|].
  simpl in H. apply andb_prop in H as [Hw H].
  destruct ws as [|w' ws].
  - cbn [String.concat]. rewrite <- (append_empty_r w) at 1.
    rewrite before_paren_ident by now apply is_ident_chars.
    cbn [SQLite.before_char]. apply append_empty_r.
  - change (String.concat " " (w :: w' :: ws))
      with (w +:+ String " " (String.concat " " (w' :: ws))).
    rewrite before_paren_ident by now apply is_ident_chars.
    cbn [SQLite.before_char]. change (Ascii.eqb " " "(") with false. cbn iota.
    now rewrite IH.
Qed.

Lemma exec_sentence (ws : list string) :
  forallb SQLite.is_ident ws = true ->
  String.words (SQLite.before_char "(" (String.concat " " ws)) = ws.
Proof.
  intros H. rewrite before_paren_sentence by assumption. now apply words_sentence.
Qed.

Lemma exec_drop_index (name : string) (d : SQLite.Database) :
  SQLite.is_ident name = true ->
  SQLite.exec ("DROP INDEX IF EXISTS " +:+ name) d
  = SQLite.drop_index_if_exists name d.
Proof.
  intros H. unfold SQLite.exec.
  change ("DROP INDEX IF EXISTS " +:+ name)
    with (String.concat " " ["DROP"; "INDEX"; "IF"; "EXISTS"; name]).
  rewrite exec_sentence; [reflexivity | cbn; now rewrite H].
Qed.

Lemma exec_drop_table (name : string) (d : SQLite.Database) :
  SQLite.is_ident name = true ->
  SQLite.exec ("DROP TABLE " +:+ name) d = SQLite.drop_table name d.
Proof.
  intros H. unfold SQLite.exec.
  change ("DROP TABLE " +:+ name) with (String.concat " " ["DROP"; "TABLE"; name]).
  rewrite exec_sentence; [reflexivity | cbn; now rewrite H].
Qed.

Lemma exec_rename_table (old new : string) (d : SQLite.Database) :
  SQLite.is_ident old = true ->
  SQLite.is_ident new = true ->
  SQLite.exec ("ALTER TABLE " +:+ old +:+ " RENAME TO " +:+ new) d
  = SQLite.rename_table old new d.
Proof.
  intros Ho Hn. unfold SQLite.exec.
  change ("ALTER TABLE " +:+ old +:+ " RENAME TO " +:+ new)
    with (String.concat " " ["ALTER"; "TABLE"; old; "RENAME"; "TO"; new]).
  rewrite exec_sentence; [reflexivity | cbn; now rewrite Ho, Hn].
Qed.

End StatementFacts.

(** ** The table service *)

Section ServiceFacts.
Import gorm TableService.


Lemma Transaction_ok {A} (fc : DB -> M A) (w w1 : World) (a : A) :
  Transaction fc w = (Ok a, w1) ->
  exists w', fc InTx w = (Ok a, w') /\ w1 = commit w'.
Proof.
  unfold Transaction. destruct (fc InTx w) as [[a'|e|] w'];
    intros H; inversion H; subst; eauto.
Qed.

Lemma catalog_rename_ok (old new : string) (d d1 : SQLite.Database) :
  SQLite.catalog_rename old new d = Ok d1 ->
  SQLite.tables d1 = SQLite.tables d
  /\ SQLite.indexes d1 = SQLite.indexes d
  /\ SQLite.triggers d1 = SQLite.triggers d
  /\ (old <> new ->
      match SQLite.catalog d !! old with
      | Some x =>
          SQLite.catalog d1 !! old = None
          /\ exists x', SQLite.catalog d1 !! new = Some x'
               /\ Tables.Name x' = new
               /\ Tables.Auth x' = Tables.Auth x
               /\ Tables.System x' = Tables.System x
               /\ Tables.Indexes x' = Tables.Indexes x
      | None => SQLite.catalog d1 = SQLite.catalog d
      end).
Proof.
  unfold SQLite.catalog_rename.
  destruct (SQLite.catalog d !! old) as [x|] eqn:Eo.
  - destruct (String.eqb_spec old new) as [->|Hne].
    + intros H; inversion H; subst.
      repeat split; auto; exfalso; congruence.
    + destruct (SQLite.catalog d !! new) eqn:En; [discriminate|].
      intros H; inversion H; subst; clear H. simpl. repeat split; auto.
      * rewrite lookup_insert_ne by congruence. apply lookup_delete_eq.
      * eexists. rewrite lookup_insert_eq. repeat split.
  - intros H; inversion H; subst. repeat split; auto.
Qed.

(** X5. [Drop] in a transaction, on an identifier that is not the name of
    a system table and that no live table differs from in letter case
    only. A call that returns nil found the table live and has removed it
    with its indexes, its triggers and its catalog row. When the table is
    not live the call fails and the catalog row deleted first is back: the
    committed database is unchanged. The cache is the same in both cases. *)
Theorem X5_Drop_outcome (name : string) (w : World) :
  SQLite.is_ident name = true ->
  system_name name = false ->
  SQLite.sole_name (names_of (SQLite.tables (view InTx w))) name = true ->
  (forall w1,
      Transaction (fun tx => Drop tx name) w = (Ok tt, w1) ->
      is_Some (SQLite.tables (view InTx w) !! name)
      /\ w1 = mkWorld
                (SQLite.mkDB (delete name (SQLite.tables (view InTx w)))
                   (filter (fun kv => snd kv <> name) (SQLite.indexes (view InTx w)))
                   (filter (fun kv => snd kv <> name) (SQLite.triggers (view InTx w)))
                   (delete name (SQLite.catalog (view InTx w))))
                None (cache w) (draws w))
  /\ (SQLite.tables (view InTx w) !! name = None ->
      exists e,
        Transaction (fun tx => Drop tx name) w
        = (Err e, mkWorld (committed w) None (cache w) (draws w))).
Proof.
  intros H _ _. unfold Transaction, Drop, Exec, bind, write. simpl.
  rewrite exec_drop_table by assumption.
  unfold SQLite.drop_table. simpl.
  destruct (SQLite.tables _ !! name) as [t|]; split.
  - intros w1 E. inversion E. split; [now exists t | reflexivity].
  - discriminate.
  - intros w1 E. discriminate E.
  - intros _. eexists. reflexivity.
Qed.

Lemma X5_Drop_outcome_witness :
  SQLite.is_ident "members" = true
  /\ system_name "members" = false
  /\ SQLite.sole_name (names_of (SQLite.tables (view InTx Fixtures.w_plain)))
       "members" = true
  /\ fst (Transaction (fun tx => Drop tx "members") Fixtures.w_plain) = Ok tt
  /\ SQLite.tables
       (committed (snd (Transaction (fun tx => Drop tx "members") Fixtures.w_plain)))
       !! "members" = None.
Proof.
  assert (H : SQLite.is_ident "members" = true) by reflexivity.
  assert (Hs : system_name "members" = false) by reflexivity.
  assert (Hc : SQLite.sole_name (names_of (SQLite.tables (view InTx Fixtures.w_plain)))
                 "members" = true) by (vm_compute; reflexivity).
  assert (E : Transaction (fun tx => Drop tx "members") Fixtures.w_plain
              = (Ok tt, snd (Transaction (fun tx => Drop tx "members") Fixtures.w_plain)))
    by (vm_compute; reflexivity).
  split; [exact H|]. split; [exact Hs|]. split; [exact Hc|].
  split; [now rewrite E|].
  destruct (proj1 (X5_Drop_outcome "members" Fixtures.w_plain H Hs Hc) _ E) as [_ ->].
  cbn [committed SQLite.tables]. apply lookup_delete_eq.
Defined.

(** X6. A [Rename] in a transaction that succeeds, on identifiers, where
    the old name is not that of a system table and no live table differs
    from it in letter case only: the two names differ, the old table was
    live and the new name free; the table now goes by the new name, with
    the columns, the unique columns and the rows it had; its triggers and
    the indexes made for it are those of the new name; and the catalog
    row, when the old name had one, is found under the new name with the
    same flags and index text. With no catalog row the rename still
    succeeds and the catalog is as it was. *)
Theorem X6_Rename_moves (old new : string) (w w1 : World) :
  SQLite.is_ident old = true ->
  SQLite.is_ident new = true ->
  system_name old = false ->
  SQLite.sole_name (names_of (SQLite.tables (view InTx w))) old = true ->
  Transaction (fun tx => Rename tx old new) w = (Ok tt, w1) ->
  old <> new
  /\ is_Some (SQLite.tables (view InTx w) !! old)
  /\ SQLite.tables (view InTx w) !! new = None
  /\ (exists t t',
        SQLite.tables (view InTx w) !! old = Some t
        /\ SQLite.tables (committed w1) !! new = Some t'
        /\ SQLite.t_columns t' = SQLite.t_columns t
        /\ SQLite.t_uniques t' = SQLite.t_uniques t
        /\ SQLite.t_rows t' = SQLite.t_rows t)
  /\ SQLite.tables (committed w1) !! old = None
  /\ (forall i, system_name i = false ->
                SQLite.indexes (committed w1) !! i
                = SQLite.retarget old new <$> SQLite.indexes (view InTx w) !! i)
  /\ SQLite.triggers (committed w1)
     = SQLite.retarget old new <$> SQLite.triggers (view InTx w)
  /\ match SQLite.catalog (view InTx w) !! old with
     | Some x =>
         SQLite.catalog (committed w1) !! old = None
         /\ exists x', SQLite.catalog (committed w1) !! new = Some x'
              /\ Tables.Name x' = new
              /\ Tables.Auth x' = Tables.Auth x
              /\ Tables.System x' = Tables.System x
              /\ Tables.Indexes x' = Tables.Indexes x
     | None => SQLite.catalog (committed w1) = SQLite.catalog (view InTx w)
     end.
Proof.
  intros Ho Hn _ _ H. apply Transaction_ok in H as (w' & H & ->).
  unfold Rename, Exec in H.
  apply bind_ok in H as ([] & wa & Ha & Hb).
  apply write_ok in Ha as (Ha & _). apply write_ok in Hb as (Hb & _).
  rewrite exec_rename_table in Hb by assumption.
  apply catalog_rename_ok in Ha as (Ht & Hi & Hg & Hc).
  unfold SQLite.rename_table in Hb. rewrite Ht in Hb.
  destruct (SQLite.tables (view InTx w) !! old) as [t|] eqn:Eo; [|discriminate].
  destruct (SQLite.tables (view InTx w) !! new) as [t'|] eqn:En; [discriminate|].
  destruct (SQLite.indexes (view InTx wa) !! new) as [i'|] eqn:Ei; [discriminate|].
  assert (Hne : old <> new) by congruence.
  specialize (Hc Hne).
  change (committed (commit w')) with (view InTx w').
  remember (view InTx w') as d' eqn:Ed'. clear Ed'. injection Hb as <-.
  cbn [SQLite.tables SQLite.indexes SQLite.triggers SQLite.catalog].
  change (default (committed wa) (pending wa)) with (view InTx wa).
  change (default (committed w) (pending w)) with (view InTx w).
  rewrite Hi, Hg.
  split; [exact Hne|]. split; [now exists t|].
  split; [first [exact En | reflexivity]|].
  split; [exists t, t; repeat split;
          first [exact Eo | reflexivity | apply lookup_insert_eq]|].
  split; [rewrite lookup_insert_ne by congruence; apply lookup_delete_eq|].
  split; [intros i _; apply lookup_fmap|].
  split; [reflexivity | exact Hc].
Qed.

Lemma X6_Rename_moves_witness :
  SQLite.is_ident "members" = true
  /\ SQLite.is_ident "people" = true
  /\ system_name "members" = false
  /\ SQLite.sole_name (names_of (SQLite.tables (view InTx Fixtures.w_plain)))
       "members" = true
  /\ fst (Transaction (fun tx => Rename tx "members" "people") Fixtures.w_plain) = Ok tt
  /\ SQLite.tables
       (committed (snd (Transaction (fun tx => Rename tx "members" "people")
                          Fixtures.w_plain))) !! "members" = None.
Proof.
  assert (Ho : SQLite.is_ident "members" = true) by reflexivity.
  assert (Hn : SQLite.is_ident "people" = true) by reflexivity.
  assert (Hs : system_name "members" = false) by reflexivity.
  assert (Hc : SQLite.sole_name (names_of (SQLite.tables (view InTx Fixtures.w_plain)))
                 "members" = true) by (vm_compute; reflexivity).
  assert (H : Transaction (fun tx => Rename tx "members" "people") Fixtures.w_plain
              = (Ok tt, snd (Transaction (fun tx => Rename tx "members" "people")
                               Fixtures.w_plain)))
    by (vm_compute; reflexivity).
  split; [exact Ho|]. split; [exact Hn|]. split; [exact Hs|]. split; [exact Hc|].
  split; [now rewrite H|].
  exact (proj1 (proj2 (proj2 (proj2 (proj2
           (X6_Rename_moves "members" "people" _ _ Ho Hn Hs Hc H)))))).
Defined.

Lemma drop_all_lookup (names : list string) (m : gmap string string) (i : string) :
  fold_left (fun m n => delete n m) names m !! i
  = if bool_decide (i ∈ names) then None else m !! i.
Proof.
  revert m. induction names as [|n names IH]; intros m; simpl; [reflexivity|].
  rewrite IH. destruct (decide (i = n)) as [->|Hne].
  - rewrite (bool_decide_eq_true_2 (n ∈ n :: names)) by (apply elem_of_cons; now left).
    case_bool_decide; [reflexivity | apply lookup_delete_eq].
  - rewrite lookup_delete_ne by congruence.
    rewrite (bool_decide_ext (i ∈ n :: names) (i ∈ names)); [reflexivity|].
    rewrite elem_of_cons. tauto.
Qed.

Lemma DropIndexes_run (names : list string) (w : World) :
  Forall (fun n => SQLite.is_ident n = true) names ->
  DropIndexes InTx names w
  = (Ok tt,
     match names with
     | [] => w
     | _ :: _ =>
         mkWorld (committed w)
           (Some (SQLite.mkDB (SQLite.tables (view InTx w))
                    (fold_left (fun m n => delete n m) names
                       (SQLite.indexes (view InTx w)))
                    (SQLite.triggers (view InTx w))
                    (SQLite.catalog (view InTx w))))
           (cache w) (draws w)
     end).
Proof.
  intros H. revert w. induction H as [|n names Hn _ IH]; intros w; [reflexivity|].
  cbn [DropIndexes]. unfold bind, Exec, write.
  rewrite exec_drop_index by assumption. cbn [SQLite.drop_index_if_exists].
  rewrite IH. destruct names; reflexivity.
Qed.

(** X7. [DropIndexes] on the transaction handle that returns nil, for
    identifiers that no index differs from in letter case only: exactly the
    named indexes are gone, no table and nothing committed is touched, and
    a second run returns nil again and changes nothing more. *)
Theorem X7_DropIndexes_idempotent (names : list string) (w w1 : World) :
  Forall (fun n => SQLite.is_ident n = true) names ->
  Forall (fun n => SQLite.sole_name (names_of (SQLite.indexes (view InTx w))) n = true)
    names ->
  DropIndexes InTx names w = (Ok tt, w1) ->
  committed w1 = committed w
  /\ SQLite.tables (view InTx w1) = SQLite.tables (view InTx w)
  /\ (forall i, SQLite.indexes (view InTx w1) !! i
                = if bool_decide (i ∈ names) then None
                  else SQLite.indexes (view InTx w) !! i)
  /\ DropIndexes InTx names w1 = (Ok tt, w1).
Proof.
  intros H _ Hrun. rewrite DropIndexes_run in Hrun by assumption.
  inversion Hrun as [Hw1]; clear Hrun.
  destruct names as [|n names]; [repeat split|].
  split; [reflexivity|]. split; [reflexivity|]. split.
  - intros i. cbn [view pending default from_option SQLite.indexes].
    apply drop_all_lookup.
  - rewrite DropIndexes_run by assumption.
    cbn [view pending default from_option committed cache draws
         SQLite.tables SQLite.indexes SQLite.triggers SQLite.catalog].
    do 4 f_equal. apply map_eq. intros i. rewrite !drop_all_lookup.
    case_bool_decide as Hd; [reflexivity|].
    cbn [id SQLite.indexes]. rewrite drop_all_lookup.
    now rewrite bool_decide_eq_false_2.
Qed.

Lemma X7_DropIndexes_idempotent_witness :
  Forall (fun n => SQLite.is_ident n = true) ["idx_title"; "idx_none"]
  /\ Forall (fun n => SQLite.sole_name
                        (names_of (SQLite.indexes (view InTx Fixtures.w_posts))) n
                      = true) ["idx_title"; "idx_none"]
  /\ SQLite.indexes (view InTx Fixtures.w_posts) !! "idx_title" = Some "posts"
  /\ SQLite.indexes
       (view InTx (snd (DropIndexes InTx ["idx_title"; "idx_none"] Fixtures.w_posts)))
       !! "idx_title" = None.
Proof.
  assert (H : Forall (fun n => SQLite.is_ident n = true) ["idx_title"; "idx_none"])
    by (repeat constructor).
  assert (Hc : Forall (fun n => SQLite.sole_name
                          (names_of (SQLite.indexes (view InTx Fixtures.w_posts))) n
                        = true) ["idx_title"; "idx_none"])
    by (repeat constructor).
  assert (Hrun : DropIndexes InTx ["idx_title"; "idx_none"] Fixtures.w_posts
                 = (Ok tt, snd (DropIndexes InTx ["idx_title"; "idx_none"]
                                  Fixtures.w_posts)))
    by (vm_compute; reflexivity).
  split; [exact H|]. split; [exact Hc|]. split; [vm_compute; reflexivity|].
  destruct (X7_DropIndexes_idempotent _ _ _ H Hc Hrun) as (_ & _ & Hi & _).
  rewrite Hi. reflexivity.
Defined.

Lemma filter_fst_NoDup {A B} (P : A * B -> bool) (l : list (A * B)) :
  NoDup (map fst l) -> NoDup (map fst (List.filter P l)).
Proof.
  induction l as [|x l IH]; intros H; [exact H|].
  inversion H as [|? ? Hnotin Hnd]; subst. simpl.
  destruct (P x); [|now apply IH].
  simpl. constructor; [|now apply IH].
  intros C. apply Hnotin.
  apply list_elem_of_fmap in C as (y & -> & Hy).
  apply list_elem_of_In, List.filter_In in Hy as [Hy _].
  apply list_elem_of_fmap. exists y. split; [reflexivity|].
  now apply list_elem_of_In.
Qed.

(** X8. [Indexes] never fails and changes nothing; it lists, without
    repetition, exactly the names of the indexes the engine holds for the
    table. *)
Theorem X8_Indexes_lists (tableName : string) (w : World) :
  exists l,
    Indexes tableName w = (Ok l, w)
    /\ NoDup l
    /\ forall i, i ∈ l <-> SQLite.indexes (committed w) !! i = Some tableName.
Proof.
  eexists. split; [reflexivity|]. split.
  - apply filter_fst_NoDup. apply (NoDup_fst_map_to_list (SQLite.indexes (committed w))).
  - intros i. cbn [view]. rewrite list_elem_of_fmap. split.
    + intros ([k t] & -> & Hy).
      apply list_elem_of_In, List.filter_In in Hy as [Hy Ht].
      apply list_elem_of_In, elem_of_map_to_list in Hy.
      simpl in Ht. apply String.eqb_eq in Ht. now subst.
    + intros Hi. exists (i, tableName). split; [reflexivity|].
      apply list_elem_of_In, List.filter_In. split.
      * now apply list_elem_of_In, elem_of_map_to_list.
      * apply String.eqb_refl.
Qed.

(** X9. [Info] caches what it returns and nothing else: after a
    successful call the same call answers the same descriptor from the
    cache and changes nothing, and a failed call leaves the process as it
    was. It never writes to the database. *)
Theorem X9_Info_caches_successes
    (name : string) (infoNeeded : list string) (w : World) :
  match Info name infoNeeded w with
  | (Ok t, w1) =>
      Info name infoNeeded w1 = (Ok t, w1)
      /\ committed w1 = committed w
      /\ pending w1 = pending w
  | (_, w1) => w1 = w
  end.
Proof.
  unfold Info, bind, cache_Get, read, lift, ret, cache_Set.
  destruct (cache w !! _) as [[t|rows]|] eqn:E.
  - rewrite E. auto.
  - reflexivity.
  - destruct (First _ name (view Pool w)) as [x| |]; try reflexivity.
    destruct (ArrayContains _ TABLE_INFO_INDEXES);
      [destruct (json_Unmarshal _) as [idx| |]|]; try reflexivity;
      cbn [cache]; rewrite lookup_insert_eq; auto.
Qed.

(** X10. A catalog row whose index text is empty, as [Migrate] leaves the
    rows of the system tables: on a cold cache [Info] fails with the JSON
    error whenever the index column is among the fields asked for (so with
    the default fields), caching nothing, and succeeds with the selected
    fields when it is not. *)
Theorem X10_Info_empty_index_text
    (name : string) (infoNeeded : list string) (w : World) (x : Tables.t) :
  let fields := match infoNeeded with [] => default_info | _ :: _ => infoNeeded end in
  cache w !! info_cache_key name fields = None ->
  SQLite.catalog (committed w) !! name = Some x ->
  Tables.Indexes x = EmptyText ->
  forallb (ArrayContains catalog_columns) fields = true ->
  if ArrayContains fields TABLE_INFO_INDEXES
  then Info name infoNeeded w = (Err ErrJSON, w)
  else fst (Info name infoNeeded w) = Ok (selected fields x).
Proof.
  intros fields Hc Hx Hi Hf.
  unfold Info, bind, cache_Get, read, lift, ret, cache_Set, First.
  fold fields. rewrite Hc, Hf. cbn [negb view]. rewrite Hx.
  destruct (ArrayContains fields TABLE_INFO_INDEXES) eqn:E; [|reflexivity].
  unfold selected. cbn [Tables.Indexes]. rewrite E, Hi. reflexivity.
Qed.

Lemma X10_Info_empty_index_text_witness :
  Info "_admin" [] w_system = (Err ErrJSON, w_system)
  /\ fst (Info "_admin" [TABLE_INFO_NAME; TABLE_INFO_AUTH] w_system)
     = Ok (Tables.mk "_admin" true false EmptyText [] "" "" "" "" "").
Proof.
  split.
  - apply (X10_Info_empty_index_text "_admin" [] w_system
             (Tables.mk "_admin" true true EmptyText []
                "ADMIN_ONLY" "ADMIN_ONLY" "ADMIN_ONLY" "ADMIN_ONLY" "ADMIN_ONLY"));
      vm_compute; reflexivity.
  - apply (X10_Info_empty_index_text "_admin" [TABLE_INFO_NAME; TABLE_INFO_AUTH]
             w_system
             (Tables.mk "_admin" true true EmptyText []
                "ADMIN_ONLY" "ADMIN_ONLY" "ADMIN_ONLY" "ADMIN_ONLY" "ADMIN_ONLY"));
      vm_compute; reflexivity.
Defined.

(** X11. [Create] then [Info]: after a [Create] that succeeded in a
    transaction, [Info] with the default fields, on a cache that has no
    entry for them, answers the descriptor of the new table: its name, the
    auth flag of a users table, not a system table, the indexes of the
    request decoded back, and all five rules ADMIN_ONLY. *)
Theorem X11_Create_then_Info (params : CreateTable.t) (w w1 : World) :
  Transaction (fun tx => Create tx params) w = (Ok tt, w1) ->
  cache w !! info_cache_key (CreateTable.Name params) default_info = None ->
  fst (Info (CreateTable.Name params) [] w1)
  = Ok (Tables.mk (CreateTable.Name params) (DDL.isAuth params) false
          (json_Marshal (CreateTable.Indexes params)) (CreateTable.Indexes params)
          "ADMIN_ONLY" "ADMIN_ONLY" "ADMIN_ONLY" "ADMIN_ONLY" "ADMIN_ONLY").
Proof.
  intros H Hc. apply Transaction_ok in H as (w' & H & ->).
  pose proof (Create_keeps_cache InTx params w) as Hk. rewrite H in Hk. simpl in Hk.
  unfold Create in H.
  apply bind_ok in H as ([] & wa & _ & H).
  apply bind_ok in H as ([] & wb & _ & H).
  apply bind_ok in H as (n & wc & _ & H).
  apply bind_ok in H as ([] & wd & _ & H).
  unfold Create_Tables in H. apply write_ok in H as (H & _).
  unfold SQLite.catalog_create in H. cbn [Tables.stored Tables.Name] in H.
  destruct (SQLite.catalog (view InTx wd) !! CreateTable.Name params); [discriminate|].
  unfold Info, bind, cache_Get, read, lift, ret, cache_Set, First.
  change (cache (commit w')) with (cache w'). rewrite Hk, Hc.
  change (view Pool (commit w')) with (view InTx w').
  remember (view InTx w') as d' eqn:Ed'. clear Ed'. injection H as <-.
  cbn [SQLite.catalog]. rewrite lookup_insert_eq. reflexivity.
Qed.

Lemma X11_Create_then_Info_witness :
  Transaction (fun tx => Create tx Fixtures.members) Fixtures.w0
  = (Ok tt, snd (Transaction (fun tx => Create tx Fixtures.members) Fixtures.w0))
  /\ fst (Info "members" []
            (snd (Transaction (fun tx => Create tx Fixtures.members) Fixtures.w0)))
     = Ok (Tables.mk "members" true false (JSONText []) []
             "ADMIN_ONLY" "ADMIN_ONLY" "ADMIN_ONLY" "ADMIN_ONLY" "ADMIN_ONLY").
Proof.
  assert (H : Transaction (fun tx => Create tx Fixtures.members) Fixtures.w0
              = (Ok tt, snd (Transaction (fun tx => Create tx Fixtures.members)
                               Fixtures.w0)))
    by (vm_compute; reflexivity).
  split; [exact H|].
  exact (X11_Create_then_Info Fixtures.members Fixtures.w0 _ H eq_refl).
Defined.

Lemma columns_key_not_info_key (a b : string) (fields : list string) :
  columns_cache_key a <> info_cache_key b fields.
Proof.
  unfold columns_cache_key, info_cache_key. intros C.
  cbv [String.append] in C. discriminate C.
Qed.

Lemma Info_cache_other (name : string) (infoNeeded : list string) (w : World)
    (k : string) :
  k <> info_cache_key name
         (match infoNeeded with [] => default_info | _ :: _ => infoNeeded end) ->
  cache (snd (Info name infoNeeded w)) !! k = cache w !! k.
Proof.
  intros Hk. unfold Info, bind, cache_Get, read, lift, ret, cache_Set.
  destruct (cache w !! _) as [[t|rows]|] eqn:E; try reflexivity.
  destruct (First _ name (view Pool w)) as [x| |]; try reflexivity.
  destruct (ArrayContains _ TABLE_INFO_INDEXES);
    [destruct (json_Unmarshal _) as [idx| |]|]; try reflexivity;
    cbn [snd cache]; now rewrite lookup_insert_ne.
Qed.

Lemma Info_keeps_committed (name : string) (infoNeeded : list string) :
  keeps_committed (Info name infoNeeded).
Proof.
  intros w. unfold Info, bind, cache_Get, read, lift, ret, cache_Set.
  destruct (cache w !! _) as [[t|rows]|] eqn:E; try reflexivity.
  destruct (First _ name (view Pool w)) as [x| |]; try reflexivity.
  destruct (ArrayContains _ TABLE_INFO_INDEXES);
    [destruct (json_Unmarshal _) as [idx| |]|]; reflexivity.
Qed.

Lemma remap_relation (col : Row) :
  map_get (remap col) "reference" <> VNil ->
  map_get (remap col) "type" = VStr "RELATION".
Proof.
  unfold remap. destruct (map_get col "reference") eqn:E; simpl;
    try (intros _; unfold map_get; now rewrite lookup_insert_eq).
  intros C. now contradiction C.
Qed.

(** X12. [Columns] on a cold column cache. The list it returns is stored
    under the column key exactly when the table is not an auth table: a
    redacted list is never cached. Every returned column that has a foreign
    key is typed RELATION, and the database is not written to. *)
Theorem X12_Columns_cache_policy
    (name : string) (fetchAuthColumn : bool) (w w1 : World) (rows : list Row) :
  cache w !! columns_cache_key name = None ->
  Columns name fetchAuthColumn w = (Ok rows, w1) ->
  exists t,
    fst (Info name [] w) = Ok t
    /\ cache w1 !! columns_cache_key name
       = (if Tables.Auth t then None else Some (CColumns rows))
    /\ Forall (fun r => map_get r "reference" <> VNil ->
                        map_get r "type" = VStr "RELATION") rows
    /\ committed w1 = committed w.
Proof.
  intros Hc. unfold Columns, bind, cache_Get. rewrite Hc. cbn [read].
  pose proof (Info_cache_other name [] w (columns_cache_key name)
                (columns_key_not_info_key _ _ _)) as Hk.
  pose proof (Info_keeps_committed name [] w) as Hd.
  destruct (Info name [] w) as [[t|e|] wi]; try discriminate.
  cbn [snd fst] in *. exists t. split; [reflexivity|].
  assert (Hall : Forall (fun r => map_get r "reference" <> VNil ->
                                  map_get r "type" = VStr "RELATION")
                   (map remap (SQLite.table_info name (view Pool w)))).
  { apply List.Forall_forall. intros r Hr. apply List.in_map_iff in Hr as (c & <- & _).
    apply remap_relation. }
  assert (Hsub : forall P, Forall (fun r => map_get r "reference" <> VNil ->
                                  map_get r "type" = VStr "RELATION")
                   (List.filter P (map remap (SQLite.table_info name (view Pool w))))).
  { intros P. apply List.Forall_forall. intros r Hr.
    apply List.filter_In in Hr as [Hr _].
    exact (proj1 (List.Forall_forall _ _) Hall r Hr). }
  match goal with H : _ = (Ok rows, w1) |- _ => revert H end.
  destruct (Tables.Auth t); [destruct fetchAuthColumn|];
    unfold ret, cache_Set; intros H; inversion H; subst; clear H.
  - rewrite Hk, Hc. repeat split; auto.
  - rewrite Hk, Hc. repeat split; auto.
  - cbn [cache committed]. rewrite lookup_insert_eq. repeat split; auto.
Qed.

Lemma X12_Columns_cache_policy_witness :
  cache Fixtures.w_plain !! columns_cache_key "members" = None
  /\ exists t,
       fst (Info "members" [] Fixtures.w_plain) = Ok t
       /\ cache (snd (Columns "members" false Fixtures.w_plain))
            !! columns_cache_key "members"
          = (if Tables.Auth t then None
             else Some (CColumns (map remap
                                    (SQLite.table_info "members"
                                       (committed Fixtures.w_plain))))).
Proof.
  assert (Hc : cache Fixtures.w_plain !! columns_cache_key "members" = None)
    by reflexivity.
  assert (H : Columns "members" false Fixtures.w_plain
              = (Ok (map remap (SQLite.table_info "members"
                                  (committed Fixtures.w_plain))),
                 snd (Columns "members" false Fixtures.w_plain)))
    by (vm_compute; reflexivity).
  split; [exact Hc|].
  destruct (X12_Columns_cache_policy "members" false _ _ _ Hc H)
    as (t & Ht & Hk & _).
  exists t. split; [exact Ht | exact Hk].
Defined.

Lemma Rename_keeps_committed (a b : string) : keeps_committed (Rename InTx a b).
Proof.
  unfold Rename, Exec.
  apply keeps_committed_bind; [apply keeps_committed_write_tx | intros _].
  apply keeps_committed_write_tx.
Qed.

Lemma DropIndexes_keeps_committed (l : list string) :
  keeps_committed (DropIndexes InTx l).
Proof.
  induction l as [|i l IH]; simpl.
  - apply keeps_committed_ret.
  - apply keeps_committed_bind; [apply keeps_committed_write_tx | intros _; exact IH].
Qed.

Lemma Transaction_failure_restores {A} (fc : DB -> M A) (w : World) :
  keeps_committed (fc InTx) -> keeps_cache (fc InTx) ->
  match fst (Transaction fc w) with
  | Ok _ => True
  | _ => committed (snd (Transaction fc w)) = committed w
         /\ pending (snd (Transaction fc w)) = None
         /\ cache (snd (Transaction fc w)) = cache w
  end.
Proof.
  intros Hd Hc. unfold Transaction. specialize (Hd w). specialize (Hc w).
  destruct (fc InTx w) as [[a|e|] w1]; simpl in *; auto.
Qed.

(** X13. The four writing operations of the table service keep to the
    transaction handle: when [Create], [Rename], [Drop] or [DropIndexes]
    run in a transaction does not return nil, the committed database and
    the cache are the ones before the call and no transaction stays
    open. *)
Theorem X13_service_failure_restores (w : World) :
  let restored {A} (r : Result A * World) :=
    match fst r with
    | Ok _ => True
    | _ => committed (snd r) = committed w
           /\ pending (snd r) = None
           /\ cache (snd r) = cache w
    end in
  (forall params, restored (Transaction (fun tx => Create tx params) w))
  /\ (forall a b, restored (Transaction (fun tx => Rename tx a b) w))
  /\ (forall a, restored (Transaction (fun tx => Drop tx a) w))
  /\ (forall l, restored (Transaction (fun tx => DropIndexes tx l) w)).
Proof.
  cbv zeta. repeat split; intros.
  - apply (Transaction_failure_restores (fun tx => Create tx params));
      [apply Create_keeps_committed | apply Create_keeps_cache].
  - apply (Transaction_failure_restores (fun tx => Rename tx a b));
      [apply Rename_keeps_committed | apply Rename_keeps_cache].
  - apply (Transaction_failure_restores (fun tx => Drop tx a));
      [apply Drop_keeps_committed | apply Drop_keeps_cache].
  - apply (Transaction_failure_restores (fun tx => DropIndexes tx l));
      [apply DropIndexes_keeps_committed | apply DropIndexes_keeps_cache].
Qed.

End ServiceFacts.

(** ** Binding templates *)

Section BindFacts.
Variables (input : list (string * Value)) (savedData : Row) (userID : string).

Lemma bind_fold_absent (template : list (string * Value)) (acc result : Row)
    (k : string) :
  fold_left (bind_entry input savedData userID) template (Ok acc) = Ok result ->
  k ∉ map fst template -> result !! k = acc !! k.
Proof.
  revert acc. induction template as [|[k' v] t IH]; intros acc Hf Hk; simpl in Hf.
  - now inversion Hf.
  - simpl in Hk. apply not_elem_of_cons in Hk as [Hne Hk].
    destruct v; simpl in Hf; try (rewrite bind_fold_panic in Hf; discriminate).
    apply IH in Hf; [|exact Hk]. rewrite Hf. now apply lookup_insert_ne.
Qed.

Lemma bind_fold_outcome (template : list (string * Value)) (acc : Row) :
  match fold_left (bind_entry input savedData userID) template (Ok acc) with
  | Ok _ => Forall (fun kv => exists s, snd kv = VStr s) template
  | Panic => Exists (fun kv => forall s, snd kv <> VStr s) template
  | Err _ => False
  end.
Proof.
  revert acc. induction template as [|[k v] t IH]; intros acc; simpl.
  - constructor.
  - destruct v as [| | |s| |]; simpl;
      try (rewrite bind_fold_panic; apply Exists_cons_hd; intros s; discriminate).
    specialize (IH (<[k := bound_value input savedData userID k s]> acc)).
    destruct (fold_left _ t _) as [r|e|].
    + constructor; [simpl; eauto | exact IH].
    + exact IH.
    + now apply Exists_cons_tl.
Qed.

Lemma bound_value_cases (k s : string) :
  bound_value input savedData userID k s
  = if String.eqb s "$user.id" then VStr userID
    else if GoStrings.HasPrefix s "$"
         then map_get savedData (GoStrings.tail1 s)
         else obj_get input k.
Proof.
  unfold bound_value.
  destruct (String.eqb_spec s "$user.id") as [->|Hne]; [reflexivity|].
  reflexivity.
Qed.

End BindFacts.

(** X14. [BindSingularInput] on a template of strings with distinct keys
    returns a record with exactly the keys of the template. A key whose
    template string is [$user.id] holds the caller's identifier; one whose
    string starts with [$] holds the output saved under the rest of the
    string (nil when there is none); any other key holds what the input
    has under that same key, whatever the template string says. Keys of the
    input that the template does not name are dropped. *)
Theorem X14_BindSingularInput_shape
    (template input : list (string * Value)) (savedData : Row) (userID : string) :
  NoDup (map fst template) ->
  Forall (fun kv => exists s, snd kv = VStr s) template ->
  exists result,
    BindSingularInput template input savedData userID = Ok result
    /\ (forall k, k ∉ map fst template -> result !! k = None)
    /\ (forall k s, (k, VStr s) ∈ template ->
          result !! k
          = Some (if String.eqb s "$user.id" then VStr userID
                  else if GoStrings.HasPrefix s "$"
                       then map_get savedData (GoStrings.tail1 s)
                       else obj_get input k)).
Proof.
  intros Hnd Hall.
  destruct (bind_fold_total input savedData userID template ∅ Hall) as [result Hr].
  exists result. split; [exact Hr|]. split.
  - intros k Hk. rewrite (bind_fold_absent _ _ _ _ _ _ _ Hr Hk). apply lookup_empty.
  - intros k s Hin. rewrite <- bound_value_cases.
    apply (bind_fold_lookup input savedData userID template ∅ result k s Hr).
    + intros v Hv. exact (keys_unique template k v (VStr s) Hnd Hv Hin).
    + now left.
Qed.

Lemma X14_BindSingularInput_shape_witness :
  exists result,
    BindSingularInput [("fk", VStr "$A"); ("tag", VStr "tag"); ("by", VStr "$user.id")]
      [("tag", VStr "x"); ("admin", VBool true)]
      (<["A" := VStr "aaaa"]> ∅) "u1" = Ok result
    /\ result !! "admin" = None
    /\ result !! "fk" = Some (VStr "aaaa")
    /\ result !! "tag" = Some (VStr "x")
    /\ result !! "by" = Some (VStr "u1").
Proof.
  destruct (X14_BindSingularInput_shape
              [("fk", VStr "$A"); ("tag", VStr "tag"); ("by", VStr "$user.id")]
              [("tag", VStr "x"); ("admin", VBool true)]
              (<["A" := VStr "aaaa"]> ∅) "u1")
    as (result & Hr & Habsent & Hk).
  - repeat constructor; rewrite list_elem_of_In; simpl; intuition discriminate.
  - repeat constructor; simpl; eauto.
  - exists result. split; [exact Hr|].
    split; [apply Habsent; rewrite list_elem_of_In; simpl; intuition discriminate|].
    split; [|split].
    + rewrite (Hk "fk" "$A") by (apply list_elem_of_In; simpl; tauto). reflexivity.
    + rewrite (Hk "tag" "tag") by (apply list_elem_of_In; simpl; tauto). reflexivity.
    + rewrite (Hk "by" "$user.id") by (apply list_elem_of_In; simpl; tauto).
      reflexivity.
Defined.

(** X15. [BindSingularInput] never returns an error. It returns a record
    exactly when every value of the template is a string, and panics
    exactly when some value is not, whatever the input holds. *)
Theorem X15_BindSingularInput_outcome
    (template input : list (string * Value)) (savedData : Row) (userID : string) :
  match BindSingularInput template input savedData userID with
  | Ok _ => Forall (fun kv => exists s, snd kv = VStr s) template
  | Panic => Exists (fun kv => forall s, snd kv <> VStr s) template
  | Err _ => False
  end.
Proof. apply bind_fold_outcome. Qed.

Lemma bind_input_fold_outcome template savedData userID
    (inputs : list Value) (acc : list Row) :
  match fold_left (bind_input template savedData userID) inputs (Ok acc) with
  | Ok rows =>
      exists rows', rows = acc ++ rows'
        /\ Forall2 (fun input r =>
                      exists m, input = VMap m
                        /\ BindSingularInput template m savedData userID = Ok r)
             inputs rows'
  | Panic =>
      Exists (fun input =>
                forall m r, input = VMap m ->
                  BindSingularInput template m savedData userID <> Ok r) inputs
  | Err _ => False
  end.
Proof.
  revert acc. induction inputs as [|i inputs IH]; intros acc; simpl.
  - exists []. split; [now rewrite app_nil_r | constructor].
  - destruct i as [| | | | |m]; simpl;
      try (rewrite bind_input_fold_stuck by discriminate;
           apply Exists_cons_hd; intros m r; discriminate).
    pose proof (bind_fold_outcome m savedData userID template ∅) as Ho.
    fold (BindSingularInput template m savedData userID) in Ho.
    destruct (BindSingularInput template m savedData userID) as [r|e|] eqn:E.
    + specialize (IH (acc ++ [r])).
      destruct (fold_left _ inputs _) as [rows|e|].
      * destruct IH as (rows' & -> & HF). exists (r :: rows'). split.
        -- now rewrite <- app_assoc.
        -- constructor; [eauto | exact HF].
      * exact IH.
      * now apply Exists_cons_tl.
    + contradiction.
    + rewrite bind_input_fold_stuck by discriminate.
      apply Exists_cons_hd. intros m' r Hm. inversion Hm; subst. congruence.
Qed.

(** X16. [BindMultipleInput] binds the inputs one by one: when it returns,
    there is one record per input, in the order of the inputs, each the
    record [BindSingularInput] gives for that input; it panics exactly
    when some input is not an object or its binding panics; and it never
    returns an error. *)
Theorem X16_BindMultipleInput_elementwise
    (template : list (string * Value)) (inputs : list Value)
    (savedData : Row) (userID : string) :
  match BindMultipleInput template inputs savedData userID with
  | Ok rows =>
      Forall2 (fun input r =>
                 exists m, input = VMap m
                   /\ BindSingularInput template m savedData userID = Ok r)
        inputs rows
  | Panic =>
      Exists (fun input =>
                forall m r, input = VMap m ->
                  BindSingularInput template m savedData userID <> Ok r) inputs
  | Err _ => False
  end.
Proof.
  unfold BindMultipleInput.
  pose proof (bind_input_fold_outcome template savedData userID inputs []) as H.
  destruct (fold_left _ inputs _) as [rows|e|]; [|exact H|exact H].
  destruct H as (rows' & -> & HF). exact HF.
Qed.

(** ** The steps of a function *)

Section StepFacts.
Import gorm.
Variable GenerateRandomString : nat -> nat -> string.

Lemma select_rows_no_panic (name : string) (cols : list string) (d : SQLite.Database) :
  SQLite.select_rows name cols d <> Panic.
Proof. unfold SQLite.select_rows. repeat case_match; discriminate. Qed.

Lemma step_read_only (db : DB) (caller : Caller.t) (userID : string)
    (f : Function.t) (savedData : Row) (w : World) :
  Function.Action f <> "insert" ->
  Function.Action f <> "update" ->
  Function.Action f <> "delete" ->
  exists r, step GenerateRandomString db caller userID f savedData w = (r, w)
            /\ r <> Panic.
Proof.
  intros Hi Hu Hd. unfold step.
  apply String.eqb_neq in Hi, Hu, Hd. rewrite Hi, Hu, Hd.
  destruct (String.eqb (Function.Action f) "fetch").
  - unfold bind, read.
    pose proof (select_rows_no_panic (Function.Table f) (Function.Columns f)
                  (view db w)) as Hp.
    destruct (SQLite.select_rows _ _ _) as [rows|e|];
      [| |now contradiction Hp]; eexists; (split; [reflexivity | discriminate]).
  - eexists; split; [reflexivity | discriminate].
Qed.

Lemma steps_read_only (db : DB) (caller : Caller.t) (userID : string)
    (functions : list Function.t) (savedData : Row) (w : World) :
  Forall (fun f => Function.Action f <> "insert"
                   /\ Function.Action f <> "update"
                   /\ Function.Action f <> "delete") functions ->
  exists r, steps GenerateRandomString db caller userID functions savedData w = (r, w)
            /\ r <> Panic.
Proof.
  intros H. revert savedData.
  induction H as [|f fs (Hi & Hu & Hd) _ IH]; intros savedData; simpl.
  - eexists; split; [reflexivity | discriminate].
  - unfold bind.
    destruct (step_read_only db caller userID f savedData w Hi Hu Hd) as (r & -> & Hr).
    destruct r as [s|e|]; [apply IH | | now contradiction Hr].
    eexists; split; [reflexivity | discriminate].
Qed.

Lemma step_saved (db : DB) (caller : Caller.t) (userID : string)
    (f : Function.t) (s s' : Row) (w w' : World) :
  step GenerateRandomString db caller userID f s w = (Ok s', w') ->
  s' = s
  \/ exists v, s' = <[Function.Name f := v]> s
       /\ ((Function.Action f = "insert" /\ Function.Multiple f = false)
           \/ Function.Action f = "fetch").
Proof.
  unfold step.
  destruct (String.eqb_spec (Function.Action f) "insert") as [Ei|_];
    [|destruct (String.eqb_spec (Function.Action f) "update") as [Eu|_];
      [|destruct (String.eqb_spec (Function.Action f) "delete") as [Ed|_];
        [|destruct (String.eqb_spec (Function.Action f) "fetch") as [Ef|_]]]];
    try destruct (Function.Multiple f) eqn:Em; intros H;
    repeat (apply bind_ok in H as (? & ? & _ & H));
    inversion H; subst;
    first [ now left | right; eexists; split; [reflexivity|]; tauto ].
Qed.

Lemma steps_saved (db : DB) (caller : Caller.t) (userID : string)
    (functions : list Function.t) (s s' : Row) (w w' : World) (k : string) :
  steps GenerateRandomString db caller userID functions s w = (Ok s', w') ->
  is_Some (s' !! k) ->
  is_Some (s !! k)
  \/ exists f, In f functions /\ Function.Name f = k
       /\ ((Function.Action f = "insert" /\ Function.Multiple f = false)
           \/ Function.Action f = "fetch").
Proof.
  revert s w. induction functions as [|f fs IH]; intros s w H Hk; simpl in H.
  - inversion H; subst. now left.
  - apply bind_ok in H as (s1 & w1 & Hstep & H).
    destruct (IH _ _ H Hk) as [Hs1 | (g & Hg & Hn & Hc)].
    + apply step_saved in Hstep as [-> | (v & -> & Hc)]; [now left|].
      destruct (decide (Function.Name f = k)) as [Hn|Hn].
      * right. exists f. split; [now left | tauto].
      * left. now rewrite lookup_insert_ne in Hs1.
    + right. exists g. split; [now right | tauto].
Qed.


Lemma delete_rows_ok (name : string) (conds : list (string * Value))
    (d d' : SQLite.Database) :
  SQLite.delete_rows name conds d = Ok d' ->
  conds <> []
  /\ SQLite.rows_of name d'
     = List.filter (fun r => negb (SQLite.matches conds r)) (SQLite.rows_of name d)
  /\ (forall t, t <> name -> SQLite.rows_of t d' = SQLite.rows_of t d).
Proof.
  unfold SQLite.delete_rows, SQLite.rows_of, SQLite.put_table.
  destruct conds as [|c conds]; [discriminate|].
  destruct (SQLite.tables d !! name) as [t|] eqn:E; [|discriminate].
  destruct (negb _); [discriminate|].
  intros H; inversion H; subst; clear H. simpl. split; [discriminate|]. split.
  - now rewrite lookup_insert_eq.
  - intros t' Hne. now rewrite lookup_insert_ne.
Qed.


End StepFacts.

(** X17. A function with no insert, update or delete step is read-only:
    run with no transaction open, the handler answers (200 or 500, it never
    panics), whatever the payload, and the whole process state is the one
    before the call; no identifier is drawn. *)
Theorem X17_read_only_function
    (GenerateRandomString : nat -> nat -> string)
    (functions : list Function.t) (caller : Caller.t) (userID : string)
    (w : gorm.World) :
  gorm.pending w = None ->
  Forall (fun f => Function.Action f <> "insert"
                   /\ Function.Action f <> "update"
                   /\ Function.Action f <> "delete") functions ->
  exists resp,
    RunFunction GenerateRandomString functions caller userID w = (Ok resp, w).
Proof.
  intros Hp H. unfold RunFunction, gorm.Transaction.
  destruct (steps_read_only GenerateRandomString gorm.InTx caller userID
              functions ∅ w H) as (r & -> & Hr).
  assert (Hc : gorm.commit w = w).
  { destruct w; simpl in *; subst; reflexivity. }
  assert (Hb : gorm.rollback w = w).
  { destruct w; simpl in *; subst; reflexivity. }
  destruct r as [s|e|]; [| |now contradiction Hr];
    rewrite ?Hc, ?Hb; eexists; reflexivity.
Qed.

Lemma X17_read_only_function_witness :
  gorm.pending Fixtures.w_once = None
  /\ exists resp,
       RunFunction Fixtures.letters [fetch_A] (Caller.mk []) "" Fixtures.w_once
       = (Ok resp, Fixtures.w_once).
Proof.
  assert (Hp : gorm.pending Fixtures.w_once = None) by (vm_compute; reflexivity).
  split; [exact Hp|].
  apply (X17_read_only_function Fixtures.letters [fetch_A] (Caller.mk []) ""
           Fixtures.w_once Hp).
  constructor; [|constructor].
  repeat split; discriminate.
Defined.

(** X18. The answer of a function holds an entry only under the name of a
    singular insert step or of a fetch step: multiple inserts, updates and
    deletes leave no output that a later template could refer to. *)
Theorem X18_outputs_named_by_steps
    (GenerateRandomString : nat -> nat -> string)
    (functions : list Function.t) (caller : Caller.t) (userID : string)
    (w w' : gorm.World) (savedData : Row) (k : string) :
  RunFunction GenerateRandomString functions caller userID w
  = (Ok (StatusOK savedData), w') ->
  is_Some (savedData !! k) ->
  exists f, In f functions /\ Function.Name f = k
    /\ ((Function.Action f = "insert" /\ Function.Multiple f = false)
        \/ Function.Action f = "fetch").
Proof.
  unfold RunFunction. intros H Hk.
  destruct (gorm.Transaction _ w) as [[s|e|] w1] eqn:E; inversion H; subst; clear H.
  apply Transaction_ok in E as (w2 & E & _).
  destruct (steps_saved _ _ _ _ _ _ _ _ _ k E Hk) as [Hs|Hf]; [|exact Hf].
  rewrite lookup_empty in Hs. now destruct Hs.
Qed.

Lemma X18_outputs_named_by_steps_witness :
  RunFunction Fixtures.letters [Fixtures.step_A; Fixtures.step_B]
    Fixtures.payload "u1" Fixtures.w_AB
  = (Ok (StatusOK (<["B" := VStr "bbbbbbbbbbbbbbbb"]>
                     (<["A" := VStr "aaaaaaaaaaaaaaaa"]> ∅))), Fixtures.w_once)
  /\ exists f, In f [Fixtures.step_A; Fixtures.step_B] /\ Function.Name f = "A"
       /\ ((Function.Action f = "insert" /\ Function.Multiple f = false)
           \/ Function.Action f = "fetch").
Proof.
  assert (H : RunFunction Fixtures.letters [Fixtures.step_A; Fixtures.step_B]
                Fixtures.payload "u1" Fixtures.w_AB
              = (Ok (StatusOK (<["B" := VStr "bbbbbbbbbbbbbbbb"]>
                                 (<["A" := VStr "aaaaaaaaaaaaaaaa"]> ∅))),
                 Fixtures.w_once))
    by (vm_compute; reflexivity).
  split; [exact H|].
  apply (X18_outputs_named_by_steps _ _ _ _ _ _ _ "A" H).
  vm_compute. eauto.
Defined.



(** X20. A delete step that returns: its filter list is not empty (a
    delete without conditions is refused), it records no output, the rows
    left in its table are rows that were there, in their order, and no
    other table is touched. *)
Theorem X20_delete_step
    (GenerateRandomString : nat -> nat -> string)
    (db : gorm.DB) (caller : Caller.t) (userID : string) (f : Function.t)
    (savedData savedData' : Row) (w w' : gorm.World) :
  Function.Action f = "delete" ->
  step GenerateRandomString db caller userID f savedData w = (Ok savedData', w') ->
  savedData' = savedData
  /\ Function.Filter f <> []
  /\ (exists keep : Row -> bool,
        SQLite.rows_of (Function.Table f) (gorm.view db w')
        = List.filter keep (SQLite.rows_of (Function.Table f) (gorm.view db w)))
  /\ (forall t, t <> Function.Table f ->
        SQLite.rows_of t (gorm.view db w') = SQLite.rows_of t (gorm.view db w)).
Proof.
  intros Ha. unfold step. rewrite Ha.
  change (String.eqb "delete" "insert") with false.
  change (String.eqb "delete" "update") with false.
  change (String.eqb "delete" "delete") with true. cbv iota.
  intros H.
  apply bind_ok in H as (data & w1 & Hd & H). apply lift_ok in Hd as [Hd ->].
  apply bind_ok in H as ([] & w2 & Hw & H). inversion H; subst; clear H.
  apply write_ok in Hw as (Hw & _).
  apply delete_rows_ok in Hw as (Hne & Hrows & Hother).
  split; [reflexivity|]. split.
  - intros C. apply Hne. rewrite C. unfold delete_filter. simpl.
    apply map_to_list_empty.
  - split; [eexists; exact Hrows | exact Hother].
Qed.

Lemma X20_delete_step_witness :
  Function.Action delete_A = "delete"
  /\ step Fixtures.letters gorm.InTx payload_delete_A "u1" delete_A ∅ Fixtures.w_once
     = (Ok ∅, snd (step Fixtures.letters gorm.InTx payload_delete_A "u1" delete_A ∅
                     Fixtures.w_once))
  /\ Function.Filter delete_A <> [].
Proof.
  assert (Ha : Function.Action delete_A = "delete") by reflexivity.
  assert (H : step Fixtures.letters gorm.InTx payload_delete_A "u1" delete_A ∅
                Fixtures.w_once
              = (Ok ∅, snd (step Fixtures.letters gorm.InTx payload_delete_A "u1"
                              delete_A ∅ Fixtures.w_once)))
    by (vm_compute; reflexivity).
  split; [exact Ha|]. split; [exact H|].
  exact (proj1 (proj2 (X20_delete_step _ _ _ _ _ _ _ _ _ Ha H))).
Defined.

(** ** The handlers of database.go *)

Section HandlerFacts.
Import gorm.

Lemma append_assoc (a b c : string) : (a +:+ b) +:+ c = a +:+ (b +:+ c).
Proof.
  induction a as [|x a IH]; [reflexivity|].
  change (String x ((a +:+ b) +:+ c) = String x (a +:+ (b +:+ c))).
  now rewrite IH.
Qed.

Lemma append_nonempty_r (a b : string) : b <> "" -> a +:+ b <> "".
Proof. destruct a; [now intros | discriminate]. Qed.

Lemma concat_cons (sep x : string) (xs : list string) :
  xs <> [] -> String.concat sep (x :: xs) = x +:+ sep +:+ String.concat sep xs.
Proof. destruct xs; [now intros C | reflexivity]. Qed.

Lemma columns_fold (allColumn : list Column.t) (columns : string) :
  Forall (fun c => Column.Name c <> "") allColumn ->
  fold_left columns_step allColumn columns
  = String.concat ", "
      ((if String.eqb columns "" then [] else [columns])
         ++ List.filter (fun n => negb (secret_column n)) (map Column.Name allColumn)).
Proof.
  intros H. revert columns. induction H as [|c cs Hc _ IH]; intros columns.
  - simpl. rewrite app_nil_r. now destruct (String.eqb_spec columns "") as [->|].
  - cbn [fold_left map List.filter]. rewrite IH. unfold columns_step, secret_column.
    rewrite <- negb_orb.
    destruct (String.eqb (Column.Name c) "password" || String.eqb (Column.Name c) "salt");
      cbn [negb]; [reflexivity|].
    destruct (String.eqb_spec columns "") as [->|Hne]; cbn [negb app].
    + apply String.eqb_neq in Hc. now rewrite Hc.
    + assert (Hn : String.eqb (columns +:+ ", " +:+ Column.Name c) "" = false).
      { apply String.eqb_neq, append_nonempty_r. discriminate. }
      rewrite Hn. cbn [app].
      set (ns := List.filter _ _).
      rewrite (concat_cons ", " columns (Column.Name c :: ns)) by discriminate.
      destruct ns as [|n ns].
      * reflexivity.
      * rewrite !concat_cons by discriminate. now rewrite !append_assoc.
Qed.

(** X21. The select list of [FetchRows]. For a table that is not an auth
    table it is [*]. For an auth table whose columns all have a name, it is
    the names of the columns other than [password] and [salt], in the order
    of the pragma, joined by a comma and a space: the two secret columns
    are never selected. *)
Theorem X21_FetchRows_columns (isAuth : bool) (allColumn : list Column.t) :
  Forall (fun c => Column.Name c <> "") allColumn ->
  FetchRows_columns isAuth allColumn
  = if isAuth
    then GoStrings.Join
           (List.filter (fun n => negb (secret_column n)) (map Column.Name allColumn))
           ", "
    else "*".
Proof.
  intros H. unfold FetchRows_columns. destruct isAuth; [|reflexivity].
  now rewrite columns_fold.
Qed.

Lemma X21_FetchRows_columns_witness :
  FetchRows_columns true
    [ Column.mk 0 "" "id" 0 1 "INTEGER" "";
      Column.mk 1 "" "email" 1 0 "TEXT" "";
      Column.mk 2 "" "password" 1 0 "TEXT" "";
      Column.mk 3 "" "salt" 1 0 "TEXT" "";
      Column.mk 4 "" "nickname" 1 0 "TEXT" "" ]
  = "id, email, nickname".
Proof.
  apply (X21_FetchRows_columns true).
  repeat constructor; discriminate.
Defined.





End HandlerFacts.

(** ** The form loops of [InsertData] and [UpdateData] *)

Section FormFacts.

Lemma snoc_key_fresh {A} (form : list (string * A)) (k : string) (a b : A) :
  NoDup (map fst (form ++ [(k, a)])) -> (k, b) ∈ form ++ [(k, a)] -> b = a.
Proof.
  intros Hnd Hin. rewrite map_app in Hnd.
  apply NoDup_app in Hnd as (_ & Hd & _).
  apply elem_of_app in Hin as [Hin|Hin].
  - exfalso. apply (Hd k).
    + apply list_elem_of_In, List.in_map_iff. exists (k, b).
      split; [reflexivity | now apply list_elem_of_In].
    + simpl. apply elem_of_cons. now left.
  - apply elem_of_cons in Hin as [Hin|Hin]; [congruence | inversion Hin].
Qed.

Lemma snoc_other {A} (form : list (string * A)) (k k' : string) (a b : A) :
  k <> k' -> (k, b) ∈ form ++ [(k', a)] <-> (k, b) ∈ form.
Proof.
  intros Hne. rewrite elem_of_app, elem_of_cons. split; [|tauto].
  intros [H|[H|H]]; [exact H | congruence | inversion H].
Qed.

Lemma NoDup_snoc_prefix {A} (form : list (string * A)) (x : string * A) :
  NoDup (map fst (form ++ [x])) -> NoDup (map fst form).
Proof. rewrite map_app. intros H. now apply NoDup_app in H as (H & _). Qed.

Lemma update_fold (form : list (string * list string)) (k : string) (v : Value) :
  NoDup (map fst form) ->
  fold_left UpdateData_step form ∅ !! k = Some v
  <-> exists v0 vs, (k, v0 :: vs) ∈ form
        /\ timestamp_key k = false /\ v0 <> "" /\ v = VStr v0.
Proof.
  revert k v. induction form as [|[k' vs'] form IH] using rev_ind; intros k v Hnd.
  - simpl. rewrite lookup_empty. split; [discriminate|].
    intros (v0 & vs & Hin & _). inversion Hin.
  - rewrite fold_left_app. cbn [fold_left].
    pose proof (NoDup_snoc_prefix _ _ Hnd) as Hnd'.
    assert (Hskip :
      (forall v0 vs, vs' = v0 :: vs -> timestamp_key k' = true \/ v0 = "") ->
      (fold_left UpdateData_step form ∅ !! k = Some v
       <-> exists v0 vs, (k, v0 :: vs) ∈ form ++ [(k', vs')]
             /\ timestamp_key k = false /\ v0 <> "" /\ v = VStr v0)).
    { intros Hs. rewrite IH by assumption. split.
      - intros (v0 & vs & Hin & H). exists v0, vs. split; [|exact H].
        apply elem_of_app. now left.
      - intros (v0 & vs & Hin & Ht & Hv & ->).
        destruct (decide (k = k')) as [->|Hne].
        + apply (snoc_key_fresh _ _ _ _ Hnd) in Hin.
          destruct (Hs v0 vs (eq_sym Hin)) as [C|C]; congruence.
        + apply snoc_other in Hin; [|exact Hne]. eauto 6. }
    unfold UpdateData_step at 1. cbn [fst snd].
    destruct vs' as [|v0' vs0]; [apply Hskip; discriminate|].
    fold (timestamp_key k').
    destruct (timestamp_key k') eqn:Et; [apply Hskip; auto|].
    destruct (String.eqb_spec v0' "") as [->|Hv0];
      [apply Hskip; intros ? ? E; inversion E; auto|].
    destruct (decide (k = k')) as [->|Hne].
    + rewrite lookup_insert_eq. split.
      * intros E. inversion E; subst. exists v0', vs0. split; [|auto].
        apply elem_of_app. right. apply elem_of_cons. now left.
      * intros (v0 & vs & Hin & _ & _ & ->).
        apply (snoc_key_fresh _ _ _ _ Hnd) in Hin. now inversion Hin.
    + rewrite lookup_insert_ne by congruence. rewrite IH by assumption.
      split; intros (v0 & vs & Hin & H); exists v0, vs; (split; [|exact H]).
      * apply elem_of_app. now left.
      * now apply snoc_other in Hin.
Qed.

End FormFacts.

(** X23. The record [UpdateData] builds from the form, whose keys are
    distinct: a key is in the record exactly when the form has it with a
    first value that is not empty and the key is neither [created_at] nor
    [updated_at], and it then holds that first value. The key [id] is not
    excluded here, unlike in [InsertData]. *)
Theorem X23_UpdateData_values
    (form : list (string * list string)) (k : string) (v : Value) :
  NoDup (map fst form) ->
  UpdateData_values form !! k = Some v
  <-> exists v0 vs, (k, v0 :: vs) ∈ form
        /\ timestamp_key k = false /\ v0 <> "" /\ v = VStr v0.
Proof. apply update_fold. Qed.

Lemma X23_UpdateData_values_witness :
  UpdateData_values [("id", ["7"]); ("updated_at", ["now"]); ("title", [""])] !! "id"
  = Some (VStr "7").
Proof.
  apply (X23_UpdateData_values
           [("id", ["7"]); ("updated_at", ["now"]); ("title", [""])] "id" (VStr "7")).
  - repeat constructor; rewrite list_elem_of_In; simpl; intuition discriminate.
  - exists "7", []. split; [apply elem_of_cons; now left|].
    repeat split. discriminate.
Defined.

Section InsertFormFacts.
Variable P : string -> bool.

Lemma form_snoc_skip (form : list (string * list string)) (k' : string)
    (vs' : list string) (data : Row) :
  NoDup (map fst (form ++ [(k', vs')])) ->
  (forall k v, data !! k = Some v
     <-> exists v0 vs, (k, v0 :: vs) ∈ form /\ P k = false /\ v0 <> "" /\ v = VStr v0) ->
  (forall v0 vs, vs' = v0 :: vs -> P k' = true \/ v0 = "") ->
  forall k v, data !! k = Some v
    <-> exists v0 vs, (k, v0 :: vs) ∈ form ++ [(k', vs')]
          /\ P k = false /\ v0 <> "" /\ v = VStr v0.
Proof.
  intros Hnd IH Hs k v. rewrite IH. split.
  - intros (v0 & vs & Hin & H). exists v0, vs. split; [|exact H].
    apply elem_of_app. now left.
  - intros (v0 & vs & Hin & Ht & Hv & ->).
    destruct (decide (k = k')) as [->|Hne].
    + apply (snoc_key_fresh _ _ _ _ Hnd) in Hin.
      destruct (Hs v0 vs (eq_sym Hin)) as [C|C]; congruence.
    + apply snoc_other in Hin; [|exact Hne]. eauto 6.
Qed.

Lemma form_snoc_insert (form : list (string * list string)) (k' v0' : string)
    (vs0 : list string) (data : Row) :
  NoDup (map fst (form ++ [(k', v0' :: vs0)])) ->
  (forall k v, data !! k = Some v
     <-> exists v0 vs, (k, v0 :: vs) ∈ form /\ P k = false /\ v0 <> "" /\ v = VStr v0) ->
  P k' = false -> v0' <> "" ->
  forall k v, <[k' := VStr v0']> data !! k = Some v
    <-> exists v0 vs, (k, v0 :: vs) ∈ form ++ [(k', v0' :: vs0)]
          /\ P k = false /\ v0 <> "" /\ v = VStr v0.
Proof.
  intros Hnd IH Hp Hv k v.
  destruct (decide (k = k')) as [->|Hne].
  - rewrite lookup_insert_eq. split.
    + intros E. inversion E; subst. exists v0', vs0. split; [|auto].
      apply elem_of_app. right. apply elem_of_cons. now left.
    + intros (v0 & vs & Hin & _ & _ & ->).
      apply (snoc_key_fresh _ _ _ _ Hnd) in Hin. now inversion Hin.
  - rewrite lookup_insert_ne by congruence. rewrite IH.
    split; intros (v0 & vs & Hin & H); exists v0, vs; (split; [|exact H]).
    + apply elem_of_app. now left.
    + now apply snoc_other in Hin.
Qed.

End InsertFormFacts.

Lemma insert_fold (user_id : Value) (form : list (string * list string)) :
  NoDup (map fst form) ->
  match fold_left (InsertData_step user_id) form (Filtered ∅) with
  | BadRequest e =>
      e = "User not authorized" /\ user_id = VNil
      /\ exists k vs, (k, "$user.id" :: vs) ∈ form /\ reserved_key k = false
  | Filtered data =>
      (user_id = VNil ->
       forall k vs, (k, "$user.id" :: vs) ∈ form -> reserved_key k = true)
      /\ forall k v, data !! k = Some v
           <-> exists v0 vs, (k, v0 :: vs) ∈ form
                 /\ reserved_key k = false /\ v0 <> "" /\ v = VStr v0
  end.
Proof.
  induction form as [|[k' vs'] form IH] using rev_ind; intros Hnd.
  - simpl. split.
    + intros _ k vs Hin. inversion Hin.
    + intros k v. rewrite lookup_empty. split; [discriminate|].
      intros (v0 & vs & Hin & _). inversion Hin.
  - rewrite fold_left_app. cbn [fold_left].
    specialize (IH (NoDup_snoc_prefix _ _ Hnd)).
    destruct (fold_left (InsertData_step user_id) form (Filtered ∅)) as [data|e].
    2:{ cbn [InsertData_step]. destruct IH as (He & Hu & k & vs & Hin & Hr).
        repeat split; auto. exists k, vs. split; [|exact Hr].
        apply elem_of_app. now left. }
    destruct IH as [IH1 IH2].
    assert (Hskip :
      (forall v0 vs, vs' = v0 :: vs -> reserved_key k' = true \/ v0 = "") ->
      (user_id = VNil ->
       forall k vs, (k, "$user.id" :: vs) ∈ form ++ [(k', vs')] -> reserved_key k = true)
      /\ forall k v, data !! k = Some v
           <-> exists v0 vs, (k, v0 :: vs) ∈ form ++ [(k', vs')]
                 /\ reserved_key k = false /\ v0 <> "" /\ v = VStr v0).
    { intros Hs. split; [|now apply form_snoc_skip].
      intros Hu k vs Hin. apply elem_of_app in Hin as [Hin|Hin]; [now apply (IH1 Hu k vs)|].
      apply elem_of_cons in Hin as [Hin|Hin]; [|inversion Hin].
      inversion Hin; subst. destruct (Hs _ _ eq_refl) as [C|C]; [exact C | discriminate]. }
    unfold InsertData_step. cbn [fst snd].
    destruct vs' as [|v0' vs0]; [apply Hskip; discriminate|].
    fold (reserved_key k').
    destruct (reserved_key k') eqn:Er; [apply Hskip; auto|].
    destruct (String.eqb_spec v0' "") as [->|Hv0];
      [apply Hskip; intros ? ? E; inversion E; auto|].
    destruct (String.eqb_spec v0' "$user.id") as [->|Hu0].
    + destruct user_id eqn:Eu; cbn [SQLite.is_nil];
        try (rewrite insert_insert_eq; split;
             [discriminate | now apply form_snoc_insert]).
      repeat split. exists k', vs0. split; [|exact Er].
      apply elem_of_app. right. apply elem_of_cons. now left.
    + split; [|now apply form_snoc_insert].
      intros Hu k vs Hin. apply elem_of_app in Hin as [Hin|Hin]; [now apply (IH1 Hu k vs)|].
      apply elem_of_cons in Hin as [Hin|Hin]; [|inversion Hin].
      inversion Hin; subst. now contradiction Hu0.
Qed.

(** X22. The loop of [InsertData] over the form, whose keys are distinct.
    It answers 400, User not authorized, only for an anonymous caller whose
    form has the value [$user.id] under a key that is not reserved.
    Otherwise a key is in the record exactly when the form has it with a
    first value that is not empty and the key is none of [id],
    [created_at], [updated_at]; it then holds that first value as it was
    sent. So the value [$user.id] of an authorised caller is stored as this
    text: the caller's identifier assigned first is overwritten. *)
Theorem X22_InsertData_values
    (form : list (string * list string)) (user_id : Value) :
  NoDup (map fst form) ->
  match InsertData_values form user_id with
  | BadRequest e =>
      e = "User not authorized" /\ user_id = VNil
      /\ exists k vs, (k, "$user.id" :: vs) ∈ form /\ reserved_key k = false
  | Filtered data =>
      (user_id = VNil ->
       forall k vs, (k, "$user.id" :: vs) ∈ form -> reserved_key k = true)
      /\ forall k v, data !! k = Some v
           <-> exists v0 vs, (k, v0 :: vs) ∈ form
                 /\ reserved_key k = false /\ v0 <> "" /\ v = VStr v0
  end.
Proof. apply insert_fold. Qed.

Lemma X22_InsertData_values_witness :
  NoDup (map fst [("id", ["7"]); ("owner", ["$user.id"])])
  /\ InsertData_values [("id", ["7"]); ("owner", ["$user.id"])] (VStr "u1")
     = Filtered (<["owner" := VStr "$user.id"]> ∅)
  /\ InsertData_values [("id", ["7"]); ("owner", ["$user.id"])] VNil
     = BadRequest "User not authorized".
Proof.
  assert (Hnd : NoDup (map fst [("id", ["7"]); ("owner", ["$user.id"])])).
  { repeat constructor; rewrite list_elem_of_In; simpl; intuition discriminate. }
  split; [exact Hnd|]. split.
  - vm_compute. reflexivity.
  - pose proof (X22_InsertData_values
                  [("id", ["7"]); ("owner", ["$user.id"])] VNil Hnd) as H.
    destruct (InsertData_values _ VNil) as [data|e].
    + destruct H as [H _]. specialize (H eq_refl "owner" []).
      assert (Hin : ("owner", ["$user.id"]) ∈ [("id", ["7"]); ("owner", ["$user.id"])]).
      { apply list_elem_of_In. simpl. tauto. }
      specialize (H Hin). discriminate H.
    + destruct H as [-> _]. reflexivity.
Defined.

(** ** The answers of the [CreateTable] handler *)

Section CreateTableFacts.
Import gorm.

Lemma exec_no_panic (sql : string) (d : SQLite.Database) : SQLite.exec sql d <> Panic.
Proof.
  unfold SQLite.exec, SQLite.create_table, SQLite.drop_table,
    SQLite.create_index, SQLite.drop_index_if_exists, SQLite.rename_table,
    SQLite.create_trigger.
  repeat case_match; discriminate.
Qed.

Lemma never_panics_ret {A} (a : A) : never_panics (ret a).
Proof. intros w. discriminate. Qed.

Lemma never_panics_bind {A B} (m : M A) (k : A -> M B) :
  never_panics m -> (forall a, never_panics (k a)) -> never_panics (bind m k).
Proof.
  intros Hm Hk w. unfold bind. specialize (Hm w).
  destruct (m w) as [[a|e|] w1]; simpl in *;
    [apply Hk | discriminate | now contradiction Hm].
Qed.

Lemma never_panics_write (h : DB) f :
  (forall d, f d <> Panic) -> never_panics (write h f).
Proof.
  intros Hf w. unfold write.
  destruct h; [destruct (pending w); [discriminate|]|];
    match goal with |- context [f ?d] => pose proof (Hf d); destruct (f d) end;
    simpl; congruence.
Qed.

Lemma never_panics_read {A} (h : DB) (f : SQLite.Database -> Result A) :
  (forall d, f d <> Panic) -> never_panics (read h f).
Proof. intros Hf w. apply Hf. Qed.

Lemma exec_all_never_panics (h : DB) (stmts : list string) :
  never_panics (DatabaseAPI.exec_all h stmts).
Proof.
  induction stmts as [|sql rest IH]; simpl.
  - apply never_panics_ret.
  - apply never_panics_bind; [|intros _; exact IH].
    apply never_panics_write, exec_no_panic.
Qed.

Lemma create_callback_never_panics (id : string) (params : createTableReq.t) (tx : DB) :
  never_panics (DatabaseAPI.create_callback id params tx).
Proof.
  unfold DatabaseAPI.create_callback, Exec, Create_Tables_v0.
  apply never_panics_bind; [apply never_panics_write, exec_no_panic | intros _].
  apply never_panics_bind; [apply exec_all_never_panics | intros _].
  apply never_panics_bind; [apply never_panics_read; discriminate | intros n].
  apply never_panics_bind.
  - destruct (n =? 0)%Z; [apply never_panics_write, exec_no_panic | apply never_panics_ret].
  - intros _. apply never_panics_write. intros d. unfold SQLite.catalog_create.
    now destruct (SQLite.catalog d !! _).
Qed.

End CreateTableFacts.

(** X26. The answers of the handler [CreateTable]. It never panics. It
    answers 400, Invalid id type, exactly when the id type is neither
    [string] nor [manual], and then nothing was executed. When it answers
    200, the catalog holds the row of the table: its name, the auth flag of
    a users table, not a system table; and no transaction is left open. *)
Theorem X26_CreateTable_answers (params : createTableReq.t) (w : gorm.World) :
  match DatabaseAPI.CreateTable params w with
  | (DatabaseAPI.HTTPError status msg, w1) =>
      status = 400 /\ msg = "Invalid id type" /\ w1 = w
      /\ createTableReq.IDType params <> "string"
      /\ createTableReq.IDType params <> "manual"
  | (DatabaseAPI.JSON_OK, w1) =>
      (createTableReq.IDType params = "string"
       \/ createTableReq.IDType params = "manual")
      /\ gorm.pending w1 = None
      /\ SQLite.catalog (gorm.committed w1) !! createTableReq.TableName params
         = Some (Tables.mk (createTableReq.TableName params)
                   (String.eqb (createTableReq.Typ params) "users") false
                   EmptyText [] "" "" "" "" "")
  | (DatabaseAPI.JSON_Error status _, _) =>
      status = 500
      /\ (createTableReq.IDType params = "string"
          \/ createTableReq.IDType params = "manual")
  | (DatabaseAPI.Panicked, _) => False
  end.
Proof.
  unfold DatabaseAPI.CreateTable, ApiDDL.idField.
  destruct (String.eqb_spec (createTableReq.IDType params) "string") as [Es|Es];
    [|destruct (String.eqb_spec (createTableReq.IDType params) "manual") as [Em|Em]];
    [| |repeat split; assumption];
    match goal with
    | |- context [gorm.Transaction (DatabaseAPI.create_callback ?id params) w] =>
        pose proof (create_callback_never_panics id params gorm.InTx w) as Hp;
        destruct (gorm.Transaction (DatabaseAPI.create_callback id params) w)
          as [[[]|e|] w1] eqn:ET
    end; cbn [DatabaseAPI.respond]; try (split; [reflexivity | tauto]).
  all: try (unfold gorm.Transaction in ET;
            destruct (DatabaseAPI.create_callback _ params gorm.InTx w) as [[?|?|] ?];
            simpl in Hp; try discriminate ET; now contradiction Hp).
  all: split; [tauto|];
    apply Transaction_ok in ET as (w' & H & ->);
    unfold DatabaseAPI.create_callback in H;
    apply bind_ok in H as ([] & wa & _ & H);
    apply bind_ok in H as ([] & wb & _ & H);
    apply bind_ok in H as (n & wc & _ & H);
    apply bind_ok in H as ([] & wd & _ & H);
    unfold gorm.Create_Tables_v0, gorm.write in H;
    destruct (gorm.pending wd); [discriminate H|];
    unfold SQLite.catalog_create in H; cbn [Tables.Name] in H;
    destruct (SQLite.catalog (gorm.committed wd) !! createTableReq.TableName params);
      [discriminate H|];
    inversion H; subst; clear H; cbn;
    (split; [reflexivity | apply lookup_insert_eq]).
Qed.
